(** * neo4j_export.py: graph-to-CSV flattening and importer-model generation

    A shallow embedding of the export engine of [Neo4jExporter]
    (src/neo4j_export.py) and the properties of its identifier resolution,
    node and relationship flattening, type inference and schema documents.

    Modelling conventions.
    - A Python [str] is a [string]: the development covers strings of 8-bit
      characters and is exact for ASCII text ([lower], [len], the ordering
      used by [sorted] and the parsers of [int] and [float] are the ASCII
      ones).
    - A property value is [None], a [str], an [int] or a [bool]
      ([pyvalue]); floating-point, temporal, spatial and array values of the
      database are outside the data model.
    - A Python [dict] that is only looked up is a [gmap]; a [dict] whose
      iteration order is observed ([metadata], the two [exported_files]) is
      an association list updated the way [d[k] = v] updates a dict.
    - The database session is a record of query answers ([graph_db]); the
      output directory is a finite map from file names to the rows a
      [csv.reader] yields for the file.
    - A raised exception is a value ([Raise]); the exporter's fields are
      threaded explicitly, and survive a raise the way the object does.
    - Of the lines printed, the [Warning:] lines of the two export passes are
      recorded as events; progress lines are not modelled. *)

From Stdlib Require Import ZArith Bool Ascii String List Lia Sorted Permutation.
From stdpp Require Import gmap strings list sorting pretty.

(** ** Python built-ins used by the exporter *)

(** [Py_ISSPACE]: the ASCII blanks skipped by [int] and [float]. *)
Definition is_space (c : ascii) : bool :=
  let n := nat_of_ascii c in ((9 <=? n) && (n <=? 13)) || (n =? 32).

Definition is_digit (c : ascii) : bool :=
  let n := nat_of_ascii c in (48 <=? n) && (n <=? 57).

Definition is_upper (c : ascii) : bool :=
  let n := nat_of_ascii c in (65 <=? n) && (n <=? 90).

Definition lower_ascii (c : ascii) : ascii :=
  if is_upper c then ascii_of_nat (nat_of_ascii c + 32) else c.

(** [s.lower()] *)
Fixpoint py_lower (s : string) : string :=
  match s with
  | EmptyString => EmptyString
  | String c s' => String (lower_ascii c) (py_lower s')
  end.

(** [s.endswith(suffix)] *)
Definition py_endswith (s suffix : string) : bool :=
  let n := String.length s in
  let k := String.length suffix in
  (k <=? n) && String.eqb (substring (n - k) k s) suffix.

(** [needle in haystack] on strings *)
Fixpoint py_contains (haystack needle : string) : bool :=
  String.prefix needle haystack ||
  match haystack with
  | EmptyString => false
  | String _ rest => py_contains rest needle
  end.

Fixpoint drop_while {A} (f : A → bool) (l : list A) : list A :=
  match l with
  | x :: l' => if f x then drop_while f l' else l
  | [] => []
  end.

Definition is_nil {A} (l : list A) : bool :=
  match l with [] => true | _ => false end.

(** [sorted(l, key=...)]: a stable sort; [le x y] compares the keys.  An
    element is inserted in front of the elements that do not precede it, so
    elements with equal keys keep the order of the input. *)
Fixpoint py_insert {A} (le : A → A → bool) (x : A) (l : list A) : list A :=
  match l with
  | y :: l' => if le x y then x :: l else y :: py_insert le x l'
  | [] => [x]
  end.

Fixpoint py_sorted {A} (le : A → A → bool) (l : list A) : list A :=
  match l with
  | x :: l' => py_insert le x (py_sorted le l')
  | [] => []
  end.

(** *** Values *)

Inductive pyvalue : Type :=
| PNone
| PStr (s : string)
| PInt (n : Z)
| PBool (b : bool).

(** [a == b]: [bool] is a subtype of [int], [True == 1] and [False == 0]. *)
Definition py_eqb (a b : pyvalue) : bool :=
  match a, b with
  | PNone, PNone => true
  | PStr s, PStr t => String.eqb s t
  | PInt n, PInt m => Z.eqb n m
  | PInt n, PBool c => Z.eqb n (Z.b2z c)
  | PBool c, PInt m => Z.eqb (Z.b2z c) m
  | PBool c, PBool d => Bool.eqb c d
  | _, _ => false
  end.

(** [x in l] for a list [l] *)
Definition py_in (x : pyvalue) (l : list pyvalue) : bool :=
  existsb (py_eqb x) l.

(** truth value of an object *)
Definition py_truthy (v : pyvalue) : bool :=
  match v with
  | PNone => false
  | PStr s => negb (String.eqb s "")
  | PInt n => negb (Z.eqb n 0)
  | PBool b => b
  end.

(** [str(v)] *)
Definition py_str (v : pyvalue) : string :=
  match v with
  | PNone => "None"
  | PStr s => s
  | PInt n => pretty n
  | PBool b => if b then "True" else "False"
  end.

(** [len(set(l))]: the number of values of [l] up to [==]. *)
Fixpoint py_set (l : list pyvalue) : list pyvalue :=
  match l with
  | x :: l' => x :: List.filter (fun y => negb (py_eqb x y)) (py_set l')
  | [] => []
  end.

(** [d.get(k)] and [d.get(k, default)] *)
Definition dict_get (d : gmap string pyvalue) (k : string) : pyvalue :=
  default PNone (d !! k).

Definition dict_get_default (d : gmap string pyvalue) (k : string)
    (dflt : pyvalue) : pyvalue :=
  default dflt (d !! k).

(** *** [int(s)] and [float(s)] on a string: does the conversion succeed? *)

(** The run of digits of [PyLong_FromString]: digits, with single
    underscores between them.  [prev] is the character before; the result is
    the number of digits and what follows them, or nothing when an
    underscore is doubled or trailing. *)
Fixpoint scan_digits (prev : ascii) (digits : nat) (s : list ascii)
    : option (nat * list ascii) :=
  match s with
  | c :: s' =>
      if is_digit c then scan_digits c (S digits) s'
      else if Ascii.eqb c "_"%char then
        if Ascii.eqb prev "_"%char then None else scan_digits c digits s'
      else if Ascii.eqb prev "_"%char then None else Some (digits, s)
  | [] => if Ascii.eqb prev "_"%char then None else Some (digits, [])
  end.

Definition skip_sign (s : list ascii) : list ascii :=
  match s with
  | c :: s' => if Ascii.eqb c "+"%char || Ascii.eqb c "-"%char then s' else s
  | [] => []
  end.

(** [sys.get_int_max_str_digits()], CPython's default *)
Definition int_max_str_digits : nat := 4300.

(** [int(s)] does not raise [ValueError]. *)
Definition int_parses (s : string) : bool :=
  let body := skip_sign (drop_while is_space (list_ascii_of_string s)) in
  match body with
  | c :: _ =>
      if Ascii.eqb c "_"%char then false
      else
        match scan_digits "000"%char 0 body with
        | Some (digits, rest) =>
            (0 <? digits) && (digits <=? int_max_str_digits)
            && is_nil (drop_while is_space rest)
        | None => false
        end
  | [] => false
  end.

Definition py_strip (s : list ascii) : list ascii :=
  rev (drop_while is_space (rev (drop_while is_space s))).

(** Underscores of a float literal: each stands between two digits, and is
    dropped. *)
Fixpoint drop_underscores (prev : ascii) (s : list ascii)
    : option (list ascii) :=
  match s with
  | c :: s' =>
      if Ascii.eqb c "_"%char then
        if is_digit prev then drop_underscores c s' else None
      else if Ascii.eqb prev "_"%char && negb (is_digit c) then None
      else option_map (cons c) (drop_underscores c s')
  | [] => if Ascii.eqb prev "_"%char then None else Some []
  end.

Definition skip_digits (s : list ascii) : list ascii := drop_while is_digit s.

Definition count_digits (s : list ascii) : nat :=
  length s - length (skip_digits s).

(** The exponent of [_Py_dg_strtod]: it is consumed only with a digit. *)
Definition skip_exponent (s : list ascii) : list ascii :=
  match s with
  | c :: s' =>
      if Ascii.eqb c "e"%char || Ascii.eqb c "E"%char then
        let t := skip_sign s' in
        if 0 <? count_digits t then skip_digits t else s
      else s
  | [] => []
  end.

(** [_Py_dg_strtod]: sign, digits, point, digits, exponent; at least one
    digit before the exponent.  The result is what is left unread. *)
Definition strtod_rest (s : list ascii) : option (list ascii) :=
  let t := skip_sign s in
  let int_digits := count_digits t in
  let t1 := skip_digits t in
  match t1 with
  | c :: t2 =>
      if Ascii.eqb c "."%char then
        if 0 <? int_digits + count_digits t2
        then Some (skip_exponent (skip_digits t2)) else None
      else if 0 <? int_digits then Some (skip_exponent t1) else None
  | [] => if 0 <? int_digits then Some [] else None
  end.

Definition lower_list (s : list ascii) : list ascii := map lower_ascii s.

Fixpoint starts_with (p s : list ascii) : option (list ascii) :=
  match p, s with
  | [], _ => Some s
  | a :: p', b :: s' => if Ascii.eqb a b then starts_with p' s' else None
  | _ :: _, [] => None
  end.

(** [_Py_parse_inf_or_nan] *)
Definition inf_or_nan_rest (s : list ascii) : option (list ascii) :=
  let t := skip_sign s in
  match starts_with (list_ascii_of_string "inf") (lower_list t) with
  | Some r =>
      match starts_with (list_ascii_of_string "inity") r with
      | Some r' => Some r'
      | None => Some r
      end
  | None => starts_with (list_ascii_of_string "nan") (lower_list t)
  end.

(** [float(s)] does not raise [ValueError]. *)
Definition float_parses (s : string) : bool :=
  match drop_underscores "000"%char (py_strip (list_ascii_of_string s)) with
  | Some body =>
      match strtod_rest body with
      | Some rest => is_nil rest
      | None =>
          match inf_or_nan_rest body with
          | Some rest => is_nil rest
          | None => false
          end
      end
  | None => false
  end.

(** ** Exceptions *)

Inductive exn : Type :=
| ValueError (msg : string)
| IndexError.

Inductive result (A : Type) : Type :=
| Ok (a : A)
| Raise (e : exn).

Arguments Ok {A} a.
Arguments Raise {A} e.

(** [l[0]] *)
Definition index0 {A} (l : list A) : result A :=
  match l with
  | x :: _ => Ok x
  | [] => Raise IndexError
  end.

(** ** [_infer_type] *)

(** [int(value)] and [float(value)] succeed on an [int] or a [bool]; [None]
    never reaches them, being false. *)
Definition int_ok (value : pyvalue) : bool :=
  match value with
  | PStr s => int_parses s
  | PInt _ | PBool _ => true
  | PNone => false
  end.

Definition float_ok (value : pyvalue) : bool :=
  match value with
  | PStr s => float_parses s
  | PInt _ | PBool _ => true
  | PNone => false
  end.

Definition lower_in_true_false (value : pyvalue) : bool :=
  match value with
  | PStr s => let l := py_lower s in String.eqb l "true" || String.eqb l "false"
  | _ => false
  end.

Definition _infer_type (value : pyvalue) : string :=
  if negb (py_truthy value) || py_eqb value (PStr "NULL") then "string"
  else if int_ok value then "integer"
  else if float_ok value then "float"
  else if lower_in_true_false value then "boolean"
  else "string".

(** ** [_determine_identifier] *)

(** The sort key [(x.lower() != 'id', len(x))], compared as Python compares
    tuples. *)
Definition id_key (x : string) : bool * nat :=
  (negb (String.eqb (py_lower x) "id"), String.length x).

Definition id_key_le (x y : string) : bool :=
  let '(bx, nx) := id_key x in
  let '(by_, ny) := id_key y in
  if Bool.eqb bx by_ then nx <=? ny else negb bx.

(** The values of [prop] that count: not [None], [""] or ["NULL"]. *)
Definition null_values : list pyvalue := [PNone; PStr ""; PStr "NULL"].

Definition sampled_values (prop : string) (nodes : list (gmap string pyvalue))
    : list pyvalue :=
  map (fun node => dict_get node prop)
      (List.filter (fun node => negb (py_in (dict_get node prop) null_values))
                   nodes).

Definition all_unique (prop : string) (nodes : list (gmap string pyvalue))
    : bool :=
  let values := sampled_values prop nodes in
  negb (is_nil values) && (length values =? length (py_set values)).

Definition _determine_identifier
    (unique_constraints : gmap string (list string))
    (label : string) (properties : list string)
    (nodes : list (gmap string pyvalue)) : result string :=
  match unique_constraints !! label with
  | Some (identifier :: _) => Ok identifier
  | _ =>
    match List.find (fun prop => String.eqb (py_lower prop) "id") properties with
    | Some prop => Ok prop
    | None =>
      let id_candidates :=
        List.filter (fun p => py_endswith (py_lower p) "id") properties in
      if negb (is_nil id_candidates) then
        index0 (py_sorted id_key_le id_candidates)
      else
        match List.find (fun prop => all_unique prop nodes) properties with
        | Some prop => Ok prop
        | None =>
          match properties with
          | identifier :: _ => Ok identifier
          | [] => Raise (ValueError ("No properties found for label " +:+ label))
          end
        end
    end
  end.

(** ** The database, the output directory and the exporter object *)

Abbreviation node_record := (gmap string pyvalue).

(** The rows of a CSV file, header first, as [csv.reader] yields them. *)
Abbreviation csv_file := (list (list string)).

(** [self.metadata[label]]: the declared properties with their types, and
    the element type, ['node'] or ['relationship']. *)
Record label_meta : Type := {
  meta_properties : list (string * string);
  meta_type : string
}.

(** The answers of the session to the three queries of the export:
    [MATCH (n:`label`) RETURN n], the distinct
    [(labels(s)[0], type(r), labels(t)[0])] of a relationship type, and
    [MATCH (source:`s`)-[r:`t`]->(target:`l`) RETURN source, r, target]. *)
Record graph_db : Type := {
  match_nodes : string → list node_record;
  match_patterns : string → list (string * string * string);
  match_relationships :
    string → string → string → list (node_record * node_record * node_record)
}.

(** The [Warning:] lines of the export passes. *)
Inductive event : Type :=
| SkippingNode (node : node_record)
| MissingIdentifier (source_label target_label : string).

Record exporter : Type := {
  format_version : string;
  metadata : list (string * label_meta);
  unique_constraints : gmap string (list string);
  label_identifiers : gmap string string;
  output_dir : gmap string csv_file;
  warnings : list event
}.

Definition set_label_identifiers (f : gmap string string → gmap string string)
    (st : exporter) : exporter :=
  {| format_version := format_version st;
     metadata := metadata st;
     unique_constraints := unique_constraints st;
     label_identifiers := f (label_identifiers st);
     output_dir := output_dir st;
     warnings := warnings st |}.

Definition set_output_dir (f : gmap string csv_file → gmap string csv_file)
    (st : exporter) : exporter :=
  {| format_version := format_version st;
     metadata := metadata st;
     unique_constraints := unique_constraints st;
     label_identifiers := label_identifiers st;
     output_dir := f (output_dir st);
     warnings := warnings st |}.

Definition add_warnings (evs : list event) (st : exporter) : exporter :=
  {| format_version := format_version st;
     metadata := metadata st;
     unique_constraints := unique_constraints st;
     label_identifiers := label_identifiers st;
     output_dir := output_dir st;
     warnings := warnings st ++ evs |}.

(** A method of the exporter: it reads and updates the object, and returns
    or raises. *)
Definition M (A : Type) : Type := exporter → result A * exporter.

Definition ret {A} (a : A) : M A := fun st => (Ok a, st).

Definition bind {A B} (m : M A) (k : A → M B) : M B :=
  fun st =>
    match m st with
    | (Ok a, st') => k a st'
    | (Raise e, st') => (Raise e, st')
    end.

Definition lift {A} (r : result A) : M A := fun st => (r, st).

Definition get_self : M exporter := fun st => (Ok st, st).

Definition modify (f : exporter → exporter) : M unit :=
  fun st => (Ok tt, f st).

Notation "x <- m ;; k" := (bind m (fun x => k))
  (at level 100, m at next level, right associativity).
Notation "m ;;; k" := (bind m (fun _ => k))
  (at level 100, right associativity).

(** [for x in l: acc = body(x, acc)]; a raise leaves the loop. *)
Fixpoint for_each {A S} (l : list A) (body : A → S → M S) (acc : S) : M S :=
  match l with
  | [] => ret acc
  | x :: l' => acc' <- body x acc ;; for_each l' body acc'
  end.

(** [d[k] = v] on a dict whose order is observed *)
Fixpoint dict_set {V} (k : string) (v : V) (d : list (string * V))
    : list (string * V) :=
  match d with
  | [] => [(k, v)]
  | (k', v') :: d' =>
      if String.eqb k k' then (k, v) :: d' else (k', v') :: dict_set k v d'
  end.

(** [d.get(k)] on such a dict *)
Fixpoint dict_lookup {V} (k : string) (d : list (string * V)) : option V :=
  match d with
  | [] => None
  | (k', v) :: d' => if String.eqb k k' then Some v else dict_lookup k d'
  end.

(** *** [csv.DictWriter] *)

(** What the writer puts in a field: [None] is written empty, anything else
    through [str]. *)
Definition csv_field (v : pyvalue) : string :=
  match v with
  | PNone => ""
  | _ => py_str v
  end.

(** [_dict_to_list] with [extrasaction='ignore'] *)
Definition dict_to_list (fieldnames : list string) (restval : pyvalue)
    (rowdict : node_record) : list string :=
  map (fun key => csv_field (dict_get_default rowdict key restval)) fieldnames.

(** [writeheader()] then [writerows(rows)] into a fresh file *)
Definition write_csv (filename : string) (fieldnames : list string)
    (restval : pyvalue) (rows : list node_record) : M unit :=
  modify (set_output_dir
            (insert filename
                    (fieldnames :: map (dict_to_list fieldnames restval) rows))).

(** the property names seen on a list of records *)
Definition observed_properties (records : list node_record) : gset string :=
  ⋃ (map dom records).

(** ** [export_nodes] *)

Definition has_identifier (identifier : string) (node : node_record) : bool :=
  negb (py_in (dict_get node identifier) null_values).

(** [sorted_properties]: the identifier, then the other properties sorted *)
Definition node_columns (identifier : string) (all_properties : gset string)
    : list string :=
  identifier ::
  py_sorted String.leb
    (List.filter (fun p => negb (String.eqb p identifier))
                 (elements all_properties)).

(** The body of the loop over the node labels. *)
Definition export_label (db : graph_db) (label : string)
    (exported_files : list (string * list string))
    : M (list (string * list string)) :=
  let nodes := match_nodes db label in
  let all_properties := observed_properties nodes in
  if is_nil nodes then ret exported_files
  else
    let properties_list := py_sorted String.leb (elements all_properties) in
    self <- get_self ;;
    identifier <-
      lift (_determine_identifier (unique_constraints self) label
                                  properties_list nodes) ;;
    modify (set_label_identifiers (insert label identifier)) ;;;
    let nodes_with_id := List.filter (has_identifier identifier) nodes in
    modify (add_warnings
              (map SkippingNode
                   (List.filter (fun node => negb (has_identifier identifier node))
                                nodes))) ;;;
    let sorted_properties := node_columns identifier all_properties in
    write_csv (label +:+ ".csv") sorted_properties (PStr "NULL")
              nodes_with_id ;;;
    ret (dict_set label sorted_properties exported_files).

Definition node_labels (self : exporter) : list string :=
  map fst (List.filter (fun lm => String.eqb (meta_type (snd lm)) "node")
                       (metadata self)).

Definition export_nodes (db : graph_db) : M (list (string * list string)) :=
  self <- get_self ;;
  for_each (node_labels self) (export_label db) [].

(** ** [export_relationships] *)

Record rel_info : Type := {
  ri_rel_type : string;
  ri_all_properties : list string;
  ri_rel_properties : list string;
  ri_source_label : string;
  ri_target_label : string;
  ri_source_id_prop : string;
  ri_target_id_prop : string;
  ri_source_col_name : string;
  ri_target_col_name : string
}.

(** [not x] for the result of [label_identifiers.get(label)] *)
Definition no_identifier (x : option string) : bool :=
  match x with
  | Some s => String.eqb s ""
  | None => true
  end.

(** The column names of the two endpoints (the [if] on self-relationships). *)
Definition endpoint_columns (source_label source_id_prop
                             target_label target_id_prop : string)
    : string * string :=
  if String.eqb source_label target_label
     && String.eqb source_id_prop target_id_prop
  then (source_label +:+ "_" +:+ source_id_prop +:+ "_source",
        target_label +:+ "_" +:+ target_id_prop +:+ "_target")
  else (source_label +:+ "_" +:+ source_id_prop,
        target_label +:+ "_" +:+ target_id_prop).

Definition endpoints_present (source_id_prop target_id_prop : string)
    (record : node_record * node_record * node_record) : bool :=
  let '(source, _, target) := record in
  negb (py_in (dict_get source source_id_prop) null_values
        || py_in (dict_get target target_id_prop) null_values).

(** [rel_data]: the two endpoint values, then [update(rel)]. *)
Definition rel_data (source_id_prop target_id_prop
                     source_col_name target_col_name : string)
    (record : node_record * node_record * node_record) : node_record :=
  let '(source, rel, target) := record in
  rel ∪ <[target_col_name := dict_get target target_id_prop]>
          (<[source_col_name := dict_get source source_id_prop]> ∅).

Definition relationship_properties
    (records : list (node_record * node_record * node_record)) : gset string :=
  ⋃ (map (fun record => dom (snd (fst record))) records).

(** The body of the loop over the patterns. *)
Definition export_pattern (db : graph_db)
    (pattern : string * string * string)
    (exported_files : list (string * rel_info))
    : M (list (string * rel_info)) :=
  let '(source_label, rel_type, target_label) := pattern in
  let pattern_key := source_label +:+ "_" +:+ rel_type +:+ "_" +:+ target_label in
  let result := match_relationships db source_label rel_type target_label in
  self <- get_self ;;
  let source_id := label_identifiers self !! source_label in
  let target_id := label_identifiers self !! target_label in
  if no_identifier source_id || no_identifier target_id then
    modify (add_warnings [MissingIdentifier source_label target_label]) ;;;
    ret exported_files
  else
    let source_id_prop := default "" source_id in
    let target_id_prop := default "" target_id in
    let '(source_col_name, target_col_name) :=
      endpoint_columns source_label source_id_prop
                       target_label target_id_prop in
    let kept := List.filter (endpoints_present source_id_prop target_id_prop)
                            result in
    let relationships :=
      map (rel_data source_id_prop target_id_prop
                    source_col_name target_col_name) kept in
    let rel_properties := relationship_properties kept in
    if is_nil relationships then ret exported_files
    else
      let sorted_properties :=
        [source_col_name; target_col_name]
        ++ py_sorted String.leb (elements rel_properties) in
      write_csv (source_label +:+ "_" +:+ rel_type +:+ "_" +:+ target_label
                 +:+ ".csv")
                sorted_properties (PStr "NULL") relationships ;;;
      ret (dict_set pattern_key
             {| ri_rel_type := rel_type;
                ri_all_properties := sorted_properties;
                ri_rel_properties :=
                  py_sorted String.leb (elements rel_properties);
                ri_source_label := source_label;
                ri_target_label := target_label;
                ri_source_id_prop := source_id_prop;
                ri_target_id_prop := target_id_prop;
                ri_source_col_name := source_col_name;
                ri_target_col_name := target_col_name |}
             exported_files).

Definition rel_types (self : exporter) : list string :=
  map fst (List.filter (fun lm => String.eqb (meta_type (snd lm)) "relationship")
                       (metadata self)).

Definition discover_patterns (db : graph_db) (self : exporter)
    : list (string * string * string) :=
  flat_map (match_patterns db) (rel_types self).

Definition export_relationships (db : graph_db)
    : M (list (string * rel_info)) :=
  self <- get_self ;;
  for_each (discover_patterns db self) (export_pattern db) [].

(** ** The schema documents

    The three generators are modelled on the parts of the document that
    carry a label, a column, a sample or an inferred type: the node labels
    and relationship types with their properties, and the table (file)
    schemas.  The visualisation, the key properties, the constraints and
    indexes and the mappings are left out; so are the random [uuid4]
    identifiers of the legacy format. *)

(** *** Reading a sample row: [next(csv.DictReader(f), {})] *)

(** [dict(zip(fieldnames, row))], the fields a short row lacks set to the
    [restval] [None].  The surplus of a long row goes under the key [None],
    which no column name reaches. *)
Fixpoint zip_dict (fieldnames row : list string) (d : node_record)
    : node_record :=
  match fieldnames, row with
  | key :: fieldnames', v :: row' => zip_dict fieldnames' row' (<[key := PStr v]> d)
  | key :: fieldnames', [] => zip_dict fieldnames' [] (<[key := PNone]> d)
  | [], _ => d
  end.

(** The first row that is not blank, as a dict; [{}] when there is none. *)
Definition first_row (file : csv_file) : node_record :=
  match file with
  | [] => ∅
  | fieldnames :: rows =>
      match drop_while is_nil rows with
      | [] => ∅
      | row :: _ => zip_dict fieldnames row ∅
      end
  end.

(** [sample_data] after the [try]: [{}] when the file cannot be opened. *)
Definition read_sample (self : exporter) (filename : string) : node_record :=
  match output_dir self !! filename with
  | Some file => first_row file
  | None => ∅
  end.

Record property_def : Type := {
  pd_id : string;
  pd_token : string;
  pd_type : string;
  pd_nullable : bool
}.

Record node_label_def : Type := {
  nl_id : string;
  nl_token : string;
  nl_properties : list property_def
}.

(** [rt_from] and [rt_to] are the [$ref]s of format 2.4.0; format 3.0 has no
    such keys on a relationship type. *)
Record relationship_type_def : Type := {
  rt_id : string;
  rt_token : string;
  rt_from : option string;
  rt_to : option string;
  rt_properties : list property_def
}.

Record field_def : Type := {
  fd_name : string;
  fd_sample : string;
  fd_type : string
}.

Record table_schema : Type := {
  ts_name : string;
  ts_expanded : bool;
  ts_fields : list field_def
}.

Record importer_model : Type := {
  im_version : string;
  im_nodeLabels : list node_label_def;
  im_relationshipTypes : list relationship_type_def;
  im_tableSchemas : list table_schema
}.

(** The legacy format: dicts keyed by file name and by node or relationship
    id; a property is its name and its type. *)
Record node_schema : Type := {
  ns_label : string;
  ns_properties : list (string * string)
}.

Record relationship_schema : Type := {
  rs_type : string;
  rs_sourceNodeSchema : string;
  rs_targetNodeSchema : string;
  rs_properties : list (string * string)
}.

Record legacy_model : Type := {
  lm_version : string;
  lm_fileSchemas : list (string * list field_def);
  lm_nodeSchemas : list (string * node_schema);
  lm_relationshipSchemas : list (string * relationship_schema)
}.

Inductive document : Type :=
| Model (m : importer_model)
| LegacyModel (m : legacy_model).

(** The value the three generators infer from: [sample_data.get(prop, "")]. *)
Definition sample_value (sample_data : node_record) (prop : string) : pyvalue :=
  dict_get_default sample_data prop (PStr "").

(** [{"name": ..., "sample": str(...)[:50], "recommendedType": ...}] *)
Definition field_of (sample_data : node_record) (name : string) : field_def :=
  {| fd_name := name;
     fd_sample := substring 0 50 (py_str (sample_value sample_data name));
     fd_type := _infer_type (sample_value sample_data name) |}.

(** [{"$id": ..., "token": ..., "type": ..., "nullable": ...}] *)
Definition property_of (sample_data : node_record) (prop_id prop : string)
    : property_def :=
  {| pd_id := prop_id;
     pd_token := prop;
     pd_type := _infer_type (sample_value sample_data prop);
     pd_nullable := py_in (dict_get sample_data prop) [PStr ""; PStr "NULL"; PNone] |}.

Definition pattern_filename (source_label rel_type target_label : string)
    : string :=
  source_label +:+ "_" +:+ rel_type +:+ "_" +:+ target_label +:+ ".csv".

(** [enumerate(d.items())] *)
Definition enumerate {A} (l : list A) : list (nat * A) :=
  imap (fun i x => (i, x)) l.

(** *** [_generate_model_v3_0] *)

(** The variables of the generator that outlive an iteration. *)
Record gen_v3 : Type := {
  g3_node_label_map : gmap string string;
  g3_rel_type_id_counter : nat;
  g3_rel_type_tokens : gmap string string;
  g3_sample_data : node_record;
  g3_model : importer_model
}.

Definition v3_node (self : exporter) (g : gen_v3)
    (entry : nat * (string * list string)) : gen_v3 :=
  let '(node_idx, (label, properties)) := entry in
  let node_label_id := "nl:" +:+ pretty node_idx in
  let sample_data := read_sample self (label +:+ ".csv") in
  let node_properties :=
    imap (fun prop_idx prop =>
            property_of sample_data
              ("p:" +:+ pretty node_idx +:+ "_" +:+ pretty prop_idx) prop)
         properties in
  let model := g3_model g in
  {| g3_node_label_map := <[label := node_label_id]> (g3_node_label_map g);
     g3_rel_type_id_counter := g3_rel_type_id_counter g;
     g3_rel_type_tokens := g3_rel_type_tokens g;
     g3_sample_data := sample_data;
     g3_model :=
       {| im_version := im_version model;
          im_nodeLabels :=
            im_nodeLabels model
            ++ [{| nl_id := node_label_id; nl_token := label;
                   nl_properties := node_properties |}];
          im_relationshipTypes := im_relationshipTypes model;
          im_tableSchemas :=
            im_tableSchemas model
            ++ [{| ts_name := label +:+ ".csv"; ts_expanded := false;
                   ts_fields := map (field_of sample_data) properties |}] |} |}.

Definition v3_relationship (self : exporter) (g : gen_v3)
    (entry : string * rel_info) : gen_v3 :=
  let rel_info := snd entry in
  let rel_type := ri_rel_type rel_info in
  let source_label := ri_source_label rel_info in
  let target_label := ri_target_label rel_info in
  if no_identifier (g3_node_label_map g !! source_label)
     || no_identifier (g3_node_label_map g !! target_label)
  then g
  else
    let model := g3_model g in
    let first_of_type := negb (bool_decide (is_Some (g3_rel_type_tokens g !! rel_type))) in
    let rel_type_id_counter :=
      if first_of_type then S (g3_rel_type_id_counter g)
      else g3_rel_type_id_counter g in
    let sample_data :=
      if first_of_type
      then read_sample self (pattern_filename source_label rel_type target_label)
      else g3_sample_data g in
    let rel_props :=
      imap (fun prop_idx prop =>
              property_of sample_data
                ("p:r" +:+ pretty rel_type_id_counter +:+ "_" +:+ pretty prop_idx)
                prop)
           (ri_rel_properties rel_info) in
    {| g3_node_label_map := g3_node_label_map g;
       g3_rel_type_id_counter := rel_type_id_counter;
       g3_rel_type_tokens :=
         if first_of_type
         then <[rel_type := "rt:" +:+ pretty (g3_rel_type_id_counter g)]>
                (g3_rel_type_tokens g)
         else g3_rel_type_tokens g;
       g3_sample_data := sample_data;
       g3_model :=
         {| im_version := im_version model;
            im_nodeLabels := im_nodeLabels model;
            im_relationshipTypes :=
              if first_of_type
              then im_relationshipTypes model
                   ++ [{| rt_id := "rt:" +:+ pretty (g3_rel_type_id_counter g);
                          rt_token := rel_type;
                          rt_from := None; rt_to := None;
                          rt_properties := rel_props |}]
              else im_relationshipTypes model;
            im_tableSchemas :=
              im_tableSchemas model
              ++ [{| ts_name := pattern_filename source_label rel_type target_label;
                     ts_expanded := true;
                     ts_fields :=
                       map (field_of sample_data) (ri_all_properties rel_info) |}] |} |}.

Definition _generate_model_v3_0 (self : exporter)
    (node_files : list (string * list string))
    (rel_files : list (string * rel_info)) : importer_model :=
  let start :=
    {| g3_node_label_map := ∅;
       g3_rel_type_id_counter := 0;
       g3_rel_type_tokens := ∅;
       g3_sample_data := ∅;
       g3_model := {| im_version := "3.0.0"; im_nodeLabels := [];
                      im_relationshipTypes := []; im_tableSchemas := [] |} |} in
  g3_model
    (fold_left (v3_relationship self) rel_files
       (fold_left (v3_node self) (enumerate node_files) start)).

(** *** [_generate_model_v2_4] *)

Record gen_v2 : Type := {
  g2_node_label_map : gmap string string;
  g2_property_counter : nat;
  g2_rel_id_counter : nat;
  g2_model : importer_model
}.

Definition v2_node (self : exporter) (g : gen_v2)
    (entry : nat * (string * list string)) : gen_v2 :=
  let '(idx, (label, properties)) := entry in
  let node_label_id := "nl:n" +:+ pretty idx in
  let sample_data := read_sample self (label +:+ ".csv") in
  let node_properties :=
    imap (fun k prop =>
            property_of sample_data
              ("p:" +:+ pretty (g2_property_counter g + k)) prop)
         properties in
  let model := g2_model g in
  {| g2_node_label_map := <[label := node_label_id]> (g2_node_label_map g);
     g2_property_counter := g2_property_counter g + length properties;
     g2_rel_id_counter := g2_rel_id_counter g;
     g2_model :=
       {| im_version := im_version model;
          im_nodeLabels :=
            im_nodeLabels model
            ++ [{| nl_id := node_label_id; nl_token := label;
                   nl_properties := node_properties |}];
          im_relationshipTypes := im_relationshipTypes model;
          im_tableSchemas :=
            im_tableSchemas model
            ++ [{| ts_name := label +:+ ".csv"; ts_expanded := false;
                   ts_fields := map (field_of sample_data) properties |}] |} |}.

Definition v2_relationship (self : exporter) (g : gen_v2)
    (entry : string * rel_info) : gen_v2 :=
  let rel_info := snd entry in
  let rel_type := ri_rel_type rel_info in
  let source_label := ri_source_label rel_info in
  let target_label := ri_target_label rel_info in
  let rel_type_id := "r:n" +:+ pretty (g2_rel_id_counter g) in
  let source_label_id := g2_node_label_map g !! source_label in
  let target_label_id := g2_node_label_map g !! target_label in
  if no_identifier source_label_id || no_identifier target_label_id
  then
    {| g2_node_label_map := g2_node_label_map g;
       g2_property_counter := g2_property_counter g;
       g2_rel_id_counter := S (g2_rel_id_counter g);
       g2_model := g2_model g |}
  else
    let sample_data := read_sample self (rel_type +:+ ".csv") in
    let rel_props :=
      imap (fun k prop =>
              property_of sample_data
                ("p:" +:+ pretty (g2_property_counter g + k)) prop)
           (ri_rel_properties rel_info) in
    let model := g2_model g in
    {| g2_node_label_map := g2_node_label_map g;
       g2_property_counter :=
         g2_property_counter g + length (ri_rel_properties rel_info);
       g2_rel_id_counter := S (g2_rel_id_counter g);
       g2_model :=
         {| im_version := im_version model;
            im_nodeLabels := im_nodeLabels model;
            im_relationshipTypes :=
              im_relationshipTypes model
              ++ [{| rt_id := rel_type_id;
                     rt_token := rel_type;
                     rt_from := Some ("#" +:+ default "" source_label_id);
                     rt_to := Some ("#" +:+ default "" target_label_id);
                     rt_properties := rel_props |}];
            im_tableSchemas :=
              im_tableSchemas model
              ++ [{| ts_name := pattern_filename source_label rel_type target_label;
                     ts_expanded := false;
                     ts_fields :=
                       map (field_of sample_data) (ri_all_properties rel_info) |}] |} |}.

Definition _generate_model_v2_4 (self : exporter)
    (node_files : list (string * list string))
    (rel_files : list (string * rel_info)) : importer_model :=
  let start :=
    {| g2_node_label_map := ∅;
       g2_property_counter := 1;
       g2_rel_id_counter := 0;
       g2_model := {| im_version := "2.4.0-beta.0"; im_nodeLabels := [];
                      im_relationshipTypes := []; im_tableSchemas := [] |} |} in
  g2_model
    (fold_left (v2_relationship self) rel_files
       (fold_left (v2_node self) (enumerate node_files) start)).

(** *** [_generate_model_v0_1] *)

Record gen_v0 : Type := {
  g0_node_id_map : gmap string string;
  g0_rel_id_counter : nat;
  g0_model : legacy_model
}.

Definition typed_properties (sample_data : node_record)
    (properties : list string) : list (string * string) :=
  map (fun prop => (prop, _infer_type (sample_value sample_data prop)))
      properties.

Definition v0_node (self : exporter) (g : gen_v0)
    (entry : nat * (string * list string)) : gen_v0 :=
  let '(idx, (label, properties)) := entry in
  let node_id := "n" +:+ pretty idx in
  let sample_data := read_sample self (label +:+ ".csv") in
  let model := g0_model g in
  {| g0_node_id_map := <[label := node_id]> (g0_node_id_map g);
     g0_rel_id_counter := g0_rel_id_counter g;
     g0_model :=
       {| lm_version := lm_version model;
          lm_fileSchemas :=
            dict_set (label +:+ ".csv")
                     (map (field_of sample_data) properties)
                     (lm_fileSchemas model);
          lm_nodeSchemas :=
            dict_set node_id
                     {| ns_label := label;
                        ns_properties := typed_properties sample_data properties |}
                     (lm_nodeSchemas model);
          lm_relationshipSchemas := lm_relationshipSchemas model |} |}.

Definition v0_relationship (self : exporter) (g : gen_v0)
    (entry : string * rel_info) : gen_v0 :=
  let rel_info := snd entry in
  let rel_type := ri_rel_type rel_info in
  let rel_id := "n" +:+ pretty (g0_rel_id_counter g) in
  let source_node_id := g0_node_id_map g !! ri_source_label rel_info in
  let target_node_id := g0_node_id_map g !! ri_target_label rel_info in
  if no_identifier source_node_id || no_identifier target_node_id
  then
    {| g0_node_id_map := g0_node_id_map g;
       g0_rel_id_counter := S (g0_rel_id_counter g);
       g0_model := g0_model g |}
  else
    let sample_data := read_sample self (rel_type +:+ ".csv") in
    let model := g0_model g in
    {| g0_node_id_map := g0_node_id_map g;
       g0_rel_id_counter := S (g0_rel_id_counter g);
       g0_model :=
         {| lm_version := lm_version model;
            lm_fileSchemas := lm_fileSchemas model;
            lm_nodeSchemas := lm_nodeSchemas model;
            lm_relationshipSchemas :=
              dict_set rel_id
                {| rs_type := rel_type;
                   rs_sourceNodeSchema := default "" source_node_id;
                   rs_targetNodeSchema := default "" target_node_id;
                   rs_properties :=
                     typed_properties sample_data (ri_rel_properties rel_info) |}
                (lm_relationshipSchemas model) |} |}.

Definition _generate_model_v0_1 (self : exporter)
    (node_files : list (string * list string))
    (rel_files : list (string * rel_info)) : legacy_model :=
  let start :=
    {| g0_node_id_map := ∅;
       g0_rel_id_counter := 0;
       g0_model := {| lm_version := "0.1.0-beta.0"; lm_fileSchemas := [];
                      lm_nodeSchemas := []; lm_relationshipSchemas := [] |} |} in
  g0_model
    (fold_left (v0_relationship self) rel_files
       (fold_left (v0_node self) (enumerate node_files) start)).

(** *** [generate_importer_model] *)

Definition generate_importer_model (self : exporter)
    (node_files : list (string * list string))
    (rel_files : list (string * rel_info)) : document :=
  if String.eqb (format_version self) "3.0"
  then Model (_generate_model_v3_0 self node_files rel_files)
  else if String.eqb (format_version self) "2.4.0"
  then Model (_generate_model_v2_4 self node_files rel_files)
  else LegacyModel (_generate_model_v0_1 self node_files rel_files).

(** ** [get_unique_constraints]: the loop over [SHOW CONSTRAINTS]

    The fallback for servers without [SHOW CONSTRAINTS], which parses the
    descriptions of [db.constraints()], is not modelled. *)

Record constraint_record : Type := {
  cr_type : string;
  cr_labelsOrTypes : list string;
  cr_properties : list string
}.

Definition add_unique_constraint (uc : gmap string (list string))
    (record : constraint_record) : gmap string (list string) :=
  if py_contains (cr_type record) "UNIQUENESS"
     || py_contains (cr_type record) "UNIQUE"
  then
    match cr_labelsOrTypes record, cr_properties record with
    | label :: _, _ :: _ =>
        <[label := default [] (uc !! label) ++ cr_properties record]> uc
    | _, _ => uc
    end
  else uc.

Definition get_unique_constraints (records : list constraint_record)
    (uc : gmap string (list string)) : gmap string (list string) :=
  fold_left add_unique_constraint records uc.

(** ** The export up to the document: the steps of [export_all] between the
    collection of the metadata and the writing of the document *)

Definition export_model (db : graph_db) : M document :=
  node_files <- export_nodes db ;;
  rel_files <- export_relationships db ;;
  self <- get_self ;;
  ret (generate_importer_model self node_files rel_files).

(** ** Vocabulary of the statements *)

(** The label has no usable uniqueness constraint: the test
    [label in self.unique_constraints and self.unique_constraints[label]]
    fails. *)
Definition no_constraint (uc : gmap string (list string)) (label : string)
    : Prop :=
  uc !! label = None ∨ uc !! label = Some [].

(** A [SHOW CONSTRAINTS] record that declares a uniqueness constraint of
    [label]. *)
Definition declares_uniqueness (label : string) (record : constraint_record)
    : bool :=
  (py_contains (cr_type record) "UNIQUENESS"
   || py_contains (cr_type record) "UNIQUE")
  && match cr_labelsOrTypes record with
     | l :: _ => String.eqb l label
     | [] => false
     end
  && negb (is_nil (cr_properties record)).

(** No two values of the list are [==]. *)
Definition pairwise_distinct (values : list pyvalue) : Prop :=
  ForallOrdPairs (fun x y => py_eqb x y = false) values.

(** The value is there and is none of [None], [""] and ["NULL"]. *)
Definition present (node : node_record) (prop : string) : Prop :=
  ∃ v, node !! prop = Some v ∧ v ≠ PNone ∧ v ≠ PStr "" ∧ v ≠ PStr "NULL".

(** [a] comes before [b] in the order of [sorted] on strings. *)
Definition str_lt (a b : string) : Prop := String.compare a b = Lt.

(** The name has no underscore. *)
Definition no_underscore (s : string) : Prop :=
  ¬ In "_"%char (list_ascii_of_string s).

(** What a CSV row shows of a record in a column. *)
Definition cell (record : node_record) (column : string) : string :=
  match record !! column with
  | Some v => csv_field v
  | None => "NULL"
  end.

(** The uniqueness test read without its first conjunct: the cardinality of
    the sampled values equals their count, also when there are none. *)
Definition cardinality_equals_count (prop : string) (nodes : list node_record)
    : bool :=
  let values := sampled_values prop nodes in
  length values =? length (py_set values).

(** ** Sample data of the examples *)

(** A node whose property [a] is the empty string. *)
Definition blank_node : node_record :=
  <["a" := PStr ""]> (<["b" := PStr "x"]> ∅).

(** The exporter once the metadata and the constraints are collected:
    nothing is resolved or written yet. *)
Definition collected (version : string) (metadata : list (string * label_meta))
    (uc : gmap string (list string)) : exporter :=
  {| format_version := version;
     metadata := metadata;
     unique_constraints := uc;
     label_identifiers := ∅;
     output_dir := ∅;
     warnings := [] |}.

Definition node_meta : label_meta :=
  {| meta_properties := []; meta_type := "node" |}.

Definition relationship_meta : label_meta :=
  {| meta_properties := []; meta_type := "relationship" |}.

(** A graph with one [A] node that has no property and one [B] node. *)
Definition bare_db : graph_db :=
  {| match_nodes := fun label =>
       if String.eqb label "A" then [∅]
       else if String.eqb label "B" then [<["id" := PInt 1]> ∅]
       else [];
     match_patterns := fun _ => [];
     match_relationships := fun _ _ _ => [] |}.

Definition bare_exporter : exporter :=
  collected "3.0" [("A", node_meta); ("B", node_meta)] ∅.

(** Three persons, the third with an empty [id]; the first knows the other
    two, since 2020. *)
Definition ann : node_record := <["id" := PInt 1]> (<["name" := PStr "Ann"]> ∅).
Definition bob : node_record := <["id" := PInt 2]> (<["age" := PInt 30]> ∅).
Definition ghost : node_record :=
  <["id" := PStr ""]> (<["name" := PStr "Ghost"]> ∅).
Definition since_2020 : node_record := <["since" := PInt 2020]> ∅.

Definition social_db : graph_db :=
  {| match_nodes := fun label =>
       if String.eqb label "Person" then [ann; bob; ghost] else [];
     match_patterns := fun rel_type =>
       if String.eqb rel_type "KNOWS" then [("Person", "KNOWS", "Person")]
       else [];
     match_relationships := fun source_label rel_type target_label =>
       if String.eqb source_label "Person" && String.eqb rel_type "KNOWS"
          && String.eqb target_label "Person"
       then [(ann, since_2020, bob); (ann, since_2020, ghost)]
       else [] |}.

(** [Draft] is a label of the metadata that no node carries. *)
Definition social_exporter (version : string) : exporter :=
  collected version
    [("Person", node_meta); ("Draft", node_meta); ("KNOWS", relationship_meta)]
    ∅.

(** A label [A_B] identified by [c] and a label [A] identified by [B_c],
    with one relationship [R] from the first to the second. *)
Definition clash_db : graph_db :=
  {| match_nodes := fun label =>
       if String.eqb label "A_B" then [<["c" := PInt 1]> ∅]
       else if String.eqb label "A" then [<["B_c" := PInt 2]> ∅]
       else [];
     match_patterns := fun rel_type =>
       if String.eqb rel_type "R" then [("A_B", "R", "A")] else [];
     match_relationships := fun source_label rel_type target_label =>
       if String.eqb source_label "A_B" && String.eqb rel_type "R"
          && String.eqb target_label "A"
       then [(<["c" := PInt 1]> ∅, ∅, <["B_c" := PInt 2]> ∅)]
       else [] |}.

Definition clash_exporter : exporter :=
  collected "3.0"
    [("A_B", node_meta); ("A", node_meta); ("R", relationship_meta)] ∅.

(** A person who knows a person since 2020 and a robot since long ago: one
    relationship type, two patterns. *)
Definition robot : node_record := <["id" := PStr "r2"]> ∅.
Definition long_ago : node_record := <["since" := PStr "long ago"]> ∅.

Definition mixed_db : graph_db :=
  {| match_nodes := fun label =>
       if String.eqb label "Person" then [ann; bob]
       else if String.eqb label "Robot" then [robot]
       else [];
     match_patterns := fun rel_type =>
       if String.eqb rel_type "KNOWS"
       then [("Person", "KNOWS", "Person"); ("Person", "KNOWS", "Robot")]
       else [];
     match_relationships := fun source_label rel_type target_label =>
       if String.eqb source_label "Person" && String.eqb rel_type "KNOWS"
       then
         if String.eqb target_label "Person" then [(ann, since_2020, bob)]
         else if String.eqb target_label "Robot" then [(ann, long_ago, robot)]
         else []
       else [] |}.

Definition mixed_exporter : exporter :=
  collected "3.0"
    [("Person", node_meta); ("Robot", node_meta); ("KNOWS", relationship_meta)]
    ∅.

(** The fields of the table of a file in a document of format 3.0 or
    2.4.0. *)
Definition table_fields (doc : result document) (filename : string)
    : list (list field_def) :=
  match doc with
  | Ok (Model m) =>
      map ts_fields
          (List.filter (fun t => String.eqb (ts_name t) filename)
                       (im_tableSchemas m))
  | _ => []
  end.

(** The typed properties of the relationship schemas of a legacy
    document. *)
Definition legacy_relationship_properties (doc : result document)
    : list (list (string * string)) :=
  match doc with
  | Ok (LegacyModel m) =>
      map (fun e => rs_properties (snd e)) (lm_relationshipSchemas m)
  | _ => []
  end.

(** Two uniqueness constraints of [Person], after an existence constraint. *)
Definition person_constraints : list constraint_record :=
  [ {| cr_type := "NODE_PROPERTY_EXISTENCE"; cr_labelsOrTypes := ["Person"];
       cr_properties := ["name"] |};
    {| cr_type := "UNIQUENESS"; cr_labelsOrTypes := ["Person"];
       cr_properties := ["ssn"; "country"] |};
    {| cr_type := "UNIQUENESS"; cr_labelsOrTypes := ["Person"];
       cr_properties := ["email"] |} ].

(** ** The layout of the nodes

    The three generators place node [idx] at
    [x = 300 * (idx % 3) - 300], [y = 300 * (idx // 3)] and name it
    [n:<idx>] (format 3.0), [n:n<idx>] (2.4.0) or [n<idx>] (0.1.0). *)

Definition node_position (idx : nat) : Z * Z :=
  ((300 * (Z.of_nat idx `mod` 3) - 300)%Z, (300 * (Z.of_nat idx `div` 3))%Z).

(** [model["visualisation"]["nodes"]] (in the legacy format
    [model["graph"]["nodes"]], without the caption): the id and the position
    of every exported label. *)
Definition visualisation_nodes (prefix : string)
    (node_files : list (string * list string)) : list (string * (Z * Z)) :=
  imap (fun idx _ => (prefix +:+ pretty idx, node_position idx)) node_files.

(** The label is exported in state [st] with these columns: its identifier,
    resolved under the constraints [uc], is recorded and heads the columns,
    and its file holds the header and the rows of the nodes that have the
    identifier. *)
Definition label_exported (db : graph_db) (uc : gmap string (list string))
    (st : exporter) (label : string) (columns : list string) : Prop :=
  ∃ identifier,
    _determine_identifier uc label
      (py_sorted String.leb
         (elements (observed_properties (match_nodes db label))))
      (match_nodes db label) = Ok identifier
    ∧ columns = node_columns identifier
                  (observed_properties (match_nodes db label))
    ∧ label_identifiers st !! label = Some identifier
    ∧ output_dir st !! (label +:+ ".csv")
      = Some (columns
              :: map (fun node => map (cell node) columns)
                     (List.filter (has_identifier identifier)
                                  (match_nodes db label))).

(** The label has at least one node. *)
Definition has_nodes (db : graph_db) (label : string) : bool :=
  negb (is_nil (match_nodes db label)).

(** The table that the generators of formats 3.0 and 2.4.0 derive for an
    exported label from the files of [self]. *)
Definition node_table (self : exporter) (entry : string * list string)
    : table_schema :=
  {| ts_name := fst entry +:+ ".csv";
     ts_expanded := false;
     ts_fields :=
       map (field_of (read_sample self (fst entry +:+ ".csv"))) (snd entry) |}.

(** The descriptor of a pattern agrees with the identifiers [lid] and within
    itself: both labels are resolved to the recorded properties, the two
    column names are those of the naming rule, the columns are the two
    endpoint columns followed by the relationship properties, and these are
    in increasing order. *)
Definition descriptor_consistent (lid : gmap string string) (key : string)
    (info : rel_info) : Prop :=
  key = ri_source_label info +:+ "_" +:+ ri_rel_type info +:+ "_"
        +:+ ri_target_label info
  ∧ lid !! ri_source_label info = Some (ri_source_id_prop info)
  ∧ ri_source_id_prop info ≠ ""
  ∧ lid !! ri_target_label info = Some (ri_target_id_prop info)
  ∧ ri_target_id_prop info ≠ ""
  ∧ (ri_source_col_name info, ri_target_col_name info)
    = endpoint_columns (ri_source_label info) (ri_source_id_prop info)
                       (ri_target_label info) (ri_target_id_prop info)
  ∧ ri_all_properties info
    = ri_source_col_name info :: ri_target_col_name info
      :: ri_rel_properties info
  ∧ StronglySorted str_lt (ri_rel_properties info).

(** The pattern of a descriptor has both its labels among the exported
    labels: the generators do not pass over it. *)
Definition labels_exported (node_files : list (string * list string))
    (info : rel_info) : Prop :=
  In (ri_source_label info) (map fst node_files)
  ∧ In (ri_target_label info) (map fst node_files).

(** The [$id]s of the properties of a document, those of the node labels
    first, in the order of the document. *)
Definition property_ids (m : importer_model) : list string :=
  concat (map (fun nl => map pd_id (nl_properties nl)) (im_nodeLabels m))
  ++ concat (map (fun rt => map pd_id (rt_properties rt))
                 (im_relationshipTypes m)).

(** The version field of a document. *)
Definition document_version (doc : document) : string :=
  match doc with
  | Model m => im_version m
  | LegacyModel m => lm_version m
  end.

(** ** The key properties of [_generate_model_v3_0] *)

(** [{"node": {"$ref": ...}, "keyProperties": [{"$ref": ...}]}] *)
Record node_key : Type := {
  nk_node : string;
  nk_keyProperties : list string
}.

(** The uniqueness constraint written beside a key property; its constraint
    type, entity type and relationship type are constants. *)
Record constraint_def : Type := {
  cd_id : string;
  cd_name : string;
  cd_nodeLabel : string;
  cd_properties : list string
}.

(** What the loop over the labels keeps for the keys: [property_id_map] and
    the two lists it appends to. *)
Record gen_keys : Type := {
  gk_property_id_map : gmap (string * string) string;
  gk_nodeKeyProperties : list node_key;
  gk_constraints : list constraint_def
}.

(** [property_id_map[(label, prop)] = f"p:{node_idx}_{prop_idx}"], for every
    property of the label in turn. *)
Definition register_properties (node_idx : nat) (label : string)
    (properties : list string) (property_id_map : gmap (string * string) string)
    : gmap (string * string) string :=
  fold_left (fun m entry =>
               <[(label, snd entry) :=
                   "p:" +:+ pretty node_idx +:+ "_" +:+ pretty (fst entry)]> m)
            (enumerate properties) property_id_map.

(** The two [if]s below the comment [Determine key property]. *)
Definition key_prop_id (self : exporter)
    (property_id_map : gmap (string * string) string)
    (label : string) (properties : list string) : option string :=
  let key_prop_id :=
    match unique_constraints self !! label with
    | Some (key_prop_name :: _) => property_id_map !! (label, key_prop_name)
    | _ => None
    end in
  if no_identifier key_prop_id then
    match properties with
    | prop :: _ => property_id_map !! (label, prop)
    | [] => key_prop_id
    end
  else key_prop_id.

Definition v3_node_key (self : exporter) (g : gen_keys)
    (entry : nat * (string * list string)) : result gen_keys :=
  let '(node_idx, (label, properties)) := entry in
  let property_id_map :=
    register_properties node_idx label properties (gk_property_id_map g) in
  let key_prop_id := key_prop_id self property_id_map label properties in
  if no_identifier key_prop_id then
    Ok {| gk_property_id_map := property_id_map;
          gk_nodeKeyProperties := gk_nodeKeyProperties g;
          gk_constraints := gk_constraints g |}
  else
    match index0 properties with
    | Raise e => Raise e
    | Ok first =>
      let key_ref := "#" +:+ default "" key_prop_id in
      Ok {| gk_property_id_map := property_id_map;
            gk_nodeKeyProperties :=
              gk_nodeKeyProperties g
              ++ [{| nk_node := "#n:" +:+ pretty node_idx;
                     nk_keyProperties := [key_ref] |}];
            gk_constraints :=
              gk_constraints g
              ++ [{| cd_id := "c:" +:+ pretty node_idx;
                     cd_name := first +:+ "_" +:+ label +:+ "_uniq";
                     cd_nodeLabel := "#nl:" +:+ pretty node_idx;
                     cd_properties := [key_ref] |}] |}
    end.

(** A loop whose body may raise. *)
Fixpoint fold_result {A S} (body : S → A → result S) (l : list A) (acc : S)
    : result S :=
  match l with
  | [] => Ok acc
  | x :: l' =>
    match body acc x with
    | Ok acc' => fold_result body l' acc'
    | Raise e => Raise e
    end
  end.

Definition v3_node_keys (self : exporter)
    (node_files : list (string * list string)) : result gen_keys :=
  fold_result (v3_node_key self) (enumerate node_files)
    {| gk_property_id_map := ∅; gk_nodeKeyProperties := [];
       gk_constraints := [] |}.

(** The label's key is its first column, and a uniqueness constraint on the
    label, if there is one, names that column first. *)
Definition keyed_by_first (self : exporter) (entry : string * list string)
    : Prop :=
  ∃ identifier rest,
    snd entry = identifier :: rest
    ∧ ¬ In identifier rest
    ∧ ∀ k ks, unique_constraints self !! fst entry = Some (k :: ks) →
              k = identifier.

(** The entries of the document for the label at place [idx]. *)
Definition key_of (idx : nat) : node_key :=
  {| nk_node := "#n:" +:+ pretty idx;
     nk_keyProperties := ["#p:" +:+ pretty idx +:+ "_0"] |}.

Definition constraint_of (idx : nat) (entry : string * list string)
    : constraint_def :=
  {| cd_id := "c:" +:+ pretty idx;
     cd_name := hd "" (snd entry) +:+ "_" +:+ fst entry +:+ "_uniq";
     cd_nodeLabel := "#nl:" +:+ pretty idx;
     cd_properties := ["#p:" +:+ pretty idx +:+ "_0"] |}.

(** ** [get_indexes] and [get_constraints_detailed]: the loops over
    [SHOW INDEXES] and [SHOW CONSTRAINTS]

    A record is given with the defaults of its [record.get] calls filled
    in.  The fallback of [get_indexes] for servers without [SHOW INDEXES]
    is not modelled. *)

Record show_record : Type := {
  sr_name : string;
  sr_type : string;
  sr_entityType : string;
  sr_labelsOrTypes : list string;
  sr_properties : list string
}.

(** An element of [self.indexes] or of [self.constraints]. *)
Record schema_item : Type := {
  si_name : string;
  si_type : string;
  si_entityType : string;
  si_labels : list string;
  si_properties : list string
}.

(** [if labels and properties: items.append({...})] *)
Definition append_schema_item (type_of : show_record → string)
    (items : list schema_item) (record : show_record) : list schema_item :=
  if negb (is_nil (sr_labelsOrTypes record))
     && negb (is_nil (sr_properties record))
  then items ++ [{| si_name := sr_name record;
                    si_type := type_of record;
                    si_entityType := py_lower (sr_entityType record);
                    si_labels := sr_labelsOrTypes record;
                    si_properties := sr_properties record |}]
  else items.

Definition get_indexes (records : list show_record) : list schema_item :=
  fold_left (append_schema_item sr_type) records [].

(** The chain of [if]s that maps the type of a constraint. *)
Definition constraint_kind (constraint_type : string) : string :=
  if py_contains constraint_type "UNIQUENESS"
     || py_contains constraint_type "UNIQUE"
  then "uniqueness"
  else if py_contains constraint_type "EXISTENCE"
          || py_contains constraint_type "EXISTS"
  then "existence"
  else if py_contains constraint_type "NODE_KEY"
          || py_contains constraint_type "KEY"
  then "key"
  else "uniqueness".

Definition get_constraints_detailed (records : list show_record)
    : list schema_item :=
  fold_left (append_schema_item (fun record => constraint_kind (sr_type record)))
            records [].

(** ** The indexes and constraints of [_generate_model_v2_4] *)

(** An element of [indexes] or of [constraints] in the graph schema; the
    entity type is the constant [node]. *)
Record schema_def : Type := {
  sd_id : string;
  sd_name : string;
  sd_type : string;
  sd_nodeLabel : string;
  sd_properties : list string
}.

(** [property_id_map] at the end of the loop over the labels: every property
    of every label takes the next [p:] number, from 1. *)
Definition v2_property_ids (node_files : list (string * list string))
    : gmap (string * string) string :=
  snd (fold_left
         (fun acc entry =>
            fold_left (fun acc prop =>
                         (S (fst acc),
                          <[(fst entry, prop) := "p:" +:+ pretty (fst acc)]>
                            (snd acc)))
                      (snd entry) acc)
         node_files (1, ∅)).

(** [node_label_map] at the end of the loop over the labels. *)
Definition v2_label_ids (node_files : list (string * list string))
    : gmap string string :=
  fold_left (fun m entry =>
               <[fst (snd entry) := "nl:n" +:+ pretty (fst entry)]> m)
            (enumerate node_files) ∅.

(** The references to the properties that the label is known to have. *)
Definition property_refs (property_id_map : gmap (string * string) string)
    (label : string) (properties : list string) : list string :=
  omap (fun prop_name =>
          let prop_id := property_id_map !! (label, prop_name) in
          if no_identifier prop_id then None
          else Some ("#" +:+ default "" prop_id))
       properties.

(** The body of the loop over [self.indexes], and of the loop over
    [self.constraints]: the two differ in the prefix of the ids, in the
    first number and in what they do to the type. *)
Definition v2_schema_item (prefix : string) (type_of : string → string)
    (node_label_map : gmap string string)
    (property_id_map : gmap (string * string) string)
    (acc : nat * list schema_def) (info : schema_item)
    : result (nat * list schema_def) :=
  if String.eqb (si_entityType info) "node" then
    match index0 (si_labels info) with
    | Raise e => Raise e
    | Ok label =>
      let label_id := node_label_map !! label in
      if no_identifier label_id then Ok acc
      else
        let properties :=
          property_refs property_id_map label (si_properties info) in
        if is_nil properties then Ok acc
        else
          Ok (S (fst acc),
              snd acc
              ++ [{| sd_id := prefix +:+ pretty (fst acc);
                     sd_name := si_name info;
                     sd_type := type_of (si_type info);
                     sd_nodeLabel := "#" +:+ default "" label_id;
                     sd_properties := properties |}])
    end
  else Ok acc.

(** [index_info["type"] if index_info["type"] != "RANGE" else "default"] *)
Definition index_type (type : string) : string :=
  if String.eqb type "RANGE" then "default" else type.

Definition v2_indexes (indexes : list schema_item)
    (node_files : list (string * list string)) : result (list schema_def) :=
  match fold_result (v2_schema_item "i:" index_type
                       (v2_label_ids node_files) (v2_property_ids node_files))
                    indexes (1, []) with
  | Ok acc => Ok (snd acc)
  | Raise e => Raise e
  end.

Definition v2_constraints (constraints : list schema_item)
    (node_files : list (string * list string)) : result (list schema_def) :=
  match fold_result (v2_schema_item "c:" (fun type => type)
                       (v2_label_ids node_files) (v2_property_ids node_files))
                    constraints (0, []) with
  | Ok acc => Ok (snd acc)
  | Raise e => Raise e
  end.

(** The definition [d] was written for [record]: it has the record's name,
    refers to the record's first label, which is an exported one, and to
    those of the record's properties that the label is known to have, at
    least one. *)
Definition written_for (node_files : list (string * list string))
    (type : string) (record : show_record) (d : schema_def) : Prop :=
  py_lower (sr_entityType record) = "node"
  ∧ sd_name d = sr_name record
  ∧ sd_type d = type
  ∧ ∃ label idx columns,
      hd_error (sr_labelsOrTypes record) = Some label
      ∧ node_files !! idx = Some (label, columns)
      ∧ sd_nodeLabel d = "#nl:n" +:+ pretty idx
      ∧ sd_properties d
        = property_refs (v2_property_ids node_files) label
                        (sr_properties record)
      ∧ sd_properties d ≠ [].

(** The same, seen from the element of [self.indexes] or [self.constraints]
    and from the two maps of the generator. *)
Definition item_written (type_of : string → string)
    (node_label_map : gmap string string)
    (property_id_map : gmap (string * string) string)
    (info : schema_item) (d : schema_def) : Prop :=
  si_entityType info = "node"
  ∧ sd_name d = si_name info
  ∧ sd_type d = type_of (si_type info)
  ∧ ∃ label label_id,
      hd_error (si_labels info) = Some label
      ∧ node_label_map !! label = Some label_id
      ∧ label_id ≠ ""
      ∧ sd_nodeLabel d = "#" +:+ label_id
      ∧ sd_properties d
        = property_refs property_id_map label (si_properties info)
      ∧ sd_properties d ≠ [].

(** The element that a record of [SHOW INDEXES] or [SHOW CONSTRAINTS] is
    collected as. *)
Definition schema_item_of (type_of : show_record → string)
    (record : show_record) : schema_item :=
  {| si_name := sr_name record;
     si_type := type_of record;
     si_entityType := py_lower (sr_entityType record);
     si_labels := sr_labelsOrTypes record;
     si_properties := sr_properties record |}.

(** The id [id] is, in [nodeLabels], the id of the property [p] of the node
    label [label]. *)
Definition property_resolves (nodeLabels : list node_label_def)
    (label p id : string) : Prop :=
  ∃ nl pd, In nl nodeLabels ∧ nl_token nl = label
           ∧ In pd (nl_properties nl) ∧ pd_id pd = id ∧ pd_token pd = p.

(** The sample of the examples on indexes and constraints. *)
Definition person_files : list (string * list string) :=
  [("Person", ["id"; "name"])].

Definition name_index : show_record :=
  {| sr_name := "person_name"; sr_type := "RANGE"; sr_entityType := "NODE";
     sr_labelsOrTypes := ["Person"]; sr_properties := ["name"] |}.

(** * Properties *)

(** ** Type inference *)

Lemma infer_type_str (s : string) :
  _infer_type (PStr s) =
    if String.eqb s "" || String.eqb s "NULL" then "string"
    else if int_parses s then "integer"
    else if float_parses s then "float"
    else if String.eqb (py_lower s) "true" || String.eqb (py_lower s) "false"
         then "boolean"
    else "string".
Proof.
  unfold _infer_type; simpl.
  rewrite negb_involutive.
  reflexivity.
Qed.

(** C9: an empty value or the NULL sentinel is a string; otherwise the
    integer parse is tried, then the float parse, then the case-insensitive
    match of true and false, and the rest is a string; a value that parses
    as an integer is never reported as a float. *)
Theorem infer_type_order (s : string) :
  (s = "" ∨ s = "NULL" → _infer_type (PStr s) = "string")
  ∧ (s ≠ "" → s ≠ "NULL" →
       (int_parses s = true → _infer_type (PStr s) = "integer")
       ∧ (int_parses s = false → float_parses s = true →
            _infer_type (PStr s) = "float")
       ∧ (int_parses s = false → float_parses s = false →
            (py_lower s = "true" ∨ py_lower s = "false") →
            _infer_type (PStr s) = "boolean")
       ∧ (int_parses s = false → float_parses s = false →
            py_lower s ≠ "true" → py_lower s ≠ "false" →
            _infer_type (PStr s) = "string"))
  ∧ (int_parses s = true → _infer_type (PStr s) ≠ "float")
  ∧ _infer_type (PStr "42") = "integer"
  ∧ _infer_type (PStr "3.14") = "float"
  ∧ _infer_type (PStr "true") = "boolean"
  ∧ _infer_type (PStr "FALSE") = "boolean"
  ∧ _infer_type (PStr "") = "string"
  ∧ _infer_type (PStr "NULL") = "string"
  ∧ _infer_type (PStr "abc") = "string".
Proof.
  rewrite infer_type_str.
  split; [| split; [| split]].
  - intros [-> | ->]; reflexivity.
  - intros Hne Hnull.
    apply String.eqb_neq in Hne, Hnull. rewrite Hne, Hnull. simpl.
    repeat split.
    + intros ->. reflexivity.
    + intros -> ->. reflexivity.
    + intros -> -> [-> | ->]; reflexivity.
    + intros -> -> Ht Hf.
      apply String.eqb_neq in Ht, Hf. rewrite Ht, Hf. reflexivity.
  - intros Hint. rewrite Hint.
    destruct (String.eqb s "" || String.eqb s "NULL"); discriminate.
  - repeat split; vm_compute; reflexivity.
Qed.

(** The parsers agree with CPython on the literals they were checked
    against. *)
Example int_parses_accepts :
  forallb int_parses
    ["42"; " 42 "; "+42"; "-42"; "1_000"; "007"; "0_0"; "-0"; "1_0 "; "-1_0"]
  = true.
Proof. reflexivity. Qed.

Example int_parses_rejects :
  existsb int_parses
    ["_1"; "1_"; "1__0"; "0x10"; ""; "+"; " "; "4 2"; "1.0"; "1e5"; "+-1";
     "+ 1"; "-_1"; "inf"; "true"]
  = false.
Proof. reflexivity. Qed.

Example float_parses_accepts :
  forallb float_parses
    ["3.14"; "1."; ".5"; "1e5"; "1e+5"; "1E-5"; "inf"; "INF"; "-Infinity";
     "nan"; "+NaN"; "nan "; " nan"; "1_0.5"; "1.5_0"; "1e1_0"; "1e999";
     "+.5e-3"; "1.e5"; "1_0e5"; "1e-5_0 "]
  = true.
Proof. reflexivity. Qed.

Example float_parses_rejects :
  existsb float_parses
    ["."; "1e"; "1e+"; "infinit"; "infin"; "1_.5"; "1._5"; "1e_1"; "1_e1";
     "0x1p3"; "--1"; "e5"; ".e5"; "1.5f"; "Inf inity"; "1,5"; "infinity_";
     "1 e5"; "+-inf"; "nan1"; "TRUE"; "1..2"; "1ee5"; "1e5.0"; "_"; "5_."]
  = false.
Proof. reflexivity. Qed.

Lemma infer_type_order_witness :
  int_parses "42" = true ∧ _infer_type (PStr "42") ≠ "float".
Proof.
  split; [reflexivity |].
  apply (infer_type_order "42").
  reflexivity.
Defined.

(** ** Identifier resolution *)

Section Resolution.

Variable uc : gmap string (list string).
Variable label : string.
Variable nodes : list node_record.

(** Without a constraint the resolution goes through the heuristics. *)
Lemma determine_identifier_no_constraint (properties : list string) :
  no_constraint uc label →
  _determine_identifier uc label properties nodes =
    match List.find (fun prop => String.eqb (py_lower prop) "id") properties with
    | Some prop => Ok prop
    | None =>
      let id_candidates :=
        List.filter (fun p => py_endswith (py_lower p) "id") properties in
      if negb (is_nil id_candidates) then
        index0 (py_sorted id_key_le id_candidates)
      else
        match List.find (fun prop => all_unique prop nodes) properties with
        | Some prop => Ok prop
        | None =>
          match properties with
          | identifier :: _ => Ok identifier
          | [] => Raise (ValueError ("No properties found for label " +:+ label))
          end
        end
    end.
Proof.
  intros [H | H]; unfold _determine_identifier; rewrite H; reflexivity.
Qed.

Lemma determine_identifier_constraint (properties : list string) p ps :
  uc !! label = Some (p :: ps) →
  _determine_identifier uc label properties nodes = Ok p.
Proof.
  intros H. unfold _determine_identifier. rewrite H. reflexivity.
Qed.

End Resolution.

(** [find] on a list split at its first hit. *)
Lemma find_first {A} (f : A → bool) (pre : list A) (x : A) (post : list A) :
  f x = true →
  (∀ y, In y pre → f y = false) →
  List.find f (pre ++ x :: post) = Some x.
Proof.
  intros Hx. induction pre as [| y pre IH]; intros Hpre; simpl.
  - rewrite Hx. reflexivity.
  - rewrite (Hpre y) by (left; reflexivity).
    apply IH. intros z Hz. apply Hpre. right. exact Hz.
Qed.

Lemma find_none_all {A} (f : A → bool) (l : list A) :
  (∀ y, In y l → f y = false) → List.find f l = None.
Proof.
  induction l as [| y l IH]; intros H; simpl; [reflexivity |].
  rewrite (H y) by (left; reflexivity).
  apply IH. intros z Hz. apply H. right. exact Hz.
Qed.

Lemma filter_none_all {A} (f : A → bool) (l : list A) :
  (∀ y, In y l → f y = false) → List.filter f l = [].
Proof.
  induction l as [| y l IH]; intros H; simpl; [reflexivity |].
  rewrite (H y) by (left; reflexivity).
  apply IH. intros z Hz. apply H. right. exact Hz.
Qed.

(** A filtered list split at an element comes from a split of the list. *)
Lemma filter_split {A} (f : A → bool) (l cpre : list A) (x : A) (cpost : list A) :
  List.filter f l = cpre ++ x :: cpost →
  ∃ pre post, l = pre ++ x :: post
              ∧ List.filter f pre = cpre ∧ List.filter f post = cpost.
Proof.
  revert cpre. induction l as [| y l IH]; intros cpre H; simpl in H.
  - destruct cpre; discriminate.
  - destruct (f y) eqn:Hy.
    + destruct cpre as [| c cpre]; simpl in H.
      * inversion H; subst. exists [], l. simpl. auto.
      * inversion H as [[Hc Hrest]]. subst c.
        destruct (IH _ Hrest) as (pre & post & -> & Hpre & Hpost).
        exists (y :: pre), post. simpl. rewrite Hy, Hpre. auto.
    + destruct (IH _ H) as (pre & post & -> & Hpre & Hpost).
      exists (y :: pre), post. simpl. rewrite Hy. auto.
Qed.

(** *** The accumulated constraints *)

Lemma add_unique_constraint_lookup uc record label :
  default [] (add_unique_constraint uc record !! label) =
    default [] (uc !! label)
    ++ (if declares_uniqueness label record then cr_properties record else []).
Proof.
  unfold add_unique_constraint, declares_uniqueness.
  destruct (py_contains (cr_type record) "UNIQUENESS"
            || py_contains (cr_type record) "UNIQUE"); simpl;
    [| by rewrite app_nil_r].
  destruct (cr_labelsOrTypes record) as [| l ls]; simpl;
    [by rewrite app_nil_r |].
  destruct (cr_properties record) as [| q qs] eqn:Hq; simpl.
  { rewrite andb_false_r. by rewrite app_nil_r. }
  rewrite andb_true_r.
  destruct (String.eqb_spec l label) as [-> | Hne].
  - rewrite lookup_insert_eq. reflexivity.
  - rewrite lookup_insert_ne by exact Hne. by rewrite app_nil_r.
Qed.

Lemma get_unique_constraints_lookup records uc label :
  default [] (get_unique_constraints records uc !! label) =
    default [] (uc !! label)
    ++ concat (map cr_properties
                   (List.filter (declares_uniqueness label) records)).
Proof.
  unfold get_unique_constraints.
  revert uc. induction records as [| r records IH]; intros uc; simpl.
  - by rewrite app_nil_r.
  - rewrite IH, add_unique_constraint_lookup.
    destruct (declares_uniqueness label r); simpl.
    + by rewrite <- app_assoc.
    + by rewrite app_nil_r.
Qed.

Lemma find_filter_head {A} (f : A → bool) (l : list A) (x : A) :
  List.find f l = Some x → ∃ rest, List.filter f l = x :: rest.
Proof.
  induction l as [| y l IH]; simpl; [discriminate |].
  destruct (f y) eqn:Hy.
  - intros [= ->]. eauto.
  - exact IH.
Qed.

(** C1: a label with a declared uniqueness constraint resolves to the first
    property of its first constraint, whatever the properties and the
    records are: the id heuristics, the uniqueness of values and the order
    of the properties play no part. *)
Theorem constraint_property_wins
    (label : string) (properties : list string) (nodes : list node_record) :
  (∀ uc p ps,
     uc !! label = Some (p :: ps) →
     _determine_identifier uc label properties nodes = Ok p)
  ∧ (∀ records record p ps,
       List.find (declares_uniqueness label) records = Some record →
       cr_properties record = p :: ps →
       _determine_identifier (get_unique_constraints records ∅)
                             label properties nodes = Ok p).
Proof.
  split.
  - intros uc p ps H. by apply determine_identifier_constraint with ps.
  - intros records record p ps Hfind Hprops.
    destruct (find_filter_head _ _ _ Hfind) as [rest Hrest].
    pose proof (get_unique_constraints_lookup records ∅ label) as H.
    rewrite Hrest, lookup_empty in H. simpl in H. rewrite Hprops in H.
    simpl in H.
    destruct (get_unique_constraints records ∅ !! label) as [[| q qs] |] eqn:E;
      simpl in H; try discriminate.
    injection H as -> _.
    eapply determine_identifier_constraint. exact E.
Qed.

Lemma constraint_property_wins_witness :
  _determine_identifier (get_unique_constraints person_constraints ∅)
                        "Person" ["email"; "id"; "name"; "ssn"] [ann; bob]
  = Ok "ssn".
Proof.
  apply (proj2 (constraint_property_wins "Person" ["email"; "id"; "name"; "ssn"]
                                         [ann; bob])
           person_constraints
           {| cr_type := "UNIQUENESS"; cr_labelsOrTypes := ["Person"];
              cr_properties := ["ssn"; "country"] |}
           "ssn" ["country"]).
  - reflexivity.
  - reflexivity.
Defined.

(** *** [sorted] *)

Section Sorted.

Context {A : Type} (le : A → A → bool).
Hypothesis le_total : ∀ x y, le x y = true ∨ le y x = true.
Hypothesis le_trans : ∀ x y z, le x y = true → le y z = true → le x z = true.

Lemma py_insert_perm (x : A) (l : list A) :
  Permutation (py_insert le x l) (x :: l).
Proof.
  induction l as [| y l IH]; simpl.
  - reflexivity.
  - destruct (le x y).
    + reflexivity.
    + rewrite IH. apply perm_swap.
Qed.

Lemma py_sorted_perm (l : list A) : Permutation (py_sorted le l) l.
Proof.
  induction l as [| x l IH]; simpl.
  - reflexivity.
  - rewrite py_insert_perm. by constructor.
Qed.

Lemma py_sorted_in (l : list A) (x : A) : In x (py_sorted le l) ↔ In x l.
Proof.
  split; apply Permutation_in;
    [apply py_sorted_perm | symmetry; apply py_sorted_perm].
Qed.

Lemma py_sorted_nil (l : list A) : py_sorted le l = [] → l = [].
Proof.
  intros H. apply Permutation_nil. rewrite <- H. apply py_sorted_perm.
Qed.

(** The head of the sorted list is the first least element of the input. *)
Lemma py_sorted_head (l : list A) (x : A) (rest : list A) :
  py_sorted le l = x :: rest →
  ∃ pre post, l = pre ++ x :: post
              ∧ (∀ y, In y l → le x y = true)
              ∧ (∀ y, In y pre → le y x = false).
Proof.
  revert x rest. induction l as [| a l IH]; intros x rest H; simpl in H.
  - discriminate.
  - destruct (py_sorted le l) as [| y r] eqn:E.
    + apply py_sorted_nil in E. subst l. simpl in H.
      injection H as <- _. exists [], []. repeat split.
      * intros y [<- | []]. by destruct (le_total a a).
      * intros y [].
    + destruct (IH y r eq_refl) as (pre & post & Hl & Hmin & Hpre).
      simpl in H. destruct (le a y) eqn:Hay.
      * injection H as <- _. exists [], l. repeat split.
        -- intros z [<- | Hz].
           ++ by destruct (le_total a a).
           ++ apply le_trans with y; [exact Hay | by apply Hmin].
        -- intros z [].
      * injection H as <- _. exists (a :: pre), post. repeat split.
        -- by rewrite Hl.
        -- intros z [<- | Hz].
           ++ destruct (le_total a y) as [H1 | H1]; [congruence | exact H1].
           ++ by apply Hmin.
        -- intros z [<- | Hz]; [exact Hay | by apply Hpre].
Qed.

Lemma py_insert_sorted (x : A) (l : list A) :
  StronglySorted (fun a b => le a b = true) l →
  StronglySorted (fun a b => le a b = true) (py_insert le x l).
Proof.
  induction 1 as [| y l Hs IH Hy]; simpl.
  - repeat constructor.
  - destruct (le x y) eqn:Hxy.
    + constructor; [by constructor |].
      constructor; [exact Hxy |].
      eapply Forall_impl; [exact Hy |]. intros z Hz. by apply le_trans with y.
    + constructor; [exact IH |].
      apply List.Forall_forall. intros z Hz.
      apply (Permutation_in _ (py_insert_perm x l)) in Hz.
      destruct Hz as [<- | Hz].
      * destruct (le_total x y) as [H1 | H1]; [congruence | exact H1].
      * rewrite List.Forall_forall in Hy. by apply Hy.
Qed.

Lemma py_sorted_sorted (l : list A) :
  StronglySorted (fun a b => le a b = true) (py_sorted le l).
Proof.
  induction l as [| x l IH]; simpl.
  - constructor.
  - by apply py_insert_sorted.
Qed.

End Sorted.

(** *** The order of the id-like candidates *)

Lemma id_key_le_total (x y : string) :
  id_key_le x y = true ∨ id_key_le y x = true.
Proof.
  unfold id_key_le, id_key.
  destruct (negb (String.eqb (py_lower x) "id")),
           (negb (String.eqb (py_lower y) "id")); simpl; auto.
  - destruct (Nat.leb_spec (String.length x) (String.length y)); [by left |].
    right. apply Nat.leb_le. lia.
  - destruct (Nat.leb_spec (String.length x) (String.length y)); [by left |].
    right. apply Nat.leb_le. lia.
Qed.

Lemma id_key_le_trans (x y z : string) :
  id_key_le x y = true → id_key_le y z = true → id_key_le x z = true.
Proof.
  unfold id_key_le, id_key.
  destruct (negb (String.eqb (py_lower x) "id")),
           (negb (String.eqb (py_lower y) "id")),
           (negb (String.eqb (py_lower z) "id")); simpl;
    rewrite ?Nat.leb_le; try congruence; try lia.
Qed.

(** Among names that are not [id] the key is the length. *)
Lemma id_key_le_length (x y : string) :
  py_lower x ≠ "id" → py_lower y ≠ "id" →
  id_key_le x y = (String.length x <=? String.length y).
Proof.
  intros Hx Hy. unfold id_key_le, id_key.
  apply String.eqb_neq in Hx, Hy. rewrite Hx, Hy. reflexivity.
Qed.

(** C5: without a constraint, the first property whose name is [id] in any
    case is returned; when there is none, the property returned is, among
    those whose lowercase name ends in [id], a shortest one, and the first
    of the shortest in the order of the properties.  (The exact match that
    the sort key prefers cannot occur at that point.) *)
Theorem id_named_property_wins
    (uc : gmap string (list string)) (label : string)
    (properties : list string) (nodes : list node_record) :
  no_constraint uc label →
  (∀ pre p post,
     properties = pre ++ p :: post →
     py_lower p = "id" →
     (∀ q, In q pre → py_lower q ≠ "id") →
     _determine_identifier uc label properties nodes = Ok p)
  ∧ ((∀ q, In q properties → py_lower q ≠ "id") →
     (∃ q, In q properties ∧ py_endswith (py_lower q) "id" = true) →
     ∃ pre p post,
       properties = pre ++ p :: post
       ∧ _determine_identifier uc label properties nodes = Ok p
       ∧ py_endswith (py_lower p) "id" = true
       ∧ (∀ q, In q properties → py_endswith (py_lower q) "id" = true →
            id_key_le p q = true ∧ String.length p ≤ String.length q)
       ∧ (∀ q, In q pre → py_endswith (py_lower q) "id" = true →
            String.length p < String.length q)).
Proof.
  intros Hno. split.
  - intros pre p post -> Hp Hpre.
    rewrite determine_identifier_no_constraint by exact Hno.
    rewrite find_first; [reflexivity | |].
    + rewrite Hp. reflexivity.
    + intros q Hq. apply String.eqb_neq. by apply Hpre.
  - intros Hnoid (q0 & Hq0 & Hend0).
    rewrite determine_identifier_no_constraint by exact Hno.
    rewrite find_none_all
      by (intros q Hq; apply String.eqb_neq; by apply Hnoid).
    cbv zeta.
    set (cands := List.filter (fun p => py_endswith (py_lower p) "id") properties).
    assert (Hin0 : In q0 cands) by (apply filter_In; auto).
    destruct (py_sorted id_key_le cands) as [| p rest] eqn:Hs.
    { apply py_sorted_nil in Hs. rewrite Hs in Hin0. destruct Hin0. }
    destruct (py_sorted_head id_key_le id_key_le_total id_key_le_trans _ _ _ Hs)
      as (cpre & cpost & Hc & Hmin & Hcpre).
    destruct (filter_split _ _ _ _ _ Hc) as (pre & post & Hl & Hpre & Hpost).
    assert (Hpc : In p cands) by (rewrite Hc; apply in_elt).
    apply filter_In in Hpc. destruct Hpc as [Hpin Hpend].
    exists pre, p, post. split; [exact Hl |]. split; [| split; [exact Hpend |]].
    + destruct cands; [destruct Hin0 | reflexivity].
    + split.
      * intros q Hq Hend.
        assert (Hle : id_key_le p q = true) by (apply Hmin, filter_In; auto).
        split; [exact Hle |].
        rewrite id_key_le_length in Hle by (by apply Hnoid).
        by apply Nat.leb_le.
      * intros q Hq Hend.
        assert (Hqc : In q cpre) by (rewrite <- Hpre; apply filter_In; auto).
        assert (Hqin : In q properties)
          by (rewrite Hl; apply in_or_app; by left).
        specialize (Hcpre q Hqc).
        rewrite id_key_le_length in Hcpre by (by apply Hnoid).
        apply Nat.leb_gt in Hcpre. exact Hcpre.
Qed.

Lemma id_named_property_wins_witness :
  no_constraint ∅ "Person"
  ∧ _determine_identifier ∅ "Person" ["name"; "userId"; "id"] [] = Ok "id".
Proof.
  assert (H : no_constraint ∅ "Person") by (left; reflexivity).
  split; [exact H |].
  apply (proj1 (id_named_property_wins ∅ "Person" ["name"; "userId"; "id"] [] H)
               ["name"; "userId"] "id" []).
  - reflexivity.
  - reflexivity.
  - intros q [<- | [<- | []]]; vm_compute; discriminate.
Defined.

(** *** Values that are all different *)

Lemma filter_full {A} (f : A → bool) (l : list A) :
  length (List.filter f l) = length l →
  List.filter f l = l ∧ Forall (fun x => f x = true) l.
Proof.
  induction l as [| x l IH]; simpl; intros H.
  - split; constructor.
  - destruct (f x) eqn:Hx; simpl in H.
    + injection H as H. destruct (IH H) as [-> Hall]. split; [reflexivity |].
      by constructor.
    + pose proof (List.filter_length_le f l). lia.
Qed.

Lemma filter_all {A} (f : A → bool) (l : list A) :
  Forall (fun x => f x = true) l → List.filter f l = l.
Proof.
  induction 1 as [| x l Hx _ IH]; simpl; [reflexivity |].
  rewrite Hx, IH. reflexivity.
Qed.

Lemma py_set_length_le (l : list pyvalue) : length (py_set l) ≤ length l.
Proof.
  induction l as [| x l IH]; simpl; [lia |].
  pose proof (List.filter_length_le (fun y => negb (py_eqb x y)) (py_set l)). lia.
Qed.

Lemma py_set_full (l : list pyvalue) :
  length (py_set l) = length l → pairwise_distinct l ∧ py_set l = l.
Proof.
  induction l as [| x l IH]; simpl; intros H.
  - split; constructor.
  - injection H as H.
    pose proof (List.filter_length_le (fun y => negb (py_eqb x y)) (py_set l)).
    pose proof (py_set_length_le l).
    destruct IH as [Hd Hs]; [lia |].
    rewrite Hs in H |- *.
    destruct (filter_full _ _ H) as [-> Hall].
    split; [| reflexivity].
    constructor; [| exact Hd].
    eapply Forall_impl; [exact Hall |].
    intros y Hy. by apply negb_true_iff.
Qed.

Lemma py_set_distinct (l : list pyvalue) : pairwise_distinct l → py_set l = l.
Proof.
  induction 1 as [| x l Hx _ IH]; simpl; [reflexivity |].
  rewrite IH, filter_all; [reflexivity |].
  eapply Forall_impl; [exact Hx |].
  intros y Hy. by apply negb_true_iff.
Qed.

(** [len(values) == len(set(values))] says that no two values are equal. *)
Lemma py_set_length (l : list pyvalue) :
  (length l =? length (py_set l)) = true ↔ pairwise_distinct l.
Proof.
  rewrite Nat.eqb_eq. split.
  - intros H. by apply py_set_full.
  - intros H. by rewrite py_set_distinct.
Qed.

Lemma all_unique_spec (prop : string) (nodes : list node_record) :
  all_unique prop nodes = true ↔
  sampled_values prop nodes ≠ [] ∧ pairwise_distinct (sampled_values prop nodes).
Proof.
  unfold all_unique. cbv zeta. rewrite andb_true_iff, py_set_length.
  destruct (sampled_values prop nodes); simpl; intuition congruence.
Qed.

Lemma lower_id_endswith (q : string) :
  py_lower q = "id" → py_endswith (py_lower q) "id" = true.
Proof. intros ->. reflexivity. Qed.

(** C6 as stated fails: with properties [a] and [b] and one node whose [a] is
    empty, [a] has no sampled value, so cardinality and count are both zero,
    yet the resolution passes over [a] and returns [b]. *)
Lemma unique_valued_needs_a_value :
  no_constraint ∅ "L"
  ∧ (∀ q, In q ["a"; "b"] → py_endswith (py_lower q) "id" = false)
  ∧ sampled_values "a" [blank_node] = []
  ∧ List.find (fun p => cardinality_equals_count p [blank_node]) ["a"; "b"]
    = Some "a"
  ∧ _determine_identifier ∅ "L" ["a"; "b"] [blank_node] = Ok "b"
  ∧ _determine_identifier ∅ "L" ["a"; "b"] [blank_node] ≠ Ok "a".
Proof.
  split; [left; reflexivity |].
  split; [intros q [<- | [<- | []]]; reflexivity |].
  repeat split; try (vm_compute; reflexivity).
  vm_compute. discriminate.
Qed.

(** C6, amended: without a constraint and without a property whose lowercase
    name ends in [id], the resolution returns the first property, in the
    order of the properties, that has at least one sampled value (not
    [None], empty or NULL) and whose sampled values are all different. *)
Theorem first_unique_valued_property
    (uc : gmap string (list string)) (label : string)
    (properties : list string) (nodes : list node_record)
    (pre : list string) (p : string) (post : list string) :
  no_constraint uc label →
  (∀ q, In q properties → py_endswith (py_lower q) "id" = false) →
  properties = pre ++ p :: post →
  sampled_values p nodes ≠ [] →
  pairwise_distinct (sampled_values p nodes) →
  (∀ q, In q pre →
        sampled_values q nodes = []
        ∨ ¬ pairwise_distinct (sampled_values q nodes)) →
  _determine_identifier uc label properties nodes = Ok p.
Proof.
  intros Hno Hnoid Hl Hne Hd Hpre.
  rewrite determine_identifier_no_constraint by exact Hno.
  rewrite find_none_all.
  2: { intros q Hq. apply String.eqb_neq. intros Hid.
       apply lower_id_endswith in Hid. rewrite Hnoid in Hid; congruence. }
  cbv zeta. rewrite filter_none_all by exact Hnoid. simpl.
  rewrite Hl, find_first; [reflexivity | |].
  - apply all_unique_spec. by split.
  - intros q Hq. apply not_true_is_false. rewrite all_unique_spec.
    intros [H1 H2]. destruct (Hpre q Hq); contradiction.
Qed.

Lemma first_unique_valued_property_witness :
  _determine_identifier ∅ "L" ["a"; "b"] [blank_node] = Ok "b".
Proof.
  apply (first_unique_valued_property ∅ "L" ["a"; "b"] [blank_node]
           ["a"] "b" []).
  - left; reflexivity.
  - intros q [<- | [<- | []]]; reflexivity.
  - reflexivity.
  - vm_compute; discriminate.
  - vm_compute. repeat constructor.
  - intros q [<- | []]. left. vm_compute. reflexivity.
Defined.

(** *** When the resolution raises *)

Lemma determine_identifier_total
    (uc : gmap string (list string)) (label : string)
    (properties : list string) (nodes : list node_record) :
  properties ≠ [] →
  ∃ p, _determine_identifier uc label properties nodes = Ok p.
Proof.
  intros Hne. unfold _determine_identifier.
  destruct (uc !! label) as [[| c cs] |]; [| by eauto |];
    (destruct (List.find _ properties); [by eauto |];
     destruct (List.filter _ properties) as [| c0 cands] eqn:Hc; simpl;
     [ destruct (List.find _ properties); [by eauto |];
       destruct properties; [congruence | by eauto]
     | destruct (py_insert id_key_le c0 (py_sorted id_key_le cands)) eqn:Hs;
       [ apply (py_sorted_nil id_key_le (c0 :: cands)) in Hs; discriminate
       | by eauto ] ]).
Qed.

Lemma determine_identifier_raises
    (uc : gmap string (list string)) (label : string)
    (properties : list string) (nodes : list node_record) (e : exn) :
  _determine_identifier uc label properties nodes = Raise e ↔
  properties = [] ∧ no_constraint uc label
  ∧ e = ValueError ("No properties found for label " +:+ label).
Proof.
  split.
  - intros H. destruct properties as [| p ps].
    + unfold _determine_identifier in H. unfold no_constraint.
      destruct (uc !! label) as [[| c cs] |]; simpl in H;
        try discriminate; injection H as <-; auto.
    + destruct (determine_identifier_total uc label (p :: ps) nodes) as [q Hq];
        congruence.
  - intros (-> & Hno & ->).
    rewrite determine_identifier_no_constraint by exact Hno. reflexivity.
Qed.

(** *** The loop over the labels *)

Lemma for_each_app {A S} (l1 l2 : list A) (body : A → S → M S) (acc : S)
    (st : exporter) :
  for_each (l1 ++ l2) body acc st =
    match for_each l1 body acc st with
    | (Ok acc', st') => for_each l2 body acc' st'
    | (Raise e, st') => (Raise e, st')
    end.
Proof.
  revert acc st. induction l1 as [| x l1 IH]; intros acc st; simpl.
  - reflexivity.
  - unfold bind. destruct (body x acc st) as [[acc' | e] st'].
    + apply IH.
    + reflexivity.
Qed.

(** The state in which [export_label] leaves the exporter when the label is
    exported with [identifier]. *)
Lemma export_label_eq (db : graph_db) (label : string)
    (files : list (string * list string)) (st : exporter) :
  export_label db label files st =
    let nodes := match_nodes db label in
    let all_properties := observed_properties nodes in
    if is_nil nodes then (Ok files, st)
    else
      match _determine_identifier (unique_constraints st) label
              (py_sorted String.leb (elements all_properties)) nodes with
      | Ok identifier =>
          (Ok (dict_set label (node_columns identifier all_properties) files),
           set_output_dir
             (insert (label +:+ ".csv")
                (node_columns identifier all_properties
                 :: map (dict_to_list (node_columns identifier all_properties)
                                      (PStr "NULL"))
                        (List.filter (has_identifier identifier) nodes)))
             (add_warnings
                (map SkippingNode
                     (List.filter
                        (fun node => negb (has_identifier identifier node))
                        nodes))
                (set_label_identifiers (insert label identifier) st)))
      | Raise e => (Raise e, st)
      end.
Proof.
  unfold export_label. cbv zeta.
  destruct (is_nil (match_nodes db label)); [reflexivity |].
  unfold bind, get_self, lift.
  destruct (_determine_identifier _ _ _ _); reflexivity.
Qed.

Lemma export_label_constraints (db : graph_db) (label : string)
    (files : list (string * list string)) (st : exporter) :
  unique_constraints (snd (export_label db label files st))
  = unique_constraints st.
Proof.
  rewrite export_label_eq. cbv zeta.
  destruct (is_nil _); [reflexivity |].
  destruct (_determine_identifier _ _ _ _); reflexivity.
Qed.

Lemma for_each_labels_constraints (db : graph_db) (labels : list string)
    (files : list (string * list string)) (st : exporter) :
  unique_constraints (snd (for_each labels (export_label db) files st))
  = unique_constraints st.
Proof.
  revert files st. induction labels as [| l labels IH]; intros files st; simpl.
  - reflexivity.
  - unfold bind.
    pose proof (export_label_constraints db l files st) as H.
    destruct (export_label db l files st) as [[acc | e] st']; simpl in H.
    + rewrite IH. exact H.
    + exact H.
Qed.

(** C7 as stated fails twice.  A label whose nodes have no property at all
    still resolves when a uniqueness constraint is declared for it; and a
    label that does not resolve stops the whole node export: the exception
    leaves [export_nodes], and the label [B] that comes after [A] is never
    exported. *)
Lemma resolution_failure_aborts_export :
  _determine_identifier {["A" := ["uid"]]} "A" [] [∅] = Ok "uid"
  ∧ match_nodes bare_db "B" ≠ []
  ∧ fst (export_nodes bare_db bare_exporter)
    = Raise (ValueError "No properties found for label A")
  ∧ output_dir (snd (export_nodes bare_db bare_exporter)) !! "B.csv" = None
  ∧ label_identifiers (snd (export_nodes bare_db bare_exporter)) !! "B" = None.
Proof.
  split; [reflexivity |].
  split; [vm_compute; discriminate |].
  repeat split; vm_compute; reflexivity.
Qed.

(** C7, amended: the resolution raises exactly when the label has no
    property and no uniqueness constraint, and the exception is the
    [ValueError] of the last line; with at least one property it always
    returns a property, the first one when no heuristic applies.  The
    exception is not caught by the node export: [export_nodes] raises it in
    the state the labels before have left, so the label has no file and no
    identifier and the labels after it are not reached. *)
Theorem resolution_failure (db : graph_db) (self : exporter) :
  (∀ label properties nodes e,
     _determine_identifier (unique_constraints self) label properties nodes
     = Raise e
     ↔ properties = [] ∧ no_constraint (unique_constraints self) label
       ∧ e = ValueError ("No properties found for label " +:+ label))
  ∧ (∀ label properties nodes,
       properties ≠ [] →
       ∃ p, _determine_identifier (unique_constraints self) label
                                  properties nodes = Ok p)
  ∧ (∀ label p properties nodes,
       no_constraint (unique_constraints self) label →
       (∀ q, In q (p :: properties) → py_endswith (py_lower q) "id" = false) →
       (∀ q, In q (p :: properties) → all_unique q nodes = false) →
       _determine_identifier (unique_constraints self) label
                             (p :: properties) nodes = Ok p)
  ∧ (∀ pre label post acc st1,
       node_labels self = pre ++ label :: post →
       for_each pre (export_label db) [] self = (Ok acc, st1) →
       match_nodes db label ≠ [] →
       observed_properties (match_nodes db label) = ∅ →
       no_constraint (unique_constraints self) label →
       export_nodes db self
       = (Raise (ValueError ("No properties found for label " +:+ label)), st1)).
Proof.
  split; [| split; [| split]].
  - intros. apply determine_identifier_raises.
  - intros. by apply determine_identifier_total.
  - intros label p properties nodes Hno Hnoid Huniq.
    rewrite determine_identifier_no_constraint by exact Hno.
    rewrite find_none_all.
    2: { intros q Hq. apply String.eqb_neq. intros Hid.
         apply lower_id_endswith in Hid. rewrite Hnoid in Hid; congruence. }
    cbv zeta. rewrite filter_none_all by exact Hnoid. simpl negb. cbv iota.
    rewrite find_none_all by exact Huniq. reflexivity.
  - intros pre label post acc st1 Hlabels Hpre Hnodes Hprops Hno.
    unfold export_nodes, bind, get_self. rewrite Hlabels, for_each_app, Hpre.
    simpl. unfold bind. rewrite export_label_eq. cbv zeta.
    destruct (match_nodes db label) as [| n ns] eqn:En; [congruence |].
    simpl is_nil. cbv iota.
    rewrite Hprops, elements_empty. simpl py_sorted.
    assert (Huc : unique_constraints st1 = unique_constraints self).
    { pose proof (for_each_labels_constraints db pre [] self) as H.
      rewrite Hpre in H. exact H. }
    rewrite Huc.
    rewrite (proj2 (determine_identifier_raises _ label [] (n :: ns) _)
                   (conj eq_refl (conj Hno eq_refl))).
    reflexivity.
Qed.

Lemma resolution_failure_witness :
  export_nodes bare_db bare_exporter
  = (Raise (ValueError "No properties found for label A"), bare_exporter).
Proof.
  apply (proj2 (proj2 (proj2 (resolution_failure bare_db bare_exporter)))
           [] "A" ["B"] [] bare_exporter).
  - reflexivity.
  - reflexivity.
  - vm_compute; discriminate.
  - reflexivity.
  - left; reflexivity.
Defined.

(** *** The order of strings *)

Lemma ascii_compare_refl (a : ascii) : Ascii.compare a a = Eq.
Proof. unfold Ascii.compare. apply N.compare_refl. Qed.

Lemma string_compare_refl (s : string) : String.compare s s = Eq.
Proof.
  induction s as [| a s IH]; simpl; [reflexivity |].
  by rewrite ascii_compare_refl.
Qed.

Lemma string_compare_lt_trans (a b c : string) :
  String.compare a b = Lt → String.compare b c = Lt → String.compare a c = Lt.
Proof.
  revert b c. induction a as [| x a IH]; intros [| y b] [| z c]; simpl;
    try congruence.
  destruct (Ascii.compare x y) eqn:Hxy; try discriminate;
    destruct (Ascii.compare y z) eqn:Hyz; try discriminate; intros H1 H2.
  - apply Ascii.compare_eq_iff in Hxy, Hyz. subst.
    rewrite ascii_compare_refl. by apply IH with b.
  - apply Ascii.compare_eq_iff in Hxy. subst. by rewrite Hyz.
  - apply Ascii.compare_eq_iff in Hyz. subst. by rewrite Hxy.
  - unfold Ascii.compare in *.
    rewrite N.compare_lt_iff in Hxy, Hyz.
    assert (H : (N_of_ascii x ?= N_of_ascii z)%N = Lt)
      by (apply N.compare_lt_iff; lia).
    by rewrite H.
Qed.

Lemma string_leb_lt_eq (a b : string) :
  String.leb a b = true ↔ str_lt a b ∨ a = b.
Proof.
  unfold String.leb, str_lt. split.
  - destruct (String.compare a b) eqn:H; try discriminate; auto.
    right. by apply String.compare_eq_iff.
  - intros [-> | ->]; [reflexivity |]. by rewrite string_compare_refl.
Qed.

Lemma string_leb_trans (a b c : string) :
  String.leb a b = true → String.leb b c = true → String.leb a c = true.
Proof.
  rewrite !string_leb_lt_eq.
  intros [H1 | ->] [H2 | ->]; auto.
  left. by apply string_compare_lt_trans with b.
Qed.

(** Sorting names that are all different puts them in strictly increasing
    order. *)
Lemma sorted_names_increasing (l : list string) :
  NoDup l → StronglySorted str_lt (py_sorted String.leb l).
Proof.
  intros Hnd.
  assert (Hnd' : NoDup (py_sorted String.leb l)).
  { by rewrite py_sorted_perm. }
  pose proof (py_sorted_sorted String.leb String.leb_total string_leb_trans l)
    as Hs.
  induction Hs as [| x r Hr IH Hx]; [constructor |].
  apply NoDup_cons in Hnd'. destruct Hnd' as [Hnotin Hnd'].
  constructor; [by apply IH |].
  apply List.Forall_forall. intros y Hy.
  rewrite List.Forall_forall in Hx.
  destruct (proj1 (string_leb_lt_eq x y) (Hx y Hy)) as [Hlt | ->];
    [exact Hlt |].
  exfalso. apply Hnotin. by apply list_elem_of_In.
Qed.

(** ** Flattening *)

Lemma not_null_value (v : pyvalue) :
  py_in v null_values = false ↔ v ≠ PNone ∧ v ≠ PStr "" ∧ v ≠ PStr "NULL".
Proof.
  unfold py_in, null_values. simpl.
  destruct v as [| s | n | b]; simpl.
  - split; [discriminate | intros (H & _); congruence].
  - rewrite orb_false_r, orb_false_iff, !String.eqb_neq.
    split; [intros [H1 H2] | intros (_ & H1 & H2)]; repeat split; congruence.
  - split; [intros _; repeat split; discriminate | reflexivity].
  - split; [intros _; repeat split; discriminate | reflexivity].
Qed.

Lemma has_identifier_present (identifier : string) (node : node_record) :
  has_identifier identifier node = true ↔ present node identifier.
Proof.
  unfold has_identifier, present, dict_get.
  rewrite negb_true_iff, not_null_value.
  destruct (node !! identifier) as [v |]; simpl.
  - split; [intros H; exists v; tauto | intros (w & [= <-] & H); exact H].
  - split; [intros (H & _); congruence | intros (w & H & _); discriminate].
Qed.

Lemma endpoints_present_spec (source_id_prop target_id_prop : string)
    (source rel target : node_record) :
  endpoints_present source_id_prop target_id_prop (source, rel, target) = true
  ↔ present source source_id_prop ∧ present target target_id_prop.
Proof.
  unfold endpoints_present.
  rewrite negb_true_iff, orb_false_iff.
  rewrite <- !has_identifier_present. unfold has_identifier.
  rewrite !negb_true_iff. reflexivity.
Qed.

Lemma dict_to_list_cell (fieldnames : list string) (rowdict : node_record) :
  dict_to_list fieldnames (PStr "NULL") rowdict = map (cell rowdict) fieldnames.
Proof.
  unfold dict_to_list. apply map_ext. intros key.
  unfold cell, dict_get_default. by destruct (rowdict !! key).
Qed.

(** The pattern is passed over, with the warning, when an endpoint label has
    no identifier. *)
Lemma export_pattern_skipped (db : graph_db)
    (source_label rel_type target_label : string)
    (files : list (string * rel_info)) (st : exporter) :
  no_identifier (label_identifiers st !! source_label) = true
  ∨ no_identifier (label_identifiers st !! target_label) = true →
  export_pattern db (source_label, rel_type, target_label) files st
  = (Ok files, add_warnings [MissingIdentifier source_label target_label] st).
Proof.
  intros H. unfold export_pattern, bind, get_self.
  assert (E : no_identifier (label_identifiers st !! source_label)
              || no_identifier (label_identifiers st !! target_label) = true)
    by (apply orb_true_iff; exact H).
  rewrite E. reflexivity.
Qed.

(** What [export_pattern] does when both endpoint labels are resolved. *)
Lemma export_pattern_resolved (db : graph_db)
    (source_label rel_type target_label : string)
    (files : list (string * rel_info)) (st : exporter)
    (source_id_prop target_id_prop : string) :
  label_identifiers st !! source_label = Some source_id_prop →
  source_id_prop ≠ "" →
  label_identifiers st !! target_label = Some target_id_prop →
  target_id_prop ≠ "" →
  export_pattern db (source_label, rel_type, target_label) files st =
    let columns := endpoint_columns source_label source_id_prop
                                    target_label target_id_prop in
    let kept := List.filter (endpoints_present source_id_prop target_id_prop)
                  (match_relationships db source_label rel_type target_label) in
    let rel_properties :=
      py_sorted String.leb (elements (relationship_properties kept)) in
    let header := [fst columns; snd columns] ++ rel_properties in
    if is_nil kept then (Ok files, st)
    else
      (Ok (dict_set
             (source_label +:+ "_" +:+ rel_type +:+ "_" +:+ target_label)
             {| ri_rel_type := rel_type;
                ri_all_properties := header;
                ri_rel_properties := rel_properties;
                ri_source_label := source_label;
                ri_target_label := target_label;
                ri_source_id_prop := source_id_prop;
                ri_target_id_prop := target_id_prop;
                ri_source_col_name := fst columns;
                ri_target_col_name := snd columns |}
             files),
       set_output_dir
         (insert (pattern_filename source_label rel_type target_label)
            (header
             :: map (dict_to_list header (PStr "NULL"))
                    (map (rel_data source_id_prop target_id_prop
                                   (fst columns) (snd columns)) kept)))
         st).
Proof.
  intros Hs Hsne Ht Htne.
  unfold export_pattern, bind, get_self. rewrite Hs, Ht. simpl.
  apply String.eqb_neq in Hsne, Htne. rewrite Hsne, Htne. simpl.
  destruct (endpoint_columns source_label source_id_prop
                             target_label target_id_prop) as [c1 c2].
  simpl.
  destruct (List.filter _ _) as [| r kept]; reflexivity.
Qed.

(** C3: the rows of a label's file are those of its nodes whose identifier
    value is there and is none of None, the empty string and NULL, in the
    order of the nodes; the rows of a pattern's file are those of its
    relationships for which this holds of the source value and of the target
    value, and when there is no such relationship no file is written. *)
Theorem rows_with_identifiers (db : graph_db) :
  (∀ label files self identifier,
     match_nodes db label ≠ [] →
     _determine_identifier (unique_constraints self) label
       (py_sorted String.leb
          (elements (observed_properties (match_nodes db label))))
       (match_nodes db label) = Ok identifier →
     ∃ columns,
       output_dir (snd (export_label db label files self)) !! (label +:+ ".csv")
       = Some (columns
               :: map (fun node => map (cell node) columns)
                      (List.filter (has_identifier identifier)
                                   (match_nodes db label))))
  ∧ (∀ identifier node,
       has_identifier identifier node = true ↔ present node identifier)
  ∧ (∀ source_label rel_type target_label files self
       source_id_prop target_id_prop,
       label_identifiers self !! source_label = Some source_id_prop →
       source_id_prop ≠ "" →
       label_identifiers self !! target_label = Some target_id_prop →
       target_id_prop ≠ "" →
       let kept :=
         List.filter (endpoints_present source_id_prop target_id_prop)
           (match_relationships db source_label rel_type target_label) in
       let after :=
         snd (export_pattern db (source_label, rel_type, target_label)
                             files self) in
       (kept = [] → after = self)
       ∧ (kept ≠ [] →
          ∃ columns source_col_name target_col_name,
            output_dir after
              !! (source_label +:+ "_" +:+ rel_type +:+ "_" +:+ target_label
                  +:+ ".csv")
            = Some (columns
                    :: map (fun record =>
                              map (cell (rel_data source_id_prop target_id_prop
                                           source_col_name target_col_name
                                           record))
                                  columns)
                           kept)))
  ∧ (∀ source_id_prop target_id_prop source rel target,
       endpoints_present source_id_prop target_id_prop (source, rel, target)
       = true
       ↔ present source source_id_prop ∧ present target target_id_prop).
Proof.
  split; [| split; [| split]].
  - intros label files self identifier Hnodes Hid.
    rewrite export_label_eq. cbv zeta.
    destruct (match_nodes db label) as [| n ns] eqn:En; [congruence |].
    simpl is_nil. cbv iota. rewrite Hid. simpl.
    eexists. rewrite lookup_insert_eq. f_equal. f_equal.
    apply map_ext. intros node. apply dict_to_list_cell.
  - apply has_identifier_present.
  - intros sl rt tl files self sp tp Hs Hsne Ht Htne kept after.
    subst after.
    rewrite (export_pattern_resolved db sl rt tl files self sp tp Hs Hsne Ht Htne).
    cbv zeta. fold kept. clearbody kept. split.
    + intros ->. reflexivity.
    + intros Hne.
      assert (Hnil : is_nil kept = false) by (destruct kept; [congruence | reflexivity]).
      rewrite Hnil. cbn [snd].
      eexists _, _, _. unfold pattern_filename, set_output_dir.
      cbn [output_dir].
      rewrite lookup_insert_eq. f_equal. f_equal.
      rewrite map_map. apply map_ext. intros record. apply dict_to_list_cell.
  - intros. apply endpoints_present_spec.
Qed.

Lemma rows_with_identifiers_witness :
  ∃ columns,
    output_dir (snd (export_label social_db "Person" [] (social_exporter "3.0")))
      !! "Person.csv"
    = Some (columns
            :: map (fun node => map (cell node) columns)
                   (List.filter (has_identifier "id") [ann; bob; ghost])).
Proof.
  apply (proj1 (rows_with_identifiers social_db)
           "Person" [] (social_exporter "3.0") "id").
  - vm_compute; discriminate.
  - vm_compute; reflexivity.
Defined.

(** *** The columns of a node file *)

Lemma elem_of_observed (p : string) (nodes : list node_record) :
  p ∈ observed_properties nodes ↔
  ∃ node, In node nodes ∧ is_Some (node !! p).
Proof.
  unfold observed_properties. rewrite elem_of_union_list. split.
  - intros (X & HX & Hp).
    apply list_elem_of_In, in_map_iff in HX. destruct HX as (node & <- & Hin).
    exists node. split; [exact Hin |]. by apply elem_of_dom.
  - intros (node & Hin & Hp).
    exists (dom node). split; [| by apply elem_of_dom].
    apply list_elem_of_In, in_map_iff. eauto.
Qed.

Lemma NoDup_list_filter {A} (f : A → bool) (l : list A) :
  NoDup l → NoDup (List.filter f l).
Proof.
  induction 1 as [| x l Hx Hl IH]; simpl; [constructor |].
  destruct (f x); [| exact IH].
  constructor; [| exact IH].
  rewrite list_elem_of_In, filter_In. intros [Hin _].
  by apply Hx, list_elem_of_In.
Qed.

Lemma node_columns_spec (identifier : string) (all_properties : gset string) :
  ∃ rest,
    node_columns identifier all_properties = identifier :: rest
    ∧ StronglySorted str_lt rest
    ∧ (∀ p, In p rest ↔ p ≠ identifier ∧ p ∈ all_properties).
Proof.
  unfold node_columns. eexists. split; [reflexivity |]. split.
  - apply sorted_names_increasing, NoDup_list_filter, NoDup_elements.
  - intros p. rewrite py_sorted_in, filter_In, negb_true_iff, String.eqb_neq.
    rewrite <- list_elem_of_In, elem_of_elements. tauto.
Qed.

(** C8: the columns of an exported label are the resolved identifier, then
    the other properties seen on the label's nodes in increasing order of
    their names; a row shows, for every column, the value of the node or,
    when the node lacks the property, the NULL sentinel, so that every row is
    as long as the column list. *)
Theorem node_file_columns (db : graph_db) (label : string)
    (files : list (string * list string)) (self : exporter)
    (identifier : string) :
  match_nodes db label ≠ [] →
  _determine_identifier (unique_constraints self) label
    (py_sorted String.leb
       (elements (observed_properties (match_nodes db label))))
    (match_nodes db label) = Ok identifier →
  ∃ rest rows,
    fst (export_label db label files self)
    = Ok (dict_set label (identifier :: rest) files)
    ∧ output_dir (snd (export_label db label files self)) !! (label +:+ ".csv")
      = Some ((identifier :: rest) :: rows)
    ∧ StronglySorted str_lt rest
    ∧ (∀ p, In p rest ↔
            p ≠ identifier
            ∧ ∃ node, In node (match_nodes db label) ∧ is_Some (node !! p))
    ∧ rows = map (fun node => map (cell node) (identifier :: rest))
                 (List.filter (has_identifier identifier)
                              (match_nodes db label))
    ∧ (∀ node column, node !! column = None → cell node column = "NULL")
    ∧ (∀ row, In row rows → length row = length (identifier :: rest)).
Proof.
  intros Hnodes Hid.
  destruct (node_columns_spec identifier
              (observed_properties (match_nodes db label)))
    as (rest & Hcols & Hsorted & Hmem).
  exists rest. eexists.
  rewrite export_label_eq. cbv zeta.
  assert (Hnil : is_nil (match_nodes db label) = false)
    by (destruct (match_nodes db label); [congruence | reflexivity]).
  rewrite Hnil, Hid, Hcols. cbn [fst snd]. unfold set_output_dir.
  cbn [output_dir]. rewrite lookup_insert_eq.
  split; [reflexivity |]. split; [reflexivity |]. split; [exact Hsorted |].
  split; [| split; [| split]].
  - intros p. rewrite Hmem, elem_of_observed. reflexivity.
  - apply map_ext. intros node. apply dict_to_list_cell.
  - intros node column H. unfold cell. by rewrite H.
  - intros row Hrow. apply in_map_iff in Hrow.
    destruct Hrow as (node & <- & _).
    unfold dict_to_list. by rewrite length_map.
Qed.

Lemma node_file_columns_witness :
  ∃ rest rows,
    fst (export_label social_db "Person" [] (social_exporter "3.0"))
    = Ok [("Person", "id" :: rest)]
    ∧ output_dir (snd (export_label social_db "Person" []
                                    (social_exporter "3.0"))) !! "Person.csv"
      = Some (("id" :: rest) :: rows)
    ∧ rest = ["age"; "name"]
    ∧ rows = [["1"; "NULL"; "Ann"]; ["2"; "30"; "NULL"]].
Proof.
  destruct (node_file_columns social_db "Person" [] (social_exporter "3.0") "id")
    as (rest & rows & H1 & H2 & _).
  - vm_compute; discriminate.
  - vm_compute; reflexivity.
  - exists rest, rows. split; [exact H1 |]. split; [exact H2 |].
    vm_compute in H1. injection H1 as <-.
    vm_compute in H2. injection H2 as <-.
    split; reflexivity.
Defined.

(** *** The names of the endpoint columns *)

Lemma append_cancel_l (a x y : string) : a +:+ x = a +:+ y → x = y.
Proof.
  induction a as [| c a IH]; simpl; [auto |].
  intros [= H]. by apply IH.
Qed.

(** Two names joined by an underscore are told apart when the first parts
    have no underscore. *)
Lemma split_at_underscore (a b x y : string) :
  no_underscore a → no_underscore b →
  a +:+ "_" +:+ x = b +:+ "_" +:+ y → a = b ∧ x = y.
Proof.
  unfold no_underscore.
  change (¬ In "_"%char (list_ascii_of_string a) →
          ¬ In "_"%char (list_ascii_of_string b) →
          a +:+ String "_" x = b +:+ String "_" y → a = b ∧ x = y).
  revert b. induction a as [| c a IH]; intros [| d b] Ha Hb; simpl in *.
  - intros [= ->]. auto.
  - intros [= <- _]. exfalso. apply Hb. by left.
  - intros [= -> _]. exfalso. apply Ha. by left.
  - intros [= -> H]. destruct (IH b) as [-> ->]; auto.
Qed.

Lemma endpoint_columns_equal_labels (label source_id_prop target_id_prop : string) :
  fst (endpoint_columns label source_id_prop label target_id_prop)
  ≠ snd (endpoint_columns label source_id_prop label target_id_prop).
Proof.
  unfold endpoint_columns. rewrite String.eqb_refl. simpl.
  destruct (String.eqb_spec source_id_prop target_id_prop) as [-> | Hne]; simpl.
  - intros H. do 3 apply append_cancel_l in H. discriminate.
  - intros H. do 2 apply append_cancel_l in H. contradiction.
Qed.

Lemma endpoint_columns_plain_labels
    (source_label source_id_prop target_label target_id_prop : string) :
  no_underscore source_label → no_underscore target_label →
  fst (endpoint_columns source_label source_id_prop target_label target_id_prop)
  ≠ snd (endpoint_columns source_label source_id_prop
                          target_label target_id_prop).
Proof.
  intros Hs Ht H.
  destruct (String.eqb_spec source_label target_label) as [-> | Hne].
  - by apply endpoint_columns_equal_labels in H.
  - unfold endpoint_columns in H.
    apply String.eqb_neq in Hne. rewrite Hne in H. simpl in H.
    apply split_at_underscore in H; [| assumption ..].
    apply String.eqb_neq in Hne. tauto.
Qed.

Example endpoint_columns_self_relationship :
  endpoint_columns "Person" "id" "Person" "id"
  = ("Person_id_source", "Person_id_target").
Proof. reflexivity. Qed.

Example endpoint_columns_two_labels :
  endpoint_columns "Person" "id" "Account" "id" = ("Person_id", "Account_id").
Proof. reflexivity. Qed.

(** C2 as stated fails in its last sentence: a label [A_B] identified by [c]
    and a label [A] identified by [B_c] are different labels, so no suffix
    is added, and both columns of the pattern are named [A_B_c]. *)
Lemma endpoint_columns_clash :
  endpoint_columns "A_B" "c" "A" "B_c" = ("A_B_c", "A_B_c")
  ∧ ∃ info st,
      (export_nodes clash_db ;;; export_relationships clash_db) clash_exporter
      = (Ok [("A_B_R_A", info)], st)
      ∧ label_identifiers st !! "A_B" = Some "c"
      ∧ label_identifiers st !! "A" = Some "B_c"
      ∧ ri_source_label info = "A_B"
      ∧ ri_target_label info = "A"
      ∧ ri_source_col_name info = "A_B_c"
      ∧ ri_target_col_name info = "A_B_c"
      ∧ output_dir st !! "A_B_R_A.csv" = Some [["A_B_c"; "A_B_c"]; ["2"; "2"]].
Proof.
  split; [reflexivity |].
  eexists _, _. split; [vm_compute; reflexivity |].
  repeat split; vm_compute; reflexivity.
Qed.

(** C2, amended: for a pattern whose two labels are resolved and that has a
    relationship to write, the first two columns of the file, also recorded
    for the document, are [<label>_<prop>_source] and
    [<label>_<prop>_target] when the labels are equal and resolve to the
    same property, and [<label>_<prop>] of each side otherwise.  The two
    names differ whenever the labels are equal and whenever neither label
    contains an underscore. *)
Theorem endpoint_column_names (db : graph_db)
    (source_label rel_type target_label : string)
    (files : list (string * rel_info)) (self : exporter)
    (source_id_prop target_id_prop : string) :
  label_identifiers self !! source_label = Some source_id_prop →
  source_id_prop ≠ "" →
  label_identifiers self !! target_label = Some target_id_prop →
  target_id_prop ≠ "" →
  List.filter (endpoints_present source_id_prop target_id_prop)
    (match_relationships db source_label rel_type target_label) ≠ [] →
  ∃ source_col_name target_col_name rel_properties rows info,
    fst (export_pattern db (source_label, rel_type, target_label) files self)
    = Ok (dict_set (source_label +:+ "_" +:+ rel_type +:+ "_" +:+ target_label)
                   info files)
    ∧ ri_source_col_name info = source_col_name
    ∧ ri_target_col_name info = target_col_name
    ∧ output_dir
        (snd (export_pattern db (source_label, rel_type, target_label)
                             files self))
        !! (source_label +:+ "_" +:+ rel_type +:+ "_" +:+ target_label +:+ ".csv")
      = Some ((source_col_name :: target_col_name :: rel_properties) :: rows)
    ∧ (source_label = target_label ∧ source_id_prop = target_id_prop →
       source_col_name = source_label +:+ "_" +:+ source_id_prop +:+ "_source"
       ∧ target_col_name = target_label +:+ "_" +:+ target_id_prop +:+ "_target")
    ∧ (¬ (source_label = target_label ∧ source_id_prop = target_id_prop) →
       source_col_name = source_label +:+ "_" +:+ source_id_prop
       ∧ target_col_name = target_label +:+ "_" +:+ target_id_prop)
    ∧ (source_label = target_label → source_col_name ≠ target_col_name)
    ∧ (no_underscore source_label → no_underscore target_label →
       source_col_name ≠ target_col_name).
Proof.
  intros Hs Hsne Ht Htne Hkept.
  rewrite (export_pattern_resolved db source_label rel_type target_label
             files self _ _ Hs Hsne Ht Htne).
  cbv zeta.
  assert (Hnil : is_nil (List.filter
                           (endpoints_present source_id_prop target_id_prop)
                           (match_relationships db source_label rel_type
                                                target_label)) = false)
    by (destruct (List.filter _ _); [congruence | reflexivity]).
  rewrite Hnil. cbn [fst snd]. unfold set_output_dir, pattern_filename.
  cbn [output_dir]. rewrite lookup_insert_eq.
  eexists _, _, _, _, _. split; [reflexivity |].
  cbn [ri_source_col_name ri_target_col_name].
  split; [reflexivity |]. split; [reflexivity |]. split; [reflexivity |].
  split; [| split; [| split]].
  - intros [-> ->]. unfold endpoint_columns. rewrite !String.eqb_refl.
    simpl. auto.
  - intros Hne. unfold endpoint_columns.
    destruct (String.eqb_spec source_label target_label) as [E1 | E1];
      destruct (String.eqb_spec source_id_prop target_id_prop) as [E2 | E2];
      simpl; auto.
    tauto.
  - intros ->. apply endpoint_columns_equal_labels.
  - apply endpoint_columns_plain_labels.
Qed.

Lemma endpoint_column_names_witness :
  ∃ rel_properties rows,
    output_dir
      (snd (export_pattern social_db ("Person", "KNOWS", "Person") []
              (snd (export_nodes social_db (social_exporter "3.0")))))
      !! "Person_KNOWS_Person.csv"
    = Some (("Person_id_source" :: "Person_id_target" :: rel_properties) :: rows).
Proof.
  destruct (endpoint_column_names social_db "Person" "KNOWS" "Person" []
              (snd (export_nodes social_db (social_exporter "3.0"))) "id" "id")
    as (c1 & c2 & props & rows & info & _ & _ & _ & H & Hsame & _).
  - vm_compute; reflexivity.
  - discriminate.
  - vm_compute; reflexivity.
  - discriminate.
  - vm_compute; discriminate.
  - destruct (Hsame (conj eq_refl eq_refl)) as [-> ->].
    exists props, rows. exact H.
Defined.

(** ** A label without nodes *)

Lemma string_length_append (a b : string) :
  String.length (a +:+ b) = String.length a + String.length b.
Proof. induction a as [| c a IH]; simpl; [reflexivity | by rewrite IH]. Qed.

Lemma append_cancel_r (a b s : string) : a +:+ s = b +:+ s → a = b.
Proof.
  revert b. induction a as [| c a IH]; intros [| d b] H.
  - reflexivity.
  - apply (f_equal String.length) in H.
    rewrite !string_length_append in H. simpl in H. lia.
  - apply (f_equal String.length) in H.
    rewrite !string_length_append in H. simpl in H. lia.
  - simpl in H. injection H as -> H. f_equal. by apply IH.
Qed.

Lemma dict_lookup_set_ne {V} (k k' : string) (v : V) (d : list (string * V)) :
  k ≠ k' → dict_lookup k' (dict_set k v d) = dict_lookup k' d.
Proof.
  intros Hne. induction d as [| [k0 v0] d IH]; simpl.
  - apply not_eq_sym, String.eqb_neq in Hne. by rewrite Hne.
  - destruct (String.eqb_spec k k0) as [<- | Hk]; simpl.
    + apply not_eq_sym, String.eqb_neq in Hne. by rewrite Hne.
    + by rewrite IH.
Qed.

Lemma dict_set_in {V} (k : string) (v : V) (d : list (string * V))
    (e : string * V) :
  In e (dict_set k v d) → e = (k, v) ∨ In e d.
Proof.
  induction d as [| [k0 v0] d IH]; simpl.
  - intros [<- | []]. by left.
  - destruct (String.eqb k k0); simpl.
    + intros [<- | H]; auto.
    + intros [<- | H]; auto. destruct (IH H); auto.
Qed.

Lemma dict_lookup_none_keys {V} (k : string) (d : list (string * V)) :
  dict_lookup k d = None → ¬ In k (map fst d).
Proof.
  induction d as [| [k0 v0] d IH]; simpl; [tauto |].
  destruct (String.eqb_spec k k0) as [-> | Hne]; [discriminate |].
  intros H [Hk | Hin]; [congruence | by apply IH].
Qed.

(** A label without nodes is passed over: nothing is resolved, written or
    recorded. *)
Lemma export_label_no_nodes (db : graph_db) (label : string)
    (files : list (string * list string)) (st : exporter) :
  match_nodes db label = [] →
  export_label db label files st = (Ok files, st).
Proof. intros H. rewrite export_label_eq. cbv zeta. by rewrite H. Qed.

(** The export of any label leaves alone what belongs to a label without
    nodes. *)
Lemma export_label_frame (db : graph_db) (label l : string)
    (files : list (string * list string)) (st : exporter) :
  match_nodes db label = [] →
  label_identifiers (snd (export_label db l files st)) !! label
  = label_identifiers st !! label
  ∧ output_dir (snd (export_label db l files st)) !! (label +:+ ".csv")
    = output_dir st !! (label +:+ ".csv")
  ∧ ∀ files', fst (export_label db l files st) = Ok files' →
              dict_lookup label files' = dict_lookup label files.
Proof.
  intros Hnone.
  destruct (String.eqb_spec l label) as [-> | Hne].
  { rewrite export_label_no_nodes by exact Hnone. simpl.
    repeat split. by intros files' [= <-]. }
  rewrite export_label_eq. cbv zeta.
  destruct (is_nil (match_nodes db l)).
  { simpl. repeat split. by intros files' [= <-]. }
  destruct (_determine_identifier _ _ _ _) as [identifier | e]; simpl.
  - rewrite !lookup_insert_ne.
    + repeat split. intros files' [= <-]. by apply dict_lookup_set_ne.
    + intros H. by apply append_cancel_r in H.
    + exact Hne.
  - repeat split. discriminate.
Qed.

Lemma export_labels_frame (db : graph_db) (label : string)
    (labels : list string) (files : list (string * list string))
    (st : exporter) :
  match_nodes db label = [] →
  label_identifiers (snd (for_each labels (export_label db) files st)) !! label
  = label_identifiers st !! label
  ∧ output_dir (snd (for_each labels (export_label db) files st))
      !! (label +:+ ".csv")
    = output_dir st !! (label +:+ ".csv")
  ∧ ∀ files', fst (for_each labels (export_label db) files st) = Ok files' →
              dict_lookup label files' = dict_lookup label files.
Proof.
  intros Hnone. revert files st.
  induction labels as [| l labels IH]; intros files st; simpl.
  - repeat split. by intros files' [= <-].
  - unfold bind.
    destruct (export_label_frame db label l files st Hnone) as (H1 & H2 & H3).
    destruct (export_label db l files st) as [[acc | e] st']; simpl in *.
    + destruct (IH acc st') as (I1 & I2 & I3).
      rewrite I1, I2, H1, H2. repeat split.
      intros files' Hf. rewrite (I3 files' Hf). by apply H3.
    + repeat split; auto; discriminate.
Qed.

(** *** The node labels of the three documents *)

Lemma imap_entries {A} (f : nat → A → nat * A) (l : list A) :
  (∀ i x, snd (f i x) = x) → map snd (imap f l) = l.
Proof.
  revert f. induction l as [| x l IH]; intros f Hf; [reflexivity |].
  rewrite imap_cons. simpl. rewrite Hf, IH; [reflexivity |].
  intros i y. apply Hf.
Qed.

Lemma enumerate_labels {B} (l : list (string * B)) :
  map (fun e => fst (snd e)) (enumerate l) = map fst l.
Proof.
  rewrite <- (map_map snd fst). unfold enumerate.
  by rewrite imap_entries.
Qed.

Lemma v3_nodes_tokens (self : exporter)
    (entries : list (nat * (string * list string))) (g : gen_v3) :
  map nl_token (im_nodeLabels (g3_model (fold_left (v3_node self) entries g)))
  = map nl_token (im_nodeLabels (g3_model g))
    ++ map (fun e => fst (snd e)) entries.
Proof.
  revert g. induction entries as [| [i [label props]] entries IH]; intros g;
    simpl fold_left.
  - by rewrite app_nil_r.
  - rewrite IH. simpl. rewrite map_app, <- app_assoc. reflexivity.
Qed.

Lemma v3_relationships_labels (self : exporter)
    (rel_files : list (string * rel_info)) (g : gen_v3) :
  im_nodeLabels (g3_model (fold_left (v3_relationship self) rel_files g))
  = im_nodeLabels (g3_model g).
Proof.
  revert g. induction rel_files as [| e rel_files IH]; intros g; simpl fold_left.
  - reflexivity.
  - rewrite IH. unfold v3_relationship.
    destruct (no_identifier _ || no_identifier _); reflexivity.
Qed.

Lemma v3_node_labels (self : exporter) (node_files : list (string * list string))
    (rel_files : list (string * rel_info)) :
  map nl_token (im_nodeLabels (_generate_model_v3_0 self node_files rel_files))
  = map fst node_files.
Proof.
  unfold _generate_model_v3_0. cbv zeta.
  rewrite v3_relationships_labels, v3_nodes_tokens, enumerate_labels.
  reflexivity.
Qed.

Lemma v2_nodes_tokens (self : exporter)
    (entries : list (nat * (string * list string))) (g : gen_v2) :
  map nl_token (im_nodeLabels (g2_model (fold_left (v2_node self) entries g)))
  = map nl_token (im_nodeLabels (g2_model g))
    ++ map (fun e => fst (snd e)) entries.
Proof.
  revert g. induction entries as [| [i [label props]] entries IH]; intros g;
    simpl fold_left.
  - by rewrite app_nil_r.
  - rewrite IH. simpl. rewrite map_app, <- app_assoc. reflexivity.
Qed.

Lemma v2_relationships_labels (self : exporter)
    (rel_files : list (string * rel_info)) (g : gen_v2) :
  im_nodeLabels (g2_model (fold_left (v2_relationship self) rel_files g))
  = im_nodeLabels (g2_model g).
Proof.
  revert g. induction rel_files as [| e rel_files IH]; intros g; simpl fold_left.
  - reflexivity.
  - rewrite IH. unfold v2_relationship.
    destruct (no_identifier _ || no_identifier _); reflexivity.
Qed.

Lemma v2_node_labels (self : exporter) (node_files : list (string * list string))
    (rel_files : list (string * rel_info)) :
  map nl_token (im_nodeLabels (_generate_model_v2_4 self node_files rel_files))
  = map fst node_files.
Proof.
  unfold _generate_model_v2_4. cbv zeta.
  rewrite v2_relationships_labels, v2_nodes_tokens, enumerate_labels.
  reflexivity.
Qed.

Lemma v0_nodes_labels (self : exporter)
    (entries : list (nat * (string * list string))) (g : gen_v0)
    (e : string * node_schema) :
  In e (lm_nodeSchemas (g0_model (fold_left (v0_node self) entries g))) →
  In e (lm_nodeSchemas (g0_model g))
  ∨ In (ns_label (snd e)) (map (fun e => fst (snd e)) entries).
Proof.
  revert g. induction entries as [| [i [label props]] entries IH]; intros g;
    simpl fold_left.
  - auto.
  - intros H. destruct (IH _ H) as [H1 | H1].
    + simpl in H1. apply dict_set_in in H1. destruct H1 as [-> | H1].
      * right. left. reflexivity.
      * by left.
    + right. right. exact H1.
Qed.

Lemma v0_relationships_labels (self : exporter)
    (rel_files : list (string * rel_info)) (g : gen_v0) :
  lm_nodeSchemas (g0_model (fold_left (v0_relationship self) rel_files g))
  = lm_nodeSchemas (g0_model g).
Proof.
  revert g. induction rel_files as [| e rel_files IH]; intros g; simpl fold_left.
  - reflexivity.
  - rewrite IH. unfold v0_relationship.
    destruct (no_identifier _ || no_identifier _); reflexivity.
Qed.

Lemma v0_node_labels (self : exporter) (node_files : list (string * list string))
    (rel_files : list (string * rel_info)) (e : string * node_schema) :
  In e (lm_nodeSchemas (_generate_model_v0_1 self node_files rel_files)) →
  In (ns_label (snd e)) (map fst node_files).
Proof.
  unfold _generate_model_v0_1. cbv zeta.
  rewrite v0_relationships_labels. intros H.
  apply v0_nodes_labels in H. destruct H as [[] | H].
  by rewrite enumerate_labels in H.
Qed.

(** *** The loop over the patterns *)

(** A pattern never raises and never touches the identifiers; it adds an
    entry only for two resolved labels, and a warning when it is skipped. *)
Lemma export_pattern_step (db : graph_db)
    (source_label rel_type target_label : string)
    (files : list (string * rel_info)) (st : exporter) :
  ∃ files' st',
    export_pattern db (source_label, rel_type, target_label) files st
    = (Ok files', st')
    ∧ label_identifiers st' = label_identifiers st
    ∧ (∃ w, warnings st' = warnings st ++ w)
    ∧ (∀ e, In e files' →
            In e files
            ∨ (ri_source_label (snd e) = source_label
               ∧ ri_target_label (snd e) = target_label
               ∧ is_Some (label_identifiers st !! source_label)
               ∧ is_Some (label_identifiers st !! target_label)))
    ∧ (label_identifiers st !! source_label = None
       ∨ label_identifiers st !! target_label = None →
       files' = files
       ∧ In (MissingIdentifier source_label target_label) (warnings st')).
Proof.
  destruct (no_identifier (label_identifiers st !! source_label)
            || no_identifier (label_identifiers st !! target_label)) eqn:E.
  - apply orb_true_iff in E.
    rewrite (export_pattern_skipped _ _ _ _ _ _ E).
    eexists _, _. split; [reflexivity |]. simpl.
    split; [reflexivity |]. split; [eauto |]. split; [auto |].
    intros _. split; [reflexivity |]. apply in_or_app. right. by left.
  - apply orb_false_iff in E. destruct E as [E1 E2].
    destruct (label_identifiers st !! source_label) as [sp |] eqn:Hs;
      [| discriminate].
    destruct (label_identifiers st !! target_label) as [tp |] eqn:Ht;
      [| discriminate].
    simpl in E1, E2. apply String.eqb_neq in E1, E2.
    rewrite (export_pattern_resolved db source_label rel_type target_label
               files st sp tp Hs E1 Ht E2).
    cbv zeta. destruct (is_nil _).
    + eexists _, _. split; [reflexivity |]. split; [reflexivity |].
      split; [exists []; by rewrite app_nil_r |]. split; [auto |].
      intros [H | H]; discriminate.
    + eexists _, _. split; [reflexivity |]. split; [reflexivity |].
      split; [exists []; by rewrite app_nil_r |]. split.
      * intros e He. apply dict_set_in in He.
        destruct He as [-> | He]; [right; simpl; eauto 10 | by left].
      * intros [H | H]; discriminate.
Qed.

Lemma export_patterns_loop (db : graph_db) (label : string)
    (patterns : list (string * string * string))
    (files : list (string * rel_info)) (st : exporter) :
  label_identifiers st !! label = None →
  (∀ e, In e files →
        ri_source_label (snd e) ≠ label ∧ ri_target_label (snd e) ≠ label) →
  ∃ files' st',
    for_each patterns (export_pattern db) files st = (Ok files', st')
    ∧ label_identifiers st' = label_identifiers st
    ∧ (∃ w, warnings st' = warnings st ++ w)
    ∧ (∀ e, In e files' →
            ri_source_label (snd e) ≠ label ∧ ri_target_label (snd e) ≠ label)
    ∧ (∀ source_label rel_type target_label,
         In (source_label, rel_type, target_label) patterns →
         source_label = label ∨ target_label = label →
         In (MissingIdentifier source_label target_label) (warnings st')).
Proof.
  revert files st.
  induction patterns as [| [[sl rt] tl] patterns IH]; intros files st Hnone Hfiles.
  - simpl. eexists _, _. split; [reflexivity |]. split; [reflexivity |].
    split; [exists []; by rewrite app_nil_r |]. split; [exact Hfiles |].
    intros ? ? ? [].
  - cbn [for_each]. unfold bind.
    destruct (export_pattern_step db sl rt tl files st)
      as (files1 & st1 & -> & Hid & [w1 Hw1] & Hent & Hskip).
    destruct (IH files1 st1) as (files2 & st2 & -> & Hid2 & [w2 Hw2] & Hent2 & Hwarn).
    + by rewrite Hid.
    + intros e He. destruct (Hent e He) as [H | (-> & -> & [x Hx] & [y Hy])].
      * by apply Hfiles.
      * split; intros ->; congruence.
    + eexists _, _. split; [reflexivity |].
      split; [by rewrite Hid2, Hid |].
      split; [exists (w1 ++ w2); by rewrite Hw2, Hw1, app_assoc |].
      split; [exact Hent2 |].
      intros sl' rt' tl' [[= <- <- <-] | Hin] Hlab.
      * rewrite Hw2. apply in_or_app. left. apply Hskip.
        destruct Hlab as [-> | ->]; auto.
      * by apply Hwarn with rt'.
Qed.

(** C10: a label of the metadata for which the database returns no node is
    passed over by the node export: no identifier is resolved for it, its
    file is not written, and it is not among the exported labels, so none of
    the three documents names it among its node labels.  Every pattern
    that starts or ends at such a label is then skipped by the relationship
    export, and the warning is given for it. *)
Theorem label_without_nodes (db : graph_db) (self : exporter) (label : string) :
  match_nodes db label = [] →
  label_identifiers self !! label = None →
  (∀ files st, export_label db label files st = (Ok files, st))
  ∧ label_identifiers (snd (export_nodes db self)) !! label = None
  ∧ output_dir (snd (export_nodes db self)) !! (label +:+ ".csv")
    = output_dir self !! (label +:+ ".csv")
  ∧ (∀ node_files,
       fst (export_nodes db self) = Ok node_files →
       dict_lookup label node_files = None
       ∧ ∀ st rel_files,
           ¬ In label
               (map nl_token
                    (im_nodeLabels (_generate_model_v3_0 st node_files rel_files)))
           ∧ ¬ In label
                 (map nl_token
                      (im_nodeLabels
                         (_generate_model_v2_4 st node_files rel_files)))
           ∧ ¬ In label
                 (map (fun e => ns_label (snd e))
                      (lm_nodeSchemas
                         (_generate_model_v0_1 st node_files rel_files))))
  ∧ (∀ source_label rel_type target_label files st,
       label_identifiers st !! label = None →
       source_label = label ∨ target_label = label →
       export_pattern db (source_label, rel_type, target_label) files st
       = (Ok files,
          add_warnings [MissingIdentifier source_label target_label] st))
  ∧ (∃ rel_files st2,
       export_relationships db (snd (export_nodes db self)) = (Ok rel_files, st2)
       ∧ (∀ e, In e rel_files →
               ri_source_label (snd e) ≠ label
               ∧ ri_target_label (snd e) ≠ label)
       ∧ (∀ source_label rel_type target_label,
            In (source_label, rel_type, target_label)
               (discover_patterns db (snd (export_nodes db self))) →
            source_label = label ∨ target_label = label →
            In (MissingIdentifier source_label target_label) (warnings st2))).
Proof.
  intros Hnone Hfresh.
  assert (Hnodes : export_nodes db self
                   = for_each (node_labels self) (export_label db) [] self)
    by reflexivity.
  destruct (export_labels_frame db label (node_labels self) [] self Hnone)
    as (H1 & H2 & H3).
  rewrite <- Hnodes in H1, H2, H3.
  assert (Hid : label_identifiers (snd (export_nodes db self)) !! label = None)
    by (by rewrite H1).
  split; [intros; by apply export_label_no_nodes |].
  split; [exact Hid |]. split; [exact H2 |].
  split; [| split].
  - intros node_files Hok.
    assert (Hlook : dict_lookup label node_files = None)
      by (by rewrite (H3 _ Hok)).
    split; [exact Hlook |].
    apply dict_lookup_none_keys in Hlook.
    intros st rel_files.
    rewrite v3_node_labels, v2_node_labels.
    split; [exact Hlook |]. split; [exact Hlook |].
    intros Hin. apply in_map_iff in Hin. destruct Hin as (e & <- & He).
    by apply v0_node_labels in He.
  - intros sl rt tl files st Hst Hlab.
    apply export_pattern_skipped.
    destruct Hlab as [-> | ->]; rewrite Hst; auto.
  - destruct (export_patterns_loop db label
                (discover_patterns db (snd (export_nodes db self))) []
                (snd (export_nodes db self)) Hid)
      as (rel_files & st2 & Hrun & _ & _ & Hent & Hwarn).
    { intros e []. }
    exists rel_files, st2. split; [| split; [exact Hent | exact Hwarn]].
    exact Hrun.
Qed.

Lemma label_without_nodes_witness :
  label_identifiers (snd (export_nodes social_db (social_exporter "3.0")))
    !! "Draft" = None
  ∧ output_dir (snd (export_nodes social_db (social_exporter "3.0")))
      !! "Draft.csv" = None.
Proof.
  destruct (label_without_nodes social_db (social_exporter "3.0") "Draft")
    as (_ & H1 & H2 & _).
  - reflexivity.
  - reflexivity.
  - split; [exact H1 | exact H2].
Defined.

(** ** The sample row of a relationship file *)

(** Whatever the output directory holds, a missing file or a file without
    rows gives the empty sample, from which every column is a string with an
    empty sample text. *)
Lemma field_of_no_sample (name : string) :
  field_of ∅ name = {| fd_name := name; fd_sample := ""; fd_type := "string" |}.
Proof. reflexivity. Qed.

Lemma read_sample_missing (self : exporter) (filename : string) :
  output_dir self !! filename = None → read_sample self filename = ∅.
Proof. intros H. unfold read_sample. by rewrite H. Qed.

(** C4 does not hold of the code.  On the graph of three persons, the file
    of the pattern is [Person_KNOWS_Person.csv] and its first row has the
    integers 1, 2 and 2020.  The generators of formats 2.4.0 and 0.1.0 open
    [KNOWS.csv] instead, which does not exist, and report every column and
    property of the pattern as a string with an empty sample; the generator
    of format 3.0 opens the pattern's file and reports integers.  Format 3.0
    in turn reads a sample only for the first pattern of a relationship
    type: on the graph with two [KNOWS] patterns the table of
    [Person_KNOWS_Robot.csv] is typed from the first row of
    [Person_KNOWS_Person.csv]. *)
Theorem relationship_sample_from_other_file :
  let columns := ["Person_id_source"; "Person_id_target"; "since"] in
  let file := [columns; ["1"; "2"; "2020"]] in
  let as_string name :=
    {| fd_name := name; fd_sample := ""; fd_type := "string" |} in
  let as_integer name sample :=
    {| fd_name := name; fd_sample := sample; fd_type := "integer" |} in
  output_dir (snd (export_model social_db (social_exporter "2.4.0")))
    !! "Person_KNOWS_Person.csv" = Some file
  ∧ output_dir (snd (export_model social_db (social_exporter "2.4.0")))
      !! "KNOWS.csv" = None
  ∧ map (field_of (first_row file)) columns
    = [as_integer "Person_id_source" "1"; as_integer "Person_id_target" "2";
       as_integer "since" "2020"]
  ∧ table_fields (fst (export_model social_db (social_exporter "2.4.0")))
                 "Person_KNOWS_Person.csv"
    = [map as_string columns]
  ∧ legacy_relationship_properties
      (fst (export_model social_db (social_exporter "0.1.0")))
    = [[("since", "string")]]
  ∧ table_fields (fst (export_model social_db (social_exporter "3.0")))
                 "Person_KNOWS_Person.csv"
    = [[as_integer "Person_id_source" "1"; as_integer "Person_id_target" "2";
        as_integer "since" "2020"]]
  ∧ output_dir (snd (export_model mixed_db mixed_exporter))
      !! "Person_KNOWS_Robot.csv"
    = Some [["Person_id"; "Robot_id"; "since"]; ["1"; "r2"; "long ago"]]
  ∧ table_fields (fst (export_model mixed_db mixed_exporter))
                 "Person_KNOWS_Robot.csv"
    = [[as_string "Person_id"; as_string "Robot_id";
        as_integer "since" "2020"]].
Proof.
  cbv zeta. repeat split; vm_compute; reflexivity.
Qed.

(** * Further properties of the exporter *)

(** ** Type inference: the boolean tag *)

Lemma lower_ascii_letter (c d : ascii) :
  lower_ascii c = d →
  is_upper d = false →
  c = d ∨ c = ascii_of_nat (nat_of_ascii d - 32).
Proof.
  intros <- Hd. unfold lower_ascii in *.
  destruct (is_upper c) eqn:Hc; [| by left].
  right.
  destruct c as [[] [] [] [] [] [] [] []]; vm_compute in Hc; try discriminate;
    reflexivity.
Qed.

Lemma lower_true_cases (s : string) :
  py_lower s = "true" →
  int_parses s = false ∧ float_parses s = false ∧ s ≠ "" ∧ s ≠ "NULL".
Proof.
  destruct s as [| c1 [| c2 [| c3 [| c4 [| c5 s]]]]]; simpl; try discriminate.
  intros [= H1 H2 H3 H4].
  apply lower_ascii_letter in H1, H2, H3, H4; try reflexivity.
  destruct H1 as [-> | ->], H2 as [-> | ->], H3 as [-> | ->], H4 as [-> | ->];
    repeat split; try discriminate; vm_compute; reflexivity.
Qed.

Lemma lower_false_cases (s : string) :
  py_lower s = "false" →
  int_parses s = false ∧ float_parses s = false ∧ s ≠ "" ∧ s ≠ "NULL".
Proof.
  destruct s as [| c1 [| c2 [| c3 [| c4 [| c5 [| c6 s]]]]]]; simpl;
    try discriminate.
  intros [= H1 H2 H3 H4 H5].
  apply lower_ascii_letter in H1, H2, H3, H4, H5; try reflexivity.
  destruct H1 as [-> | ->], H2 as [-> | ->], H3 as [-> | ->], H4 as [-> | ->],
           H5 as [-> | ->];
    repeat split; try discriminate; vm_compute; reflexivity.
Qed.

(** X1: a text is typed boolean exactly when it reads true or false in some
    mix of upper and lower case: no such text is taken by the integer or the
    float parse, and nothing else reaches the boolean tag. *)
Theorem infer_type_boolean_iff (s : string) :
  _infer_type (PStr s) = "boolean" ↔ py_lower s = "true" ∨ py_lower s = "false".
Proof.
  rewrite infer_type_str. split.
  - destruct (String.eqb s "" || String.eqb s "NULL"); [discriminate |].
    destruct (int_parses s); [discriminate |].
    destruct (float_parses s); [discriminate |].
    destruct (String.eqb_spec (py_lower s) "true") as [Ht | _]; [by left |].
    destruct (String.eqb_spec (py_lower s) "false") as [Hf | _]; [by right |].
    discriminate.
  - intros H.
    assert (Hc : int_parses s = false ∧ float_parses s = false
                 ∧ s ≠ "" ∧ s ≠ "NULL")
      by (destruct H; [by apply lower_true_cases | by apply lower_false_cases]).
    destruct Hc as (-> & -> & Hne & Hnull).
    apply String.eqb_neq in Hne, Hnull. rewrite Hne, Hnull. simpl.
    destruct H as [-> | ->]; reflexivity.
Qed.

Lemma infer_type_boolean_iff_witness : _infer_type (PStr "TrUe") = "boolean".
Proof.
  apply (proj2 (infer_type_boolean_iff "TrUe")). left. reflexivity.
Defined.

(** ** The collected uniqueness constraints *)

Lemma add_unique_constraint_nonempty uc record :
  (∀ l props, uc !! l = Some props → props ≠ []) →
  ∀ l props, add_unique_constraint uc record !! l = Some props → props ≠ [].
Proof.
  intros Huc l props. unfold add_unique_constraint.
  destruct (py_contains _ _ || py_contains _ _); [| by apply Huc].
  destruct (cr_labelsOrTypes record) as [| l0 ls]; [by apply Huc |].
  destruct (cr_properties record) as [| q qs]; [by apply Huc |].
  destruct (decide (l0 = l)) as [-> | Hne].
  - rewrite lookup_insert_eq. intros [= <-]. by destruct (default [] (uc !! l)).
  - rewrite lookup_insert_ne by exact Hne. by apply Huc.
Qed.

Lemma get_unique_constraints_nonempty records uc :
  (∀ l props, uc !! l = Some props → props ≠ []) →
  ∀ l props, get_unique_constraints records uc !! l = Some props → props ≠ [].
Proof.
  unfold get_unique_constraints.
  revert uc. induction records as [| r records IH]; intros uc Huc; simpl.
  - exact Huc.
  - apply IH. by apply add_unique_constraint_nonempty.
Qed.

(** X2: the map collected from [SHOW CONSTRAINTS] has an entry for a label
    exactly when some record declares a uniqueness constraint with that
    label first; the entry is the concatenation, in the order of the records,
    of the property lists of these records, and is never empty. *)
Theorem collected_constraints (records : list constraint_record)
    (label : string) :
  (get_unique_constraints records ∅ !! label = None ↔
   ∀ record, In record records → declares_uniqueness label record = false)
  ∧ (∀ props,
       get_unique_constraints records ∅ !! label = Some props →
       props ≠ []
       ∧ props = concat (map cr_properties
                             (List.filter (declares_uniqueness label) records))).
Proof.
  pose proof (get_unique_constraints_lookup records ∅ label) as Hlook.
  rewrite lookup_empty in Hlook. simpl in Hlook.
  assert (Hne : ∀ props, get_unique_constraints records ∅ !! label = Some props →
                         props ≠ []).
  { intros props. apply get_unique_constraints_nonempty.
    intros l ps. by rewrite lookup_empty. }
  split.
  - split.
    + intros Hnone record Hin.
      destruct (declares_uniqueness label record) eqn:Hd; [| reflexivity].
      exfalso. rewrite Hnone in Hlook. simpl in Hlook.
      assert (Hf : In record (List.filter (declares_uniqueness label) records))
        by (apply filter_In; auto).
      apply in_split in Hf. destruct Hf as (l1 & l2 & Hf).
      rewrite Hf, map_app, concat_app in Hlook. simpl in Hlook.
      unfold declares_uniqueness in Hd.
      destruct (cr_properties record);
        [by rewrite andb_false_r in Hd |].
      by destruct (concat (map cr_properties l1)).
    + intros Hall.
      rewrite filter_none_all in Hlook by exact Hall. simpl in Hlook.
      destruct (get_unique_constraints records ∅ !! label) as [props |] eqn:E;
        [| reflexivity].
      simpl in Hlook. subst props. by destruct (Hne [] eq_refl).
  - intros props Hsome. split; [by apply Hne |].
    rewrite Hsome in Hlook. exact Hlook.
Qed.

Lemma collected_constraints_witness :
  get_unique_constraints person_constraints ∅ !! "Person"
  = Some ["ssn"; "country"; "email"]
  ∧ ["ssn"; "country"; "email"] ≠ [].
Proof.
  assert (H : get_unique_constraints person_constraints ∅ !! "Person"
              = Some ["ssn"; "country"; "email"]) by reflexivity.
  split; [exact H |].
  apply (proj2 (collected_constraints person_constraints "Person") _ H).
Defined.

(** ** Where the identifier comes from *)

Lemma find_some_in {A} (f : A → bool) (l : list A) (x : A) :
  List.find f l = Some x → In x l.
Proof. intros H. by apply find_some in H as [H _]. Qed.

Lemma identifier_in_properties
    (uc : gmap string (list string)) (label : string)
    (properties : list string) (nodes : list node_record) (p : string) :
  no_constraint uc label →
  _determine_identifier uc label properties nodes = Ok p →
  In p properties.
Proof.
  intros Hno H.
  rewrite determine_identifier_no_constraint in H by exact Hno.
  revert H. cbv zeta.
  destruct (List.find _ properties) eqn:F1;
    [intros [= <-]; by apply find_some_in in F1 |].
  clear F1.
  destruct (List.filter _ properties) as [| c0 cands] eqn:Hc; simpl.
  - destruct (List.find _ properties) eqn:F2;
      [intros [= <-]; by apply find_some_in in F2 |].
    destruct properties; [discriminate |]. intros [= <-]. by left.
  - destruct (py_insert id_key_le c0 (py_sorted id_key_le cands)) eqn:Hs;
      [discriminate |].
    simpl. intros [= ->].
    assert (Hin : In p (py_sorted id_key_le (c0 :: cands)))
      by (simpl; rewrite Hs; by left).
    apply py_sorted_in in Hin. rewrite <- Hc in Hin.
    by apply filter_In in Hin as [Hin _].
Qed.

(** X3: the resolved identifier is the first property of the label's
    constraint or one of the properties handed to the resolution; without a
    constraint it is always one of the properties. *)
Theorem identifier_origin
    (uc : gmap string (list string)) (label : string)
    (properties : list string) (nodes : list node_record) (p : string) :
  _determine_identifier uc label properties nodes = Ok p →
  (∃ ps, uc !! label = Some (p :: ps))
  ∨ (no_constraint uc label ∧ In p properties).
Proof.
  intros H.
  destruct (uc !! label) as [[| c cs] |] eqn:E.
  - right. assert (Hno : no_constraint uc label) by (by right).
    split; [exact Hno | by apply identifier_in_properties with uc label nodes].
  - left. unfold _determine_identifier in H. rewrite E in H.
    injection H as <-. eauto.
  - right. assert (Hno : no_constraint uc label) by (by left).
    split; [exact Hno | by apply identifier_in_properties with uc label nodes].
Qed.

Lemma identifier_origin_witness :
  no_constraint ∅ "L" ∧ In "b" ["a"; "b"].
Proof.
  destruct (identifier_origin ∅ "L" ["a"; "b"] [blank_node] "b")
    as [[ps H] | H].
  - reflexivity.
  - discriminate.
  - exact H.
Defined.

(** X4: when the constraint of a label names a property that none of its
    nodes carries, the label is still exported under that property: the file
    has the header, the constraint property first and then every property
    seen, and not a single row, and each node is reported as skipped. *)
Theorem constraint_property_on_no_node (db : graph_db) (label : string)
    (files : list (string * list string)) (st : exporter)
    (k : string) (ks : list string) :
  match_nodes db label ≠ [] →
  unique_constraints st !! label = Some (k :: ks) →
  (∀ node, In node (match_nodes db label) → node !! k = None) →
  let columns :=
    k :: py_sorted String.leb
           (elements (observed_properties (match_nodes db label))) in
  fst (export_label db label files st) = Ok (dict_set label columns files)
  ∧ output_dir (snd (export_label db label files st)) !! (label +:+ ".csv")
    = Some [columns]
  ∧ warnings (snd (export_label db label files st))
    = warnings st ++ map SkippingNode (match_nodes db label)
  ∧ label_identifiers (snd (export_label db label files st)) !! label = Some k.
Proof.
  intros Hnodes Huc Hmissing columns. subst columns.
  rewrite export_label_eq. cbv zeta.
  assert (Hnil : is_nil (match_nodes db label) = false)
    by (destruct (match_nodes db label); [congruence | reflexivity]).
  rewrite Hnil.
  rewrite (determine_identifier_constraint _ _ _ _ k ks Huc).
  assert (Hnone : ∀ node, In node (match_nodes db label) →
                          has_identifier k node = false).
  { intros node Hin. unfold has_identifier, dict_get.
    by rewrite (Hmissing node Hin). }
  assert (Hcols : node_columns k (observed_properties (match_nodes db label))
                  = k :: py_sorted String.leb
                           (elements (observed_properties (match_nodes db label)))).
  { unfold node_columns. f_equal. f_equal. apply filter_all.
    apply List.Forall_forall. intros p Hp.
    apply negb_true_iff, String.eqb_neq. intros ->.
    apply list_elem_of_In, elem_of_elements, elem_of_observed in Hp.
    destruct Hp as (node & Hin & [v Hv]).
    rewrite (Hmissing node Hin) in Hv. discriminate. }
  rewrite Hcols, (filter_none_all _ _ Hnone).
  rewrite filter_all.
  2: { apply List.Forall_forall. intros node Hin.
       by rewrite (Hnone node Hin). }
  cbn [fst snd]. unfold set_output_dir, add_warnings, set_label_identifiers.
  cbn [output_dir warnings label_identifiers].
  rewrite !lookup_insert_eq. repeat split.
Qed.

Lemma constraint_property_on_no_node_witness :
  output_dir
    (snd (export_label social_db "Person" []
            (collected "3.0" [("Person", node_meta)] {["Person" := ["ssn"]]})))
    !! "Person.csv"
  = Some [["ssn"; "age"; "id"; "name"]].
Proof.
  apply (constraint_property_on_no_node social_db "Person" []
           (collected "3.0" [("Person", node_meta)] {["Person" := ["ssn"]]})
           "ssn" []).
  - vm_compute; discriminate.
  - reflexivity.
  - intros node [<- | [<- | [<- | []]]]; reflexivity.
Defined.

(** ** The layout of the nodes *)

Lemma node_position_inj (i j : nat) :
  node_position i = node_position j → i = j.
Proof.
  unfold node_position. intros [= Hx Hy].
  pose proof (Z.div_mod (Z.of_nat i) 3 ltac:(lia)).
  pose proof (Z.div_mod (Z.of_nat j) 3 ltac:(lia)).
  lia.
Qed.

Lemma visualisation_nodes_seq (prefix : string)
    (node_files : list (string * list string)) :
  visualisation_nodes prefix node_files
  = map (fun idx => (prefix +:+ pretty idx, node_position idx))
        (seq 0 (length node_files)).
Proof. unfold visualisation_nodes. apply imap_seq_0. Qed.

(** X5: the layout names and places every exported label, three to a row
    and 300 apart, so that no two nodes of a document share an id or a
    position, whatever the number of labels. *)
Theorem layout_without_overlap (prefix : string)
    (node_files : list (string * list string)) :
  length (visualisation_nodes prefix node_files) = length node_files
  ∧ NoDup (map fst (visualisation_nodes prefix node_files))
  ∧ NoDup (map snd (visualisation_nodes prefix node_files))
  ∧ (∀ i id x y,
       visualisation_nodes prefix node_files !! i = Some (id, (x, y)) →
       id = prefix +:+ pretty i
       ∧ x = (300 * Z.of_nat (i mod 3) - 300)%Z
       ∧ y = (300 * Z.of_nat (i / 3))%Z).
Proof.
  rewrite visualisation_nodes_seq.
  split; [by rewrite length_map, length_seq |].
  rewrite !map_map. cbn [fst snd].
  split; [| split].
  - assert (Hinj : Inj (=) (=) (fun idx : nat => prefix +:+ pretty idx)).
    { intros i j H. apply append_cancel_l in H. by apply (inj pretty). }
    apply (NoDup_fmap_2 _), NoDup_seq.
  - assert (Hinj : Inj (=) (=) node_position).
    { intros i j. apply node_position_inj. }
    apply (NoDup_fmap_2 _), NoDup_seq.
  - intros i id x y H.
    change (map ?f ?l) with (f <$> l) in H.
    rewrite list_lookup_fmap in H.
    destruct (seq 0 (length node_files) !! i) as [k |] eqn:Hk; [| discriminate].
    apply lookup_seq in Hk. destruct Hk as [-> _].
    simpl in H. injection H as <- <- <-.
    split; [reflexivity |].
    rewrite Nat2Z.inj_mod, Nat2Z.inj_div. split; reflexivity.
Qed.

(** ** What the node export returns *)

Lemma dict_set_fresh {V} (k : string) (v : V) (d : list (string * V)) :
  ¬ In k (map fst d) → dict_set k v d = d ++ [(k, v)].
Proof.
  induction d as [| [k0 v0] d IH]; simpl; intros H; [reflexivity |].
  destruct (String.eqb_spec k k0) as [-> | Hne]; [tauto |].
  rewrite IH; [reflexivity | tauto].
Qed.

(** One more label leaves the exported labels exported. *)
Lemma label_exported_frame (db : graph_db) (uc : gmap string (list string))
    (st : exporter) (l label : string) (columns : list string)
    (identifier : string) (file : csv_file) (evs : list event) :
  l ≠ label →
  label_exported db uc st label columns →
  label_exported db uc
    (set_output_dir (insert (l +:+ ".csv") file)
       (add_warnings evs
          (set_label_identifiers (insert l identifier) st)))
    label columns.
Proof.
  intros Hne (id & Hid & Hcols & Hlid & Hfile).
  exists id. split; [exact Hid |]. split; [exact Hcols |].
  unfold set_output_dir, add_warnings, set_label_identifiers.
  cbn [output_dir label_identifiers].
  rewrite !lookup_insert_ne; [by split | | exact Hne].
  intros H. by apply append_cancel_r in H.
Qed.

Lemma export_labels_result (db : graph_db) (labels : list string)
    (files : list (string * list string)) (st : exporter)
    (files' : list (string * list string)) (st' : exporter) :
  NoDup labels →
  (∀ l, In l labels → ¬ In l (map fst files)) →
  (∀ l columns, In (l, columns) files →
                label_exported db (unique_constraints st) st l columns) →
  for_each labels (export_label db) files st = (Ok files', st') →
  map fst files' = map fst files ++ List.filter (has_nodes db) labels
  ∧ (∀ l columns, In (l, columns) files' →
                  label_exported db (unique_constraints st) st' l columns).
Proof.
  revert files st.
  induction labels as [| l labels IH]; intros files st Hnd Hfresh Hinv Hrun.
  - simpl in Hrun. injection Hrun as <- <-. simpl. by rewrite app_nil_r.
  - cbn [for_each] in Hrun. unfold bind in Hrun.
    apply NoDup_cons in Hnd. destruct Hnd as [Hl Hnd].
    rewrite export_label_eq in Hrun. cbv zeta in Hrun.
    cbn [List.filter]. unfold has_nodes at 1.
    destruct (is_nil (match_nodes db l)) eqn:Hnil.
    + simpl negb. cbv iota.
      apply (IH files st); auto.
      intros l0 Hl0. apply Hfresh. by right.
    + destruct (_determine_identifier _ _ _ _) as [identifier | e] eqn:Hid;
        [| discriminate].
      assert (Hl_fresh : ¬ In l (map fst files)) by (apply Hfresh; by left).
      rewrite (dict_set_fresh _ _ _ Hl_fresh) in Hrun.
      apply IH in Hrun; [| exact Hnd | |].
      * destruct Hrun as [Hkeys Hall]. split; [| exact Hall].
        rewrite Hkeys, map_app. simpl. by rewrite <- app_assoc.
      * intros l0 Hl0. rewrite map_app, in_app_iff. simpl.
        intros [H | [<- | []]].
        -- apply (Hfresh l0); [by right | exact H].
        -- apply Hl. by apply list_elem_of_In.
      * intros l0 columns Hin. apply in_app_or in Hin.
        destruct Hin as [Hin | [[= <- <-] | []]].
        -- apply label_exported_frame; [| by apply Hinv].
           intros ->. apply Hl_fresh. apply in_map_iff. by exists (l0, columns).
        -- exists identifier. split; [exact Hid |]. split; [reflexivity |].
           unfold set_output_dir, add_warnings, set_label_identifiers.
           cbn [output_dir label_identifiers unique_constraints].
           rewrite !lookup_insert_eq. split; [reflexivity |].
           f_equal. f_equal. apply map_ext. intros node.
           apply dict_to_list_cell.
Qed.

(** X6: when the node export returns, it returns the labels that have at
    least one node, in the order of the metadata, and every one of them is
    then exported: its identifier is recorded and is the first of its
    columns, and its file holds the header and one row for each of its
    nodes that has the identifier.  (The labels of the metadata are the keys
    of a dict, hence all different.) *)
Theorem exported_labels (db : graph_db) (self : exporter)
    (node_files : list (string * list string)) (st' : exporter) :
  NoDup (node_labels self) →
  export_nodes db self = (Ok node_files, st') →
  map fst node_files = List.filter (has_nodes db) (node_labels self)
  ∧ NoDup (map fst node_files)
  ∧ (∀ label columns,
       In (label, columns) node_files →
       label_exported db (unique_constraints self) st' label columns).
Proof.
  intros Hnd Hrun.
  change (for_each (node_labels self) (export_label db) [] self
          = (Ok node_files, st')) in Hrun.
  apply export_labels_result in Hrun; [| exact Hnd | intros l _ [] | intros ? ? []].
  destruct Hrun as [Hkeys Hall]. simpl in Hkeys.
  split; [exact Hkeys |]. split; [| exact Hall].
  rewrite Hkeys. by apply NoDup_list_filter.
Qed.

Lemma exported_labels_witness :
  map fst (match fst (export_nodes social_db (social_exporter "3.0")) with
           | Ok node_files => node_files
           | Raise _ => []
           end)
  = ["Person"].
Proof.
  destruct (export_nodes social_db (social_exporter "3.0"))
    as [[node_files | e] st'] eqn:Hrun.
  - destruct (exported_labels social_db (social_exporter "3.0") node_files st')
      as [Hkeys _].
    + vm_compute. repeat constructor; rewrite list_elem_of_In; simpl; intuition discriminate.
    + exact Hrun.
    + simpl. rewrite Hkeys. reflexivity.
  - vm_compute in Hrun. discriminate.
Defined.

(** ** Writing a file and reading its sample back *)





(** ** The columns of a label in the documents *)




(** ** The tables of the node labels *)

Lemma v3_nodes_tables (self : exporter)
    (entries : list (nat * (string * list string))) (g : gen_v3) :
  im_tableSchemas (g3_model (fold_left (v3_node self) entries g))
  = im_tableSchemas (g3_model g) ++ map (fun e => node_table self (snd e)) entries.
Proof.
  revert g. induction entries as [| [i [label props]] entries IH]; intros g;
    simpl fold_left.
  - by rewrite app_nil_r.
  - rewrite IH. simpl. rewrite <- app_assoc. reflexivity.
Qed.

Lemma v3_relationships_tables (self : exporter)
    (rel_files : list (string * rel_info)) (g : gen_v3) :
  ∃ extra,
    im_tableSchemas (g3_model (fold_left (v3_relationship self) rel_files g))
    = im_tableSchemas (g3_model g) ++ extra
    ∧ length extra ≤ length rel_files
    ∧ Forall (fun t => ts_expanded t = true) extra.
Proof.
  revert g. induction rel_files as [| e rel_files IH]; intros g; simpl fold_left.
  - exists []. rewrite app_nil_r. repeat split; [simpl; lia | constructor].
  - destruct (IH (v3_relationship self g e)) as (extra & -> & Hlen & Hexp).
    unfold v3_relationship.
    destruct (no_identifier _ || no_identifier _).
    + exists extra. repeat split; [simpl; lia | exact Hexp].
    + cbn [g3_model im_tableSchemas]. rewrite <- app_assoc.
      eexists. split; [reflexivity |]. split; [simpl; lia |].
      constructor; [reflexivity | exact Hexp].
Qed.

Lemma v2_nodes_tables (self : exporter)
    (entries : list (nat * (string * list string))) (g : gen_v2) :
  im_tableSchemas (g2_model (fold_left (v2_node self) entries g))
  = im_tableSchemas (g2_model g) ++ map (fun e => node_table self (snd e)) entries.
Proof.
  revert g. induction entries as [| [i [label props]] entries IH]; intros g;
    simpl fold_left.
  - by rewrite app_nil_r.
  - rewrite IH. simpl. rewrite <- app_assoc. reflexivity.
Qed.

Lemma v2_relationships_tables (self : exporter)
    (rel_files : list (string * rel_info)) (g : gen_v2) :
  ∃ extra,
    im_tableSchemas (g2_model (fold_left (v2_relationship self) rel_files g))
    = im_tableSchemas (g2_model g) ++ extra
    ∧ length extra ≤ length rel_files.
Proof.
  revert g. induction rel_files as [| e rel_files IH]; intros g; simpl fold_left.
  - exists []. rewrite app_nil_r. split; [reflexivity | simpl; lia].
  - destruct (IH (v2_relationship self g e)) as (extra & -> & Hlen).
    unfold v2_relationship.
    destruct (no_identifier _ || no_identifier _).
    + exists extra. split; [reflexivity | simpl; lia].
    + cbn [g2_model im_tableSchemas]. rewrite <- app_assoc.
      eexists. split; [reflexivity | simpl; lia].
Qed.

Lemma enumerate_entries {B} (l : list B) : map snd (enumerate l) = l.
Proof. unfold enumerate. by apply imap_entries. Qed.

Lemma v0_nodes_files (self : exporter)
    (entries : list (nat * (string * list string))) (g : gen_v0) :
  NoDup (map (fun e => fst (snd e)) entries) →
  (∀ e, In e entries →
        ¬ In (fst (snd e) +:+ ".csv") (map fst (lm_fileSchemas (g0_model g)))) →
  lm_fileSchemas (g0_model (fold_left (v0_node self) entries g))
  = lm_fileSchemas (g0_model g)
    ++ map (fun e => (fst (snd e) +:+ ".csv",
                      ts_fields (node_table self (snd e)))) entries.
Proof.
  revert g. induction entries as [| [i [label props]] entries IH];
    intros g Hnd Hfresh; simpl fold_left.
  - by rewrite app_nil_r.
  - simpl in Hnd. apply NoDup_cons in Hnd. destruct Hnd as [Hl Hnd].
    rewrite IH; [| exact Hnd |].
    + cbn [v0_node g0_model lm_fileSchemas].
      rewrite dict_set_fresh by (apply (Hfresh (i, (label, props))); by left).
      rewrite <- app_assoc. reflexivity.
    + intros e He. cbn [v0_node g0_model lm_fileSchemas].
      rewrite dict_set_fresh by (apply (Hfresh (i, (label, props))); by left).
      rewrite map_app, in_app_iff. simpl.
      intros [H | [H | []]].
      * apply (Hfresh e); [by right | exact H].
      * apply append_cancel_r in H. apply Hl. rewrite H.
        apply list_elem_of_In, in_map_iff. by exists e.
Qed.

Lemma v0_relationships_files (self : exporter)
    (rel_files : list (string * rel_info)) (g : gen_v0) :
  lm_fileSchemas (g0_model (fold_left (v0_relationship self) rel_files g))
  = lm_fileSchemas (g0_model g).
Proof.
  revert g. induction rel_files as [| e rel_files IH]; intros g; simpl fold_left.
  - reflexivity.
  - rewrite IH. unfold v0_relationship.
    destruct (no_identifier _ || no_identifier _); reflexivity.
Qed.

(** X9: in the documents of formats 3.0 and 2.4.0 the tables start with one
    table for each exported label, in the order of the labels, named after
    the label's file and typed, column by column, from the sample of that
    file; the tables of the patterns come after, at most one for each.  The
    legacy document has a file schema for each exported label, typed in the
    same way, and no file schema for any relationship file. *)
Theorem node_tables_of_documents (self : exporter)
    (node_files : list (string * list string))
    (rel_files : list (string * rel_info)) :
  (∃ rel_tables,
     im_tableSchemas (_generate_model_v3_0 self node_files rel_files)
     = map (node_table self) node_files ++ rel_tables
     ∧ length rel_tables ≤ length rel_files)
  ∧ (∃ rel_tables,
       im_tableSchemas (_generate_model_v2_4 self node_files rel_files)
       = map (node_table self) node_files ++ rel_tables
       ∧ length rel_tables ≤ length rel_files)
  ∧ (NoDup (map fst node_files) →
     lm_fileSchemas (_generate_model_v0_1 self node_files rel_files)
     = map (fun entry => (fst entry +:+ ".csv",
                          ts_fields (node_table self entry))) node_files).
Proof.
  split; [| split].
  - unfold _generate_model_v3_0. cbv zeta.
    destruct (v3_relationships_tables self rel_files
                (fold_left (v3_node self) (enumerate node_files)
                   {| g3_node_label_map := ∅; g3_rel_type_id_counter := 0;
                      g3_rel_type_tokens := ∅; g3_sample_data := ∅;
                      g3_model := {| im_version := "3.0.0"; im_nodeLabels := [];
                                     im_relationshipTypes := [];
                                     im_tableSchemas := [] |} |}))
      as (extra & -> & Hlen & _).
    exists extra. split; [| exact Hlen].
    rewrite v3_nodes_tables. cbn [g3_model im_tableSchemas app].
    by rewrite <- (map_map snd (node_table self)), enumerate_entries.
  - unfold _generate_model_v2_4. cbv zeta.
    destruct (v2_relationships_tables self rel_files
                (fold_left (v2_node self) (enumerate node_files)
                   {| g2_node_label_map := ∅; g2_property_counter := 1;
                      g2_rel_id_counter := 0;
                      g2_model := {| im_version := "2.4.0-beta.0";
                                     im_nodeLabels := [];
                                     im_relationshipTypes := [];
                                     im_tableSchemas := [] |} |}))
      as (extra & -> & Hlen).
    exists extra. split; [| exact Hlen].
    rewrite v2_nodes_tables. cbn [g2_model im_tableSchemas app].
    by rewrite <- (map_map snd (node_table self)), enumerate_entries.
  - intros Hnd. unfold _generate_model_v0_1. cbv zeta.
    rewrite v0_relationships_files, v0_nodes_files.
    + cbn [g0_model lm_fileSchemas app].
      rewrite <- (map_map snd (fun entry => (fst entry +:+ ".csv",
                                             ts_fields (node_table self entry)))).
      by rewrite enumerate_entries.
    + by rewrite enumerate_labels.
    + intros e _ [].
Qed.

Lemma node_tables_of_documents_witness :
  lm_fileSchemas (_generate_model_v0_1 (social_exporter "0.1.0")
                    [("Person", ["id"; "age"; "name"])] [])
  = [("Person.csv",
      ts_fields (node_table (social_exporter "0.1.0")
                            ("Person", ["id"; "age"; "name"])))].
Proof.
  apply (proj2 (proj2 (node_tables_of_documents (social_exporter "0.1.0")
                         [("Person", ["id"; "age"; "name"])] []))).
  simpl. apply NoDup_singleton.
Defined.

(** ** What the relationship export returns *)

Lemma dict_set_keys {V} (k : string) (v : V) (d : list (string * V)) :
  NoDup (map fst d) → NoDup (map fst (dict_set k v d)).
Proof.
  induction d as [| [k0 v0] d IH]; simpl; intros Hnd.
  - apply NoDup_singleton.
  - apply NoDup_cons in Hnd. destruct Hnd as [Hk0 Hnd].
    destruct (String.eqb_spec k k0) as [-> | Hne]; simpl.
    + by apply NoDup_cons.
    + apply NoDup_cons. split; [| by apply IH].
      rewrite list_elem_of_In, in_map_iff. intros ([k1 v1] & Hk1 & Hin).
      simpl in Hk1. subst k1. apply dict_set_in in Hin.
      destruct Hin as [[= -> _] | Hin]; [congruence |].
      apply Hk0, list_elem_of_In, in_map_iff. by exists (k0, v1).
Qed.

(** One pattern: the descriptors stay consistent, the identifiers and the
    constraints are not touched, and only the file of the pattern can
    change. *)
Lemma export_pattern_descriptor (db : graph_db)
    (source_label rel_type target_label : string)
    (files : list (string * rel_info)) (st : exporter) :
  NoDup (map fst files) →
  (∀ key info, In (key, info) files →
               descriptor_consistent (label_identifiers st) key info) →
  ∃ files' st',
    export_pattern db (source_label, rel_type, target_label) files st
    = (Ok files', st')
    ∧ label_identifiers st' = label_identifiers st
    ∧ unique_constraints st' = unique_constraints st
    ∧ NoDup (map fst files')
    ∧ (∀ key info, In (key, info) files' →
                   descriptor_consistent (label_identifiers st) key info)
    ∧ (∀ name, name ≠ pattern_filename source_label rel_type target_label →
               output_dir st' !! name = output_dir st !! name).
Proof.
  intros Hnd Hinv.
  destruct (no_identifier (label_identifiers st !! source_label)
            || no_identifier (label_identifiers st !! target_label)) eqn:E.
  - apply orb_true_iff in E.
    rewrite (export_pattern_skipped _ _ _ _ _ _ E).
    eexists _, _. split; [reflexivity |]. simpl. auto.
  - apply orb_false_iff in E. destruct E as [E1 E2].
    destruct (label_identifiers st !! source_label) as [sp |] eqn:Hs;
      [| discriminate].
    destruct (label_identifiers st !! target_label) as [tp |] eqn:Ht;
      [| discriminate].
    simpl in E1, E2. apply String.eqb_neq in E1, E2.
    rewrite (export_pattern_resolved db source_label rel_type target_label
               files st sp tp Hs E1 Ht E2).
    cbv zeta. destruct (is_nil _).
    + eexists _, _. split; [reflexivity |]. auto.
    + eexists _, _. split; [reflexivity |].
      split; [reflexivity |]. split; [reflexivity |].
      split; [by apply dict_set_keys |]. split.
      * intros key info Hin. apply dict_set_in in Hin.
        destruct Hin as [[= -> ->] | Hin]; [| by apply Hinv].
        unfold descriptor_consistent.
        cbn [ri_rel_type ri_all_properties ri_rel_properties ri_source_label
             ri_target_label ri_source_id_prop ri_target_id_prop
             ri_source_col_name ri_target_col_name].
        repeat split; auto.
        -- by destruct (endpoint_columns source_label sp target_label tp).
        -- apply sorted_names_increasing, NoDup_elements.
      * intros name Hname. unfold set_output_dir. cbn [output_dir].
        by rewrite lookup_insert_ne.
Qed.

Lemma export_patterns_descriptors (db : graph_db)
    (patterns : list (string * string * string))
    (files : list (string * rel_info)) (st : exporter) :
  NoDup (map fst files) →
  (∀ key info, In (key, info) files →
               descriptor_consistent (label_identifiers st) key info) →
  ∃ files' st',
    for_each patterns (export_pattern db) files st = (Ok files', st')
    ∧ label_identifiers st' = label_identifiers st
    ∧ unique_constraints st' = unique_constraints st
    ∧ NoDup (map fst files')
    ∧ (∀ key info, In (key, info) files' →
                   descriptor_consistent (label_identifiers st) key info)
    ∧ (∀ name,
         (∀ sl rt tl, In (sl, rt, tl) patterns →
                      name ≠ pattern_filename sl rt tl) →
         output_dir st' !! name = output_dir st !! name).
Proof.
  revert files st.
  induction patterns as [| [[sl rt] tl] patterns IH]; intros files st Hnd Hinv.
  - simpl. eexists _, _. split; [reflexivity |]. auto.
  - cbn [for_each]. unfold bind.
    destruct (export_pattern_descriptor db sl rt tl files st Hnd Hinv)
      as (files1 & st1 & -> & Hid1 & Huc1 & Hnd1 & Hinv1 & Hout1).
    destruct (IH files1 st1 Hnd1) as (files2 & st2 & -> & Hid2 & Huc2 & Hnd2
                                      & Hinv2 & Hout2).
    { by rewrite Hid1. }
    eexists _, _. split; [reflexivity |].
    split; [by rewrite Hid2 |]. split; [by rewrite Huc2 |].
    split; [exact Hnd2 |]. split.
    + intros key info Hin. rewrite <- Hid1. by apply Hinv2.
    + intros name Hname. rewrite Hout2, Hout1; [reflexivity | |].
      * apply Hname. by left.
      * intros sl' rt' tl' Hin. apply Hname. by right.
Qed.

(** X10: the relationship export never raises.  It leaves the identifiers
    and the constraints as they are, and touches no file but the files of
    the discovered patterns.  The descriptors it returns have different keys,
    and each one is consistent: its key is
    [<source>_<type>_<target>], both its labels are resolved to non-empty
    identifier properties, which it records, its two column names follow the
    naming rule, its columns are the two endpoint columns and then its
    relationship properties, and these are strictly increasing. *)
Theorem relationship_descriptors (db : graph_db) (st : exporter) :
  ∃ rel_files st',
    export_relationships db st = (Ok rel_files, st')
    ∧ label_identifiers st' = label_identifiers st
    ∧ unique_constraints st' = unique_constraints st
    ∧ NoDup (map fst rel_files)
    ∧ (∀ key info, In (key, info) rel_files →
                   descriptor_consistent (label_identifiers st) key info)
    ∧ (∀ name,
         (∀ sl rt tl, In (sl, rt, tl) (discover_patterns db st) →
                      name ≠ pattern_filename sl rt tl) →
         output_dir st' !! name = output_dir st !! name).
Proof.
  change (export_relationships db st)
    with (for_each (discover_patterns db st) (export_pattern db) [] st).
  apply export_patterns_descriptors.
  - constructor.
  - intros key info [].
Qed.

(** ** The rows of a relationship file *)

Lemma rel_data_cell (source_id_prop target_id_prop
                     source_col_name target_col_name : string)
    (source rel target : node_record) (column : string) :
  cell (rel_data source_id_prop target_id_prop source_col_name target_col_name
                 (source, rel, target)) column
  = match rel !! column with
    | Some v => csv_field v
    | None =>
        if String.eqb column target_col_name
        then csv_field (dict_get target target_id_prop)
        else if String.eqb column source_col_name
             then csv_field (dict_get source source_id_prop)
             else "NULL"
    end.
Proof.
  unfold cell, rel_data.
  rewrite lookup_union.
  destruct (rel !! column) as [v |] eqn:Hrel.
  - by destruct (<[target_col_name := _]> _ !! column).
  - rewrite (left_id None _).
    destruct (String.eqb_spec column target_col_name) as [-> | Hne].
    + by rewrite lookup_insert_eq.
    + rewrite lookup_insert_ne by congruence.
      destruct (String.eqb_spec column source_col_name) as [-> | Hne'].
      * by rewrite lookup_insert_eq.
      * rewrite lookup_insert_ne by congruence. by rewrite lookup_empty.
Qed.

Lemma elem_of_relationship_properties (p : string)
    (records : list (node_record * node_record * node_record)) :
  p ∈ relationship_properties records ↔
  ∃ source rel target, In (source, rel, target) records ∧ is_Some (rel !! p).
Proof.
  unfold relationship_properties. rewrite elem_of_union_list. split.
  - intros (X & HX & Hp).
    apply list_elem_of_In, in_map_iff in HX.
    destruct HX as ([[source rel] target] & <- & Hin).
    exists source, rel, target. split; [exact Hin |]. by apply elem_of_dom.
  - intros (source & rel & target & Hin & Hp).
    exists (dom rel). split; [| by apply elem_of_dom].
    apply list_elem_of_In, in_map_iff. by exists (source, rel, target).
Qed.

(** X11: the file of a pattern has, after the two endpoint columns, the
    properties seen on the relationships written, in increasing order.  In a
    row, a column shows the relationship's own property of that name when
    it has one, else the target identifier under the target column, else the
    source identifier under the source column, else NULL: a relationship
    property named like an endpoint column takes the place of the endpoint.
    When the two endpoint columns differ and no relationship written has a
    property of either name, the header has no duplicate and every row is
    the source identifier, the target identifier and the relationship's
    properties. *)
Theorem relationship_file_rows (db : graph_db)
    (source_label rel_type target_label : string)
    (files : list (string * rel_info)) (st : exporter)
    (source_id_prop target_id_prop : string) :
  label_identifiers st !! source_label = Some source_id_prop →
  source_id_prop ≠ "" →
  label_identifiers st !! target_label = Some target_id_prop →
  target_id_prop ≠ "" →
  let kept :=
    List.filter (endpoints_present source_id_prop target_id_prop)
      (match_relationships db source_label rel_type target_label) in
  kept ≠ [] →
  ∃ c1 c2 props rows,
    (c1, c2) = endpoint_columns source_label source_id_prop
                                target_label target_id_prop
    ∧ output_dir
        (snd (export_pattern db (source_label, rel_type, target_label)
                             files st))
        !! pattern_filename source_label rel_type target_label
      = Some ((c1 :: c2 :: props) :: rows)
    ∧ StronglySorted str_lt props
    ∧ (∀ p, In p props ↔
            ∃ source rel target,
              In (source, rel, target) kept ∧ is_Some (rel !! p))
    ∧ rows
      = map (fun record =>
               map (fun column =>
                      match snd (fst record) !! column with
                      | Some v => csv_field v
                      | None =>
                          if String.eqb column c2
                          then csv_field (dict_get (snd record) target_id_prop)
                          else if String.eqb column c1
                               then csv_field (dict_get (fst (fst record))
                                                        source_id_prop)
                               else "NULL"
                      end)
                   (c1 :: c2 :: props))
            kept
    ∧ (c1 ≠ c2 →
       (∀ source rel target,
          In (source, rel, target) kept →
          rel !! c1 = None ∧ rel !! c2 = None) →
       NoDup (c1 :: c2 :: props)
       ∧ rows
         = map (fun record =>
                  csv_field (dict_get (fst (fst record)) source_id_prop)
                  :: csv_field (dict_get (snd record) target_id_prop)
                  :: map (cell (snd (fst record))) props)
               kept).
Proof.
  intros Hs Hsne Ht Htne kept Hkept.
  rewrite (export_pattern_resolved db source_label rel_type target_label
             files st _ _ Hs Hsne Ht Htne).
  cbv zeta. fold kept.
  assert (Hnil : is_nil kept = false)
    by (destruct kept; [congruence | reflexivity]).
  rewrite Hnil. cbn [snd]. unfold set_output_dir. cbn [output_dir].
  rewrite lookup_insert_eq.
  destruct (endpoint_columns source_label source_id_prop
                             target_label target_id_prop) as [c1 c2] eqn:Hcols.
  cbn [fst snd app].
  set (props := py_sorted String.leb (elements (relationship_properties kept))).
  assert (Hsorted : StronglySorted str_lt props)
    by apply sorted_names_increasing, NoDup_elements.
  assert (Hmem : ∀ p, In p props ↔
                      ∃ source rel target,
                        In (source, rel, target) kept ∧ is_Some (rel !! p)).
  { intros p. unfold props.
    rewrite py_sorted_in, <- list_elem_of_In, elem_of_elements.
    apply elem_of_relationship_properties. }
  assert (Hrows :
    map (dict_to_list (c1 :: c2 :: props) (PStr "NULL"))
        (map (rel_data source_id_prop target_id_prop c1 c2) kept)
    = map (fun record =>
             map (fun column =>
                    match snd (fst record) !! column with
                    | Some v => csv_field v
                    | None =>
                        if String.eqb column c2
                        then csv_field (dict_get (snd record) target_id_prop)
                        else if String.eqb column c1
                             then csv_field (dict_get (fst (fst record))
                                                      source_id_prop)
                             else "NULL"
                    end)
                 (c1 :: c2 :: props))
          kept).
  { rewrite map_map. apply map_ext. intros [[source rel] target].
    rewrite dict_to_list_cell. apply map_ext. intros column.
    apply rel_data_cell. }
  eexists c1, c2, props, _.
  split; [reflexivity |]. split; [reflexivity |]. split; [exact Hsorted |].
  split; [exact Hmem |]. split; [exact Hrows |].
  intros Hne Hfree.
  assert (Hnot : ∀ c, (c = c1 ∨ c = c2) → ¬ In c props).
  { intros c Hc Hin. apply Hmem in Hin.
    destruct Hin as (source & rel & target & Hin & [v Hv]).
    destruct (Hfree source rel target Hin) as [H1 H2].
    destruct Hc as [-> | ->]; congruence. }
  split.
  - apply NoDup_cons. split.
    + rewrite list_elem_of_In. intros [H | H]; [congruence |].
      by apply (Hnot c1); [left |].
    + apply NoDup_cons. split.
      * rewrite list_elem_of_In. by apply Hnot; right.
      * clear -Hsorted. induction Hsorted as [| x l Hl IH Hx]; [constructor |].
        apply NoDup_cons. split; [| exact IH].
        rewrite list_elem_of_In. intros Hin.
        rewrite List.Forall_forall in Hx. specialize (Hx x Hin).
        unfold str_lt in Hx. by rewrite string_compare_refl in Hx.
  - rewrite Hrows. apply map_ext_in. intros [[source rel] target] Hin.
    destruct (Hfree source rel target Hin) as [H1 H2].
    cbn [map fst snd]. rewrite H1, H2, !String.eqb_refl.
    apply String.eqb_neq in Hne. rewrite Hne.
    f_equal. f_equal. apply map_ext_in. intros p Hp.
    unfold cell. destruct (rel !! p) as [v |] eqn:Hrel; [reflexivity |].
    assert (Hp2 : p ≠ c2) by (intros ->; by apply (Hnot c2); [right |]).
    assert (Hp1 : p ≠ c1) by (intros ->; by apply (Hnot c1); [left |]).
    apply String.eqb_neq in Hp1, Hp2. by rewrite Hp1, Hp2.
Qed.

Lemma relationship_file_rows_witness :
  ∃ props rows,
    output_dir
      (snd (export_pattern social_db ("Person", "KNOWS", "Person") []
              (snd (export_nodes social_db (social_exporter "3.0")))))
      !! "Person_KNOWS_Person.csv"
    = Some (("Person_id_source" :: "Person_id_target" :: props) :: rows).
Proof.
  destruct (relationship_file_rows social_db "Person" "KNOWS" "Person" []
              (snd (export_nodes social_db (social_exporter "3.0"))) "id" "id")
    as (c1 & c2 & props & rows & Hc & H & _).
  - vm_compute; reflexivity.
  - discriminate.
  - vm_compute; reflexivity.
  - discriminate.
  - vm_compute; discriminate.
  - injection Hc as -> ->. exists props, rows. exact H.
Defined.

(** ** The relationship types of a 3.0 document *)

Lemma v3_nodes_label_map (self : exporter)
    (entries : list (nat * (string * list string))) (g : gen_v3)
    (labels : list string) :
  (∀ l, no_identifier (g3_node_label_map g !! l) = false ↔ In l labels) →
  ∀ l, no_identifier
         (g3_node_label_map (fold_left (v3_node self) entries g) !! l) = false
       ↔ In l (labels ++ map (fun e => fst (snd e)) entries).
Proof.
  revert g labels.
  induction entries as [| [i [label props]] entries IH]; intros g labels Hg l;
    simpl fold_left.
  - simpl. rewrite app_nil_r. apply Hg.
  - change (labels ++ map (fun e => fst (snd e)) ((i, (label, props)) :: entries))
      with (labels ++ [label] ++ map (fun e : nat * (string * list string) =>
                                        fst (snd e)) entries).
    rewrite app_assoc. apply IH. clear l. intros l.
    cbn [v3_node g3_node_label_map].
    rewrite in_app_iff. simpl.
    destruct (decide (label = l)) as [-> | Hne].
    + rewrite lookup_insert_eq.
      split; [intros _; right; left; reflexivity | intros _; reflexivity].
    + rewrite lookup_insert_ne by exact Hne. rewrite Hg.
      split; [auto | intros [H | [H | []]]; [exact H | contradiction]].
Qed.

Lemma v3_relationships_types (self : exporter)
    (rel_files : list (string * rel_info)) (g : gen_v3) :
  NoDup (map rt_token (im_relationshipTypes (g3_model g))) →
  (∀ t, In t (map rt_token (im_relationshipTypes (g3_model g)))
        ↔ is_Some (g3_rel_type_tokens g !! t)) →
  let g' := fold_left (v3_relationship self) rel_files g in
  NoDup (map rt_token (im_relationshipTypes (g3_model g')))
  ∧ (∀ t, In t (map rt_token (im_relationshipTypes (g3_model g')))
          ↔ In t (map rt_token (im_relationshipTypes (g3_model g)))
            ∨ ∃ e, In e rel_files ∧ ri_rel_type (snd e) = t
                   ∧ no_identifier
                       (g3_node_label_map g !! ri_source_label (snd e)) = false
                   ∧ no_identifier
                       (g3_node_label_map g !! ri_target_label (snd e)) = false).
Proof.
  revert g. induction rel_files as [| e rel_files IH]; intros g Hnd Hmap;
    cbv zeta; simpl fold_left.
  - split; [exact Hnd |]. intros t. split; [auto |].
    intros [H | (e & [] & _)]. exact H.
  - unfold v3_relationship at 2 4.
    destruct (no_identifier (g3_node_label_map g !! ri_source_label (snd e)))
      eqn:Hsrc; simpl orb; cbv iota.
    { destruct (IH g Hnd Hmap) as [Hnd' Hiff]. split; [exact Hnd' |].
      intros t. rewrite Hiff. split.
      - intros [H | (e' & He' & H)]; [by left |]. right. exists e'.
        split; [by right | exact H].
      - intros [H | (e' & [<- | He'] & Ht & Hs & Htg)]; [by left | congruence |].
        right. exists e'. tauto. }
    destruct (no_identifier (g3_node_label_map g !! ri_target_label (snd e)))
      eqn:Htgt; cbv iota.
    { destruct (IH g Hnd Hmap) as [Hnd' Hiff]. split; [exact Hnd' |].
      intros t. rewrite Hiff. split.
      - intros [H | (e' & He' & H)]; [by left |]. right. exists e'.
        split; [by right | exact H].
      - intros [H | (e' & [<- | He'] & Ht & Hs & Htg)]; [by left | congruence |].
        right. exists e'. tauto. }
    case_bool_decide as Hseen; cbn [negb].
    + match goal with
      | |- context [fold_left _ rel_files ?g1] =>
          destruct (IH g1) as [Hnd' Hiff]
      end.
      * exact Hnd.
      * exact Hmap.
      * split; [exact Hnd' |]. intros t. rewrite Hiff.
        cbn [g3_model im_relationshipTypes g3_node_label_map]. split.
        -- intros [H | (e' & He' & H)]; [by left |]. right. exists e'.
        split; [by right | exact H].
        -- intros [H | (e' & [<- | He'] & Ht & Hs & Htg)]; [by left | |].
           ++ left. subst t. by apply Hmap.
           ++ right. exists e'. tauto.
    + match goal with
      | |- context [fold_left _ rel_files ?g1] =>
          destruct (IH g1) as [Hnd' Hiff]
      end.
      * cbn [g3_model im_relationshipTypes]. rewrite map_app. simpl.
        apply NoDup_app. split; [exact Hnd |]. split; [| apply NoDup_singleton].
        intros t Ht Ht'. apply list_elem_of_In in Ht.
        apply list_elem_of_singleton in Ht'. subst t.
        apply Hseen. by apply Hmap.
      * intros t. cbn [g3_model im_relationshipTypes g3_rel_type_tokens].
        rewrite map_app, in_app_iff. simpl.
        destruct (decide (ri_rel_type (snd e) = t)) as [-> | Hne].
        -- rewrite lookup_insert_eq. split; [eauto | auto].
        -- rewrite lookup_insert_ne by exact Hne. rewrite Hmap. tauto.
      * split; [exact Hnd' |]. intros t. rewrite Hiff.
        cbn [g3_model im_relationshipTypes g3_node_label_map].
        rewrite map_app, in_app_iff. simpl. split.
        -- intros [[H | [<- | []]] | (e' & He' & H)].
           ++ by left.
           ++ right. exists e. split; [by left | auto].
           ++ right. exists e'. tauto.
        -- intros [H | (e' & [<- | He'] & Ht & Hs & Htg)].
           ++ left. by left.
           ++ left. right. left. exact Ht.
           ++ right. exists e'. tauto.
Qed.

Lemma v3_nodes_relationship_state (self : exporter)
    (entries : list (nat * (string * list string))) (g : gen_v3) :
  im_relationshipTypes (g3_model (fold_left (v3_node self) entries g))
  = im_relationshipTypes (g3_model g)
  ∧ g3_rel_type_tokens (fold_left (v3_node self) entries g)
    = g3_rel_type_tokens g.
Proof.
  revert g. induction entries as [| [i [label props]] entries IH]; intros g;
    simpl fold_left.
  - by split.
  - destruct (IH (v3_node self g (i, (label, props)))) as [H1 H2].
    split; [exact H1 | exact H2].
Qed.

(** X12: a document of format 3.0 has one relationship type for each type
    of relationship, however many patterns share it: the tokens of its
    relationship types are all different, and they are the types of the
    patterns both of whose labels are exported. *)
Theorem relationship_types_once (self : exporter)
    (node_files : list (string * list string))
    (rel_files : list (string * rel_info)) :
  let tokens :=
    map rt_token
        (im_relationshipTypes
           (_generate_model_v3_0 self node_files rel_files)) in
  NoDup tokens
  ∧ (∀ t, In t tokens ↔
          ∃ e, In e rel_files ∧ ri_rel_type (snd e) = t
               ∧ labels_exported node_files (snd e)).
Proof.
  cbv zeta. unfold _generate_model_v3_0. cbv zeta.
  set (start := {| g3_node_label_map := ∅; g3_rel_type_id_counter := 0;
                   g3_rel_type_tokens := ∅; g3_sample_data := ∅;
                   g3_model := {| im_version := "3.0.0"; im_nodeLabels := [];
                                  im_relationshipTypes := [];
                                  im_tableSchemas := [] |} |}).
  set (g := fold_left (v3_node self) (enumerate node_files) start).
  destruct (v3_nodes_relationship_state self (enumerate node_files) start)
    as [Hrt Htok]. fold g in Hrt, Htok. simpl in Hrt, Htok.
  assert (Hlabels : ∀ l, no_identifier (g3_node_label_map g !! l) = false
                         ↔ In l (map fst node_files)).
  { intros l. unfold g.
    rewrite (v3_nodes_label_map self (enumerate node_files) start []).
    - simpl. by rewrite enumerate_labels.
    - intros l0. simpl. rewrite lookup_empty. simpl. split; [discriminate | tauto]. }
  destruct (v3_relationships_types self rel_files g) as [Hnd Hiff].
  - rewrite Hrt. constructor.
  - intros t. rewrite Hrt, Htok, lookup_empty. simpl.
    split; [tauto | intros [x Hx]; discriminate].
  - split; [exact Hnd |]. intros t. rewrite Hiff, Hrt. simpl.
    unfold labels_exported. split.
    + intros [[] | (e & He & Ht & Hs & Htg)]. exists e.
      rewrite <- !Hlabels. tauto.
    + intros (e & He & Ht & Hs & Htg). right. exists e.
      rewrite !Hlabels. tauto.
Qed.

(** ** The property ids of a 2.4.0 document *)

Lemma property_ids_imap (sample_data : node_record) (c : nat)
    (properties : list string) :
  map pd_id
      (imap (fun k prop =>
               property_of sample_data ("p:" +:+ pretty (c + k)) prop)
            properties)
  = map (fun k : nat => "p:" +:+ pretty k) (seq c (length properties)).
Proof.
  revert c. induction properties as [| p properties IH]; intros c.
  - reflexivity.
  - rewrite imap_cons. simpl. rewrite Nat.add_0_r. f_equal.
    rewrite <- IH. f_equal. apply imap_ext. intros i x _. simpl.
    by rewrite Nat.add_succ_r.
Qed.

Lemma v2_nodes_ids (self : exporter)
    (entries : list (nat * (string * list string))) (g : gen_v2) :
  1 ≤ g2_property_counter g →
  concat (map (fun nl => map pd_id (nl_properties nl))
              (im_nodeLabels (g2_model g)))
  = map (fun k : nat => "p:" +:+ pretty k) (seq 1 (g2_property_counter g - 1)) →
  let g' := fold_left (v2_node self) entries g in
  1 ≤ g2_property_counter g'
  ∧ concat (map (fun nl => map pd_id (nl_properties nl))
                (im_nodeLabels (g2_model g')))
    = map (fun k : nat => "p:" +:+ pretty k)
          (seq 1 (g2_property_counter g' - 1))
  ∧ im_relationshipTypes (g2_model g') = im_relationshipTypes (g2_model g).
Proof.
  revert g. induction entries as [| [i [label props]] entries IH];
    intros g Hc Hids; cbv zeta; simpl fold_left.
  - auto.
  - match goal with
    | |- context [fold_left _ entries ?g1] => destruct (IH g1) as (H1 & H2 & H3)
    end.
    + cbn [v2_node g2_property_counter]. lia.
    + cbn [v2_node g2_property_counter g2_model im_nodeLabels].
      rewrite map_app, concat_app. simpl. rewrite app_nil_r, Hids.
      rewrite property_ids_imap, <- map_app. f_equal.
      replace (g2_property_counter g + length props - 1)
        with ((g2_property_counter g - 1) + length props) by lia.
      rewrite seq_app. f_equal. f_equal. lia.
    + split; [exact H1 |]. split; [exact H2 |]. rewrite H3. reflexivity.
Qed.

Lemma v2_relationships_ids (self : exporter)
    (rel_files : list (string * rel_info)) (g : gen_v2) (c0 : nat) :
  c0 ≤ g2_property_counter g →
  concat (map (fun rt => map pd_id (rt_properties rt))
              (im_relationshipTypes (g2_model g)))
  = map (fun k : nat => "p:" +:+ pretty k)
        (seq c0 (g2_property_counter g - c0)) →
  let g' := fold_left (v2_relationship self) rel_files g in
  c0 ≤ g2_property_counter g'
  ∧ concat (map (fun rt => map pd_id (rt_properties rt))
                (im_relationshipTypes (g2_model g')))
    = map (fun k : nat => "p:" +:+ pretty k)
          (seq c0 (g2_property_counter g' - c0))
  ∧ im_nodeLabels (g2_model g') = im_nodeLabels (g2_model g).
Proof.
  revert g. induction rel_files as [| e rel_files IH];
    intros g Hc Hids; cbv zeta; simpl fold_left.
  - auto.
  - match goal with
    | |- context [fold_left _ rel_files ?g1] => destruct (IH g1) as (H1 & H2 & H3)
    end.
    + unfold v2_relationship.
      destruct (no_identifier _ || no_identifier _);
        cbn [g2_property_counter]; lia.
    + unfold v2_relationship.
      destruct (no_identifier _ || no_identifier _);
        cbn [g2_property_counter g2_model im_relationshipTypes];
        [exact Hids |].
      rewrite map_app, concat_app. simpl. rewrite app_nil_r, Hids.
      rewrite property_ids_imap, <- map_app. f_equal.
      replace (g2_property_counter g + length (ri_rel_properties (snd e)) - c0)
        with ((g2_property_counter g - c0)
              + length (ri_rel_properties (snd e))) by lia.
      rewrite seq_app. f_equal. f_equal. lia.
    + split; [exact H1 |]. split; [exact H2 |]. rewrite H3.
      unfold v2_relationship.
      destruct (no_identifier _ || no_identifier _); reflexivity.
Qed.

(** X13: in a document of format 2.4.0 the properties of the node labels and
    then of the relationship types are numbered [p:1], [p:2], ... without a
    gap, in the order of the document: no two properties share an id. *)
Theorem property_ids_consecutive (self : exporter)
    (node_files : list (string * list string))
    (rel_files : list (string * rel_info)) :
  let ids := property_ids (_generate_model_v2_4 self node_files rel_files) in
  ids = map (fun k : nat => "p:" +:+ pretty k) (seq 1 (length ids))
  ∧ NoDup ids.
Proof.
  cbv zeta. unfold _generate_model_v2_4. cbv zeta.
  set (start := {| g2_node_label_map := ∅; g2_property_counter := 1;
                   g2_rel_id_counter := 0;
                   g2_model := {| im_version := "2.4.0-beta.0";
                                  im_nodeLabels := [];
                                  im_relationshipTypes := [];
                                  im_tableSchemas := [] |} |}).
  destruct (v2_nodes_ids self (enumerate node_files) start)
    as (Hc1 & Hn & Hr); [simpl; lia | reflexivity |].
  set (g := fold_left (v2_node self) (enumerate node_files) start) in *.
  simpl in Hr.
  destruct (v2_relationships_ids self rel_files g (g2_property_counter g))
    as (Hc2 & Hrel & Hnl); [lia | |].
  { rewrite Hr, Nat.sub_diag. reflexivity. }
  set (g' := fold_left (v2_relationship self) rel_files g) in *.
  assert (Hids : property_ids (g2_model g')
                 = map (fun k : nat => "p:" +:+ pretty k)
                       (seq 1 (g2_property_counter g' - 1))).
  { unfold property_ids. rewrite Hnl, Hn, Hrel, <- map_app. f_equal.
    replace (g2_property_counter g' - 1)
      with ((g2_property_counter g - 1)
            + (g2_property_counter g' - g2_property_counter g)) by lia.
    rewrite seq_app. f_equal. f_equal. lia. }
  split.
  - rewrite Hids at 1. by rewrite Hids, length_map, length_seq.
  - rewrite Hids.
    assert (Hinj : Inj (=) (=) (fun k : nat => "p:" +:+ pretty k)).
    { intros i j H. apply append_cancel_l in H. by apply (inj pretty). }
    apply (NoDup_fmap_2 _), NoDup_seq.
Qed.

(** ** Integers are floats: why the integer parse comes first *)

Lemma drop_while_all {A} (f : A → bool) (l : list A) :
  Forall (fun x => f x = true) l → drop_while f l = [].
Proof.
  induction 1 as [| x l Hx _ IH]; simpl; [reflexivity | by rewrite Hx].
Qed.

Lemma drop_while_nil {A} (f : A → bool) (l : list A) :
  drop_while f l = [] → Forall (fun x => f x = true) l.
Proof.
  induction l as [| x l IH]; simpl; [constructor |].
  destruct (f x) eqn:Hx; [| discriminate].
  intros H. constructor; [exact Hx | by apply IH].
Qed.

Lemma drop_while_app_all {A} (f : A → bool) (l k : list A) :
  Forall (fun x => f x = true) l → drop_while f (l ++ k) = drop_while f k.
Proof.
  induction 1 as [| x l Hx _ IH]; simpl; [reflexivity | by rewrite Hx].
Qed.

Lemma drop_while_head {A} (f : A → bool) (x : A) (l : list A) :
  f x = false → drop_while f (x :: l) = x :: l.
Proof. intros H. simpl. by rewrite H. Qed.

Lemma digit_not_space (c : ascii) : is_digit c = true → is_space c = false.
Proof.
  unfold is_digit, is_space. cbv zeta.
  rewrite andb_true_iff, !Nat.leb_le. intros [H1 H2].
  apply orb_false_iff. split.
  - apply andb_false_iff. right. apply Nat.leb_gt. lia.
  - apply Nat.eqb_neq. lia.
Qed.

Lemma digit_not_underscore (c : ascii) :
  is_digit c = true → Ascii.eqb c "_" = false.
Proof.
  intros H. destruct (Ascii.eqb_spec c "_") as [-> | _]; [discriminate | reflexivity].
Qed.

Lemma digit_not_sign (c : ascii) :
  is_digit c = true → Ascii.eqb c "+" || Ascii.eqb c "-" = false.
Proof.
  intros H.
  destruct (Ascii.eqb_spec c "+") as [-> | _]; [discriminate |].
  destruct (Ascii.eqb_spec c "-") as [-> | _]; [discriminate | reflexivity].
Qed.

(** The run that [scan_digits] accepts, once inside it: none of its
    characters is a blank, and [drop_underscores] turns it into digits. *)
Lemma scan_digits_run (s : list ascii) (prev : ascii) (n digits : nat)
    (rest : list ascii) :
  is_digit prev = true ∨ prev = "_"%char →
  scan_digits prev n s = Some (digits, rest) →
  ∃ D D', s = D ++ rest
          ∧ Forall (fun c => is_space c = false) D
          ∧ drop_underscores prev D = Some D'
          ∧ Forall (fun c => is_digit c = true) D'.
Proof.
  revert prev n. induction s as [| c s IH]; intros prev n Hprev; simpl.
  - destruct (Ascii.eqb prev "_") eqn:Hp; [discriminate |].
    intros [= <- <-]. exists [], []. simpl. rewrite Hp. repeat split; constructor.
  - destruct (is_digit c) eqn:Hc.
    + intros H. destruct (IH c (S n) (or_introl Hc) H)
        as (D & D' & -> & Hsp & Hdrop & Hdig).
      exists (c :: D), (c :: D'). split; [reflexivity |].
      split; [constructor; [by apply digit_not_space | exact Hsp] |].
      split; [| by constructor].
      simpl. rewrite (digit_not_underscore c Hc), Hc, andb_false_r, Hdrop.
      reflexivity.
    + destruct (Ascii.eqb_spec c "_") as [-> | Hne].
      * destruct (Ascii.eqb_spec prev "_") as [-> | Hpne]; [discriminate |].
        destruct Hprev as [Hprev | ->]; [| congruence].
        intros H. destruct (IH "_"%char n (or_intror eq_refl) H)
          as (D & D' & -> & Hsp & Hdrop & Hdig).
        exists ("_"%char :: D), D'. split; [reflexivity |].
        split; [constructor; [reflexivity | exact Hsp] |].
        split; [| exact Hdig].
        simpl. by rewrite Hprev.
      * destruct (Ascii.eqb prev "_") eqn:Hp; [discriminate |].
        intros [= <- <-]. exists [], []. simpl. rewrite Hp.
        repeat split; constructor.
Qed.

Lemma strtod_digits (sign digits : list ascii) :
  (sign = [] ∨ ∃ c, sign = [c] ∧ Ascii.eqb c "+" || Ascii.eqb c "-" = true) →
  digits ≠ [] →
  Forall (fun c => is_digit c = true) digits →
  strtod_rest (sign ++ digits) = Some [].
Proof.
  intros Hsign Hne Hdig. unfold strtod_rest.
  assert (Hskip : skip_sign (sign ++ digits) = digits).
  { destruct Hsign as [-> | (c & -> & Hc)]; unfold skip_sign; cbn [app].
    - destruct digits as [| d ds]; [congruence |].
      apply Forall_cons in Hdig. destruct Hdig as [Hd _].
      by rewrite (digit_not_sign d Hd).
    - by rewrite Hc. }
  rewrite Hskip. cbv zeta. unfold count_digits, skip_digits.
  rewrite (drop_while_all _ _ Hdig). simpl length. rewrite Nat.sub_0_r.
  destruct digits; [congruence | reflexivity].
Qed.

Lemma strip_run (sign D rest : list ascii) :
  D ≠ [] →
  Forall (fun c => is_space c = false) (sign ++ D) →
  Forall (fun c => is_space c = true) rest →
  rev (drop_while is_space (rev (sign ++ D ++ rest))) = sign ++ D.
Proof.
  intros Hne Hns Hsp.
  rewrite app_assoc, rev_app_distr.
  rewrite drop_while_app_all.
  2: { apply List.Forall_forall. intros c Hc. apply in_rev in Hc.
       rewrite List.Forall_forall in Hsp. by apply Hsp. }
  destruct (rev (sign ++ D)) as [| z zs] eqn:Hrev.
  - apply (f_equal (@rev ascii)) in Hrev. rewrite rev_involutive in Hrev.
    simpl in Hrev. destruct sign, D; simpl in Hrev; congruence.
  - rewrite drop_while_head.
    + rewrite <- Hrev. apply rev_involutive.
    + rewrite List.Forall_forall in Hns. apply Hns, in_rev.
      rewrite Hrev. by left.
Qed.

Lemma int_parses_float_parses (s : string) :
  int_parses s = true → float_parses s = true.
Proof.
  unfold int_parses, float_parses, py_strip. cbv zeta.
  set (l' := drop_while is_space (list_ascii_of_string s)).
  assert (Hsign : ∃ sign, l' = sign ++ skip_sign l'
                          ∧ (sign = [] ∨ ∃ c, sign = [c]
                               ∧ Ascii.eqb c "+" || Ascii.eqb c "-" = true)).
  { destruct l' as [| c l'']; simpl.
    - exists []. auto.
    - destruct (Ascii.eqb c "+" || Ascii.eqb c "-") eqn:Hc.
      + exists [c]. split; [reflexivity |]. right. eauto.
      + exists []. auto. }
  destruct Hsign as (sign & Hl' & Hsign).
  destruct (skip_sign l') as [| c0 s0] eqn:Hbody; [discriminate |].
  destruct (Ascii.eqb c0 "_") eqn:Hus; [discriminate |].
  simpl scan_digits.
  destruct (is_digit c0) eqn:Hc0.
  2: { rewrite Hus. simpl. discriminate. }
  destruct (scan_digits c0 1 s0) as [[digits rest] |] eqn:Hscan;
    [| discriminate].
  rewrite !andb_true_iff. intros [_ Hrest].
  assert (Hrest' : Forall (fun c => is_space c = true) rest).
  { apply drop_while_nil. by destruct (drop_while is_space rest). }
  destruct (scan_digits_run s0 c0 1 digits rest (or_introl Hc0) Hscan)
    as (D & D' & -> & Hsp & Hdrop & Hdig).
  rewrite Hl'.
  change (sign ++ c0 :: D ++ rest) with (sign ++ (c0 :: D) ++ rest).
  rewrite strip_run; [| discriminate | | exact Hrest'].
  2: { apply Forall_app. split.
       - destruct Hsign as [-> | (c & -> & Hc)]; [constructor |].
         constructor; [| constructor].
         destruct (Ascii.eqb_spec c "+") as [-> | _]; [reflexivity |].
         destruct (Ascii.eqb_spec c "-") as [-> | _]; [reflexivity |].
         discriminate.
       - constructor; [by apply digit_not_space | exact Hsp]. }
  assert (Hdrop' : drop_underscores "000" (sign ++ c0 :: D)
                   = Some (sign ++ c0 :: D')).
  { destruct Hsign as [-> | (c & -> & Hc)]; cbn [drop_underscores app].
    - rewrite Hus, Hc0, Hdrop. reflexivity.
    - assert (Hcus : Ascii.eqb c "_" = false).
      { destruct (Ascii.eqb_spec c "+") as [-> | _]; [reflexivity |].
        destruct (Ascii.eqb_spec c "-") as [-> | _]; [reflexivity |].
        discriminate. }
      rewrite Hcus, Hus, Hc0, Hdrop. reflexivity. }
  rewrite Hdrop'.
  rewrite strtod_digits; [reflexivity | exact Hsign | discriminate |].
  by constructor.
Qed.

(** X14: every text that [int] accepts is accepted by [float] as well, so
    it is only because the integer parse is tried first that whole numbers
    are typed integer: a text is typed integer exactly when [int] accepts
    it, and typed integer or float exactly when [float] accepts it. *)
Theorem numeric_tags (s : string) :
  (int_parses s = true → float_parses s = true)
  ∧ (_infer_type (PStr s) = "integer" ↔ int_parses s = true)
  ∧ (_infer_type (PStr s) = "integer" ∨ _infer_type (PStr s) = "float"
     ↔ float_parses s = true).
Proof.
  assert (Hnum : float_parses s = true → s ≠ "" ∧ s ≠ "NULL").
  { intros H. split; intros ->; vm_compute in H; discriminate. }
  split; [apply int_parses_float_parses |].
  rewrite infer_type_str. split.
  - split.
    + destruct (String.eqb s "" || String.eqb s "NULL"); [discriminate |].
      destruct (int_parses s); [reflexivity |].
      destruct (float_parses s); [discriminate |].
      destruct (_ || _); discriminate.
    + intros Hint.
      destruct (Hnum (int_parses_float_parses s Hint)) as [H1 H2].
      apply String.eqb_neq in H1, H2. by rewrite H1, H2, Hint.
  - split.
    + destruct (String.eqb s "" || String.eqb s "NULL");
        [intros [H | H]; discriminate |].
      destruct (int_parses s) eqn:Hint;
        [intros _; by apply int_parses_float_parses |].
      destruct (float_parses s); [reflexivity |].
      destruct (_ || _); intros [H | H]; discriminate.
    + intros Hfloat. destruct (Hnum Hfloat) as [H1 H2].
      apply String.eqb_neq in H1, H2. rewrite H1, H2, Hfloat. simpl.
      destruct (int_parses s); auto.
Qed.

Lemma numeric_tags_witness :
  int_parses " -1_000 " = true ∧ float_parses " -1_000 " = true.
Proof.
  assert (H : int_parses " -1_000 " = true) by reflexivity.
  split; [exact H |].
  exact (proj1 (numeric_tags " -1_000 ") H).
Defined.

(** ** The format of the document *)

Lemma v3_version (self : exporter) (node_files : list (string * list string))
    (rel_files : list (string * rel_info)) :
  im_version (_generate_model_v3_0 self node_files rel_files) = "3.0.0".
Proof.
  unfold _generate_model_v3_0. cbv zeta.
  set (start := {| g3_node_label_map := ∅; g3_rel_type_id_counter := 0;
                   g3_rel_type_tokens := ∅; g3_sample_data := ∅;
                   g3_model := {| im_version := "3.0.0"; im_nodeLabels := [];
                                  im_relationshipTypes := [];
                                  im_tableSchemas := [] |} |}).
  assert (Hn : ∀ entries g,
             im_version (g3_model (fold_left (v3_node self) entries g))
             = im_version (g3_model g)).
  { induction entries as [| [i [label props]] entries IH]; intros g;
      simpl fold_left; [reflexivity |].
    by rewrite IH. }
  assert (Hr : ∀ rels g,
             im_version (g3_model (fold_left (v3_relationship self) rels g))
             = im_version (g3_model g)).
  { induction rels as [| e rels IH]; intros g; simpl fold_left; [reflexivity |].
    rewrite IH. unfold v3_relationship.
    destruct (no_identifier _ || no_identifier _); reflexivity. }
  by rewrite Hr, Hn.
Qed.

Lemma v2_version (self : exporter) (node_files : list (string * list string))
    (rel_files : list (string * rel_info)) :
  im_version (_generate_model_v2_4 self node_files rel_files) = "2.4.0-beta.0".
Proof.
  unfold _generate_model_v2_4. cbv zeta.
  assert (Hn : ∀ entries g,
             im_version (g2_model (fold_left (v2_node self) entries g))
             = im_version (g2_model g)).
  { induction entries as [| [i [label props]] entries IH]; intros g;
      simpl fold_left; [reflexivity |].
    by rewrite IH. }
  assert (Hr : ∀ rels g,
             im_version (g2_model (fold_left (v2_relationship self) rels g))
             = im_version (g2_model g)).
  { induction rels as [| e rels IH]; intros g; simpl fold_left; [reflexivity |].
    rewrite IH. unfold v2_relationship.
    destruct (no_identifier _ || no_identifier _); reflexivity. }
  by rewrite Hr, Hn.
Qed.

Lemma v0_version (self : exporter) (node_files : list (string * list string))
    (rel_files : list (string * rel_info)) :
  lm_version (_generate_model_v0_1 self node_files rel_files) = "0.1.0-beta.0".
Proof.
  unfold _generate_model_v0_1. cbv zeta.
  assert (Hn : ∀ entries g,
             lm_version (g0_model (fold_left (v0_node self) entries g))
             = lm_version (g0_model g)).
  { induction entries as [| [i [label props]] entries IH]; intros g;
      simpl fold_left; [reflexivity |].
    by rewrite IH. }
  assert (Hr : ∀ rels g,
             lm_version (g0_model (fold_left (v0_relationship self) rels g))
             = lm_version (g0_model g)).
  { induction rels as [| e rels IH]; intros g; simpl fold_left; [reflexivity |].
    rewrite IH. unfold v0_relationship.
    destruct (no_identifier _ || no_identifier _); reflexivity. }
  by rewrite Hr, Hn.
Qed.

(** X15: the document is of format 3.0.0 or 2.4.0-beta.0 only when the
    format version of the exporter is exactly [3.0] or [2.4.0]; any other
    text, [0.1.0] as well as a misspelt [3.0.0] or the empty text, gives the
    legacy document of format 0.1.0-beta.0. *)
Theorem document_format (self : exporter)
    (node_files : list (string * list string))
    (rel_files : list (string * rel_info)) :
  let doc := generate_importer_model self node_files rel_files in
  (document_version doc = "3.0.0" ↔ format_version self = "3.0")
  ∧ (document_version doc = "2.4.0-beta.0" ↔ format_version self = "2.4.0")
  ∧ (document_version doc = "0.1.0-beta.0" ↔
     format_version self ≠ "3.0" ∧ format_version self ≠ "2.4.0")
  ∧ ((∃ m, doc = LegacyModel m) ↔
     format_version self ≠ "3.0" ∧ format_version self ≠ "2.4.0").
Proof.
  cbv zeta. unfold generate_importer_model.
  destruct (String.eqb_spec (format_version self) "3.0") as [E3 | N3].
  { cbn [document_version]. rewrite v3_version, E3.
    split; [split; reflexivity |].
    split; [split; discriminate |].
    split; [split; [discriminate | intros [H _]; by destruct H] |].
    split; [intros [m Hm]; discriminate | intros [H _]; by destruct H]. }
  destruct (String.eqb_spec (format_version self) "2.4.0") as [E2 | N2].
  { cbn [document_version]. rewrite v2_version, E2.
    split; [split; discriminate |].
    split; [split; reflexivity |].
    split; [split; [discriminate | intros [_ H]; by destruct H] |].
    split; [intros [m Hm]; discriminate | intros [_ H]; by destruct H]. }
  cbn [document_version]. rewrite v0_version.
  split; [split; [discriminate | intros H; by destruct (N3 H)] |].
  split; [split; [discriminate | intros H; by destruct (N2 H)] |].
  split; [split; [by intros _ | reflexivity] |].
  split; [by intros _ | intros _; by eexists].
Qed.

Lemma document_format_witness :
  ∃ m, generate_importer_model (social_exporter "3.0.0") [] [] = LegacyModel m.
Proof.
  apply (proj2 (proj2 (proj2 (proj2
           (document_format (social_exporter "3.0.0") [] []))))).
  split; discriminate.
Defined.

(** ** The key of a label in the document of format 3.0 *)

Lemma register_frame (node_idx : nat) (label : string)
    (entries : list (nat * string)) (m : gmap (string * string) string)
    (key : string * string) :
  (∀ e, In e entries → (label, snd e) ≠ key) →
  fold_left (fun m entry =>
               <[(label, snd entry) :=
                   "p:" +:+ pretty node_idx +:+ "_" +:+ pretty (fst entry)]> m)
            entries m !! key
  = m !! key.
Proof.
  revert m. induction entries as [| e entries IH]; intros m H; simpl fold_left.
  - reflexivity.
  - rewrite IH by (intros e' He'; apply H; by right).
    apply lookup_insert_ne. apply H. by left.
Qed.

Lemma register_properties_first (node_idx : nat) (label identifier : string)
    (rest : list string) (m : gmap (string * string) string) :
  ¬ In identifier rest →
  register_properties node_idx label (identifier :: rest) m
    !! (label, identifier)
  = Some ("p:" +:+ pretty node_idx +:+ "_0").
Proof.
  intros Hfresh. unfold register_properties, enumerate.
  rewrite imap_cons. simpl fold_left. rewrite register_frame.
  - by rewrite lookup_insert_eq.
  - intros e He [= Heq]. apply Hfresh.
    apply list_elem_of_In, elem_of_lookup_imap in He.
    destruct He as (i & y & -> & Hy). simpl in Heq. subst y.
    apply list_elem_of_In. by eapply list_elem_of_lookup_2.
Qed.

Lemma key_prop_id_first (self : exporter) (node_idx : nat) (label : string)
    (properties : list string) (m : gmap (string * string) string) :
  keyed_by_first self (label, properties) →
  key_prop_id self (register_properties node_idx label properties m)
    label properties
  = Some ("p:" +:+ pretty node_idx +:+ "_0").
Proof.
  intros (identifier & rest & Hcols & Hfresh & Huc). simpl in Hcols, Huc.
  subst properties. unfold key_prop_id. cbv zeta.
  destruct (unique_constraints self !! label) as [[| k ks] |] eqn:Hk.
  - simpl no_identifier. cbv iota. by apply register_properties_first.
  - rewrite (Huc k ks eq_refl).
    rewrite (register_properties_first _ _ _ _ _ Hfresh). reflexivity.
  - simpl no_identifier. cbv iota. by apply register_properties_first.
Qed.

Lemma v3_node_keys_run (self : exporter)
    (entries : list (nat * (string * list string))) (g : gen_keys) :
  (∀ e, In e entries → keyed_by_first self (snd e)) →
  ∃ g', fold_result (v3_node_key self) entries g = Ok g'
        ∧ gk_nodeKeyProperties g'
          = gk_nodeKeyProperties g ++ map (fun e => key_of (fst e)) entries
        ∧ gk_constraints g'
          = gk_constraints g
            ++ map (fun e => constraint_of (fst e) (snd e)) entries.
Proof.
  revert g. induction entries as [| [idx [label properties]] entries IH];
    intros g Hall; cbn [fold_result].
  - exists g. rewrite !app_nil_r. auto.
  - assert (Hkey : keyed_by_first self (label, properties))
      by (apply (Hall (idx, (label, properties))); by left).
    unfold v3_node_key. cbv zeta.
    rewrite (key_prop_id_first self idx label properties _ Hkey).
    destruct Hkey as (identifier & rest & Hcols & _). simpl in Hcols.
    subst properties. cbn [no_identifier index0 default].
    change (String.eqb ("p:" +:+ pretty idx +:+ "_0") "") with false. cbv iota.
    edestruct IH as (g' & -> & Hkeys & Hcs);
      [intros e He; apply Hall; by right |].
    exists g'. split; [reflexivity |].
    rewrite Hkeys, Hcs. cbn [gk_nodeKeyProperties gk_constraints map fst snd].
    rewrite <- !app_assoc. split; reflexivity.
Qed.

Lemma imap_enumerate {A B} (f : nat → A → B) (l : list A) :
  map (fun e => f (fst e) (snd e)) (enumerate l) = imap f l.
Proof.
  unfold enumerate. change (map ?f ?l) with (f <$> l).
  rewrite fmap_imap. by apply imap_ext.
Qed.

Lemma v3_nodes_labels (self : exporter)
    (entries : list (nat * (string * list string))) (g : gen_v3) :
  im_nodeLabels (g3_model (fold_left (v3_node self) entries g))
  = im_nodeLabels (g3_model g)
    ++ map (fun e =>
              {| nl_id := "nl:" +:+ pretty (fst e);
                 nl_token := fst (snd e);
                 nl_properties :=
                   imap (fun prop_idx prop =>
                           property_of
                             (read_sample self (fst (snd e) +:+ ".csv"))
                             ("p:" +:+ pretty (fst e) +:+ "_" +:+ pretty prop_idx)
                             prop)
                        (snd (snd e)) |})
           entries.
Proof.
  revert g. induction entries as [| [i [label props]] entries IH]; intros g;
    simpl fold_left.
  - by rewrite app_nil_r.
  - rewrite IH. simpl. rewrite <- app_assoc. reflexivity.
Qed.

(** What the node export returns is keyed by its first column. *)
Lemma exported_keyed_by_first (db : graph_db) (self st' : exporter)
    (label : string) (columns : list string) :
  label_exported db (unique_constraints self) st' label columns →
  unique_constraints st' = unique_constraints self →
  ∃ identifier rest,
    label_identifiers st' !! label = Some identifier
    ∧ columns = identifier :: rest
    ∧ keyed_by_first st' (label, columns).
Proof.
  intros (identifier & Hid & Hcols & Hlid & _) Huc.
  destruct (node_columns_spec identifier
              (observed_properties (match_nodes db label)))
    as (rest & Hrest & _ & Hin).
  rewrite Hrest in Hcols.
  exists identifier, rest. split; [exact Hlid |]. split; [exact Hcols |].
  exists identifier, rest. split; [exact Hcols |].
  split; [intros H; apply Hin in H; by destruct H |].
  intros k ks Hk. simpl in Hk. rewrite Huc in Hk.
  rewrite (determine_identifier_constraint _ _ _ _ _ _ Hk) in Hid.
  by injection Hid.
Qed.

(** X16: in the document of format 3.0 every exported label has a key
    property and a uniqueness constraint, and both point at the label's first
    column, which is the identifier that the node export resolved: the key of
    the label at place [i] is the property [p:i_0], whose token is the
    identifier, and the constraint is named after the identifier and the
    label.  Generating them never fails on what the node export returns. *)
Theorem key_is_identifier (db : graph_db) (self : exporter)
    (node_files : list (string * list string)) (st' : exporter)
    (rel_files : list (string * rel_info)) :
  NoDup (node_labels self) →
  export_nodes db self = (Ok node_files, st') →
  ∃ g,
    v3_node_keys st' node_files = Ok g
    ∧ gk_nodeKeyProperties g = imap (fun i _ => key_of i) node_files
    ∧ gk_constraints g = imap constraint_of node_files
    ∧ ∀ i label columns,
        node_files !! i = Some (label, columns) →
        ∃ identifier nl pd,
          label_identifiers st' !! label = Some identifier
          ∧ hd "" columns = identifier
          ∧ im_nodeLabels (_generate_model_v3_0 st' node_files rel_files) !! i
            = Some nl
          ∧ nl_token nl = label
          ∧ nl_properties nl !! 0 = Some pd
          ∧ pd_id pd = "p:" +:+ pretty i +:+ "_0"
          ∧ pd_token pd = identifier.
Proof.
  intros Hnd Hrun.
  assert (Huc : unique_constraints st' = unique_constraints self).
  { pose proof (for_each_labels_constraints db (node_labels self) [] self) as H.
    unfold export_nodes, bind, get_self in Hrun.
    change (for_each (node_labels self) (export_label db) [] self
            = (Ok node_files, st')) in Hrun.
    by rewrite Hrun in H. }
  change (for_each (node_labels self) (export_label db) [] self
          = (Ok node_files, st')) in Hrun.
  apply export_labels_result in Hrun;
    [| exact Hnd | intros l _ [] | intros ? ? []].
  destruct Hrun as [_ Hall].
  assert (Hkeyed : ∀ label columns,
             In (label, columns) node_files →
             ∃ identifier rest,
               label_identifiers st' !! label = Some identifier
               ∧ columns = identifier :: rest
               ∧ keyed_by_first st' (label, columns)).
  { intros label columns Hin.
    apply (exported_keyed_by_first db self); [by apply Hall | exact Huc]. }
  destruct (v3_node_keys_run st' (enumerate node_files)
              {| gk_property_id_map := ∅; gk_nodeKeyProperties := [];
                 gk_constraints := [] |})
    as (g & Hg & Hkeys & Hcs).
  { intros [i [label columns]] He. simpl.
    destruct (Hkeyed label columns) as (? & ? & _ & _ & H); [| exact H].
    apply in_map with (f := snd) in He.
    by rewrite enumerate_entries in He. }
  exists g. split; [exact Hg |].
  split; [rewrite Hkeys; apply (imap_enumerate (fun i _ => key_of i)) |].
  split; [rewrite Hcs; apply (imap_enumerate constraint_of) |].
  intros i label columns Hi.
  destruct (Hkeyed label columns) as (identifier & rest & Hlid & -> & _).
  { apply list_elem_of_In. by eapply list_elem_of_lookup_2. }
  unfold _generate_model_v3_0. cbv zeta.
  rewrite v3_relationships_labels, v3_nodes_labels.
  cbn [g3_model im_nodeLabels app].
  rewrite (imap_enumerate
             (fun idx entry =>
                {| nl_id := "nl:" +:+ pretty idx;
                   nl_token := fst entry;
                   nl_properties :=
                     imap (fun prop_idx prop =>
                             property_of
                               (read_sample st' (fst entry +:+ ".csv"))
                               ("p:" +:+ pretty idx +:+ "_" +:+ pretty prop_idx)
                               prop)
                          (snd entry) |})).
  rewrite list_lookup_imap, Hi. simpl.
  eexists identifier, _, _. split; [exact Hlid |].
  repeat split.
Qed.

Lemma key_is_identifier_witness :
  ∃ g, v3_node_keys (snd (export_nodes social_db (social_exporter "3.0")))
                    (match fst (export_nodes social_db (social_exporter "3.0")) with
                     | Ok node_files => node_files
                     | Raise _ => []
                     end) = Ok g
       ∧ gk_nodeKeyProperties g = [key_of 0].
Proof.
  destruct (export_nodes social_db (social_exporter "3.0"))
    as [[node_files | e] st'] eqn:Hrun.
  - destruct (key_is_identifier social_db (social_exporter "3.0")
                node_files st' [])
      as (g & Hg & Hkeys & _).
    + vm_compute. repeat constructor; rewrite list_elem_of_In; simpl;
        intuition discriminate.
    + exact Hrun.
    + exists g. split; [exact Hg |]. rewrite Hkeys.
      vm_compute in Hrun. injection Hrun as <- _. reflexivity.
  - vm_compute in Hrun. discriminate.
Defined.

(** ** The indexes and constraints of the document of format 2.4.0 *)

Lemma append_schema_items_spec (type_of : show_record → string)
    (records : list show_record) (acc : list schema_item) (item : schema_item) :
  In item (fold_left (append_schema_item type_of) records acc) ↔
  In item acc
  ∨ ∃ record, In record records
              ∧ sr_labelsOrTypes record ≠ []
              ∧ sr_properties record ≠ []
              ∧ item = schema_item_of type_of record.
Proof.
  revert acc. induction records as [| r records IH]; intros acc;
    simpl fold_left.
  - split; [auto | intros [H | (r & [] & _)]; exact H].
  - rewrite IH. unfold append_schema_item.
    destruct (sr_labelsOrTypes r) as [| l ls] eqn:Hl;
      [| destruct (sr_properties r) as [| q qs] eqn:Hq]; simpl.
    + split.
      * intros [H | (r' & Hr' & H)]; [by left |].
        right. exists r'. split; [by right | exact H].
      * intros [H | (r' & [<- | Hr'] & H1 & H)]; [by left | congruence |].
        right. by exists r'.
    + split.
      * intros [H | (r' & Hr' & H)]; [by left |].
        right. exists r'. split; [by right | exact H].
      * intros [H | (r' & [<- | Hr'] & H1 & H2 & H)];
          [by left | congruence |].
        right. by exists r'.
    + rewrite in_app_iff. simpl. split.
      * intros [[H | [<- | []]] | (r' & Hr' & H)].
        -- by left.
        -- right. exists r. split; [by left |].
           rewrite Hl, Hq. repeat split; try discriminate.
           unfold schema_item_of. by rewrite Hl, Hq.
        -- right. exists r'. split; [by right | exact H].
      * intros [H | (r' & [<- | Hr'] & H1 & H2 & ->)].
        -- left. by left.
        -- left. right. left. unfold schema_item_of. by rewrite Hl, Hq.
        -- right. by exists r'.
Qed.

Lemma enumerate_lookup {A} (l : list A) (i : nat) (x : A) :
  In (i, x) (enumerate l) ↔ l !! i = Some x.
Proof.
  unfold enumerate. rewrite <- list_elem_of_In, elem_of_lookup_imap. split.
  - intros (j & y & [= -> ->] & H). exact H.
  - intros H. by exists i, x.
Qed.

Lemma label_ids_lookup (entries : list (nat * (string * list string)))
    (m : gmap string string) (label id : string) :
  fold_left (fun m entry =>
               <[fst (snd entry) := "nl:n" +:+ pretty (fst entry)]> m)
            entries m !! label = Some id →
  m !! label = Some id
  ∨ ∃ e, In e entries ∧ fst (snd e) = label
         ∧ id = "nl:n" +:+ pretty (fst e).
Proof.
  revert m. induction entries as [| e entries IH]; intros m; simpl fold_left.
  - auto.
  - intros H. apply IH in H. destruct H as [H | (e' & He' & H)].
    + destruct (decide (fst (snd e) = label)) as [Heq | Hne].
      * rewrite Heq, lookup_insert_eq in H. injection H as <-.
        right. exists e. split; [by left | by split].
      * rewrite lookup_insert_ne in H by exact Hne. by left.
    + right. exists e'. split; [by right | exact H].
Qed.

Lemma label_ids_present (entries : list (nat * (string * list string)))
    (m : gmap string string) (label : string) :
  is_Some (m !! label) ∨ (∃ e, In e entries ∧ fst (snd e) = label) →
  is_Some (fold_left (fun m entry =>
                        <[fst (snd entry) := "nl:n" +:+ pretty (fst entry)]> m)
                     entries m !! label).
Proof.
  revert m. induction entries as [| e entries IH]; intros m; simpl fold_left.
  - intros [H | (e & [] & _)]. exact H.
  - intros H. apply IH.
    destruct (decide (fst (snd e) = label)) as [Heq | Hne].
    + left. rewrite Heq, lookup_insert_eq. by eexists.
    + destruct H as [H | (e' & [<- | He'] & H)].
      * left. by rewrite lookup_insert_ne.
      * congruence.
      * right. by exists e'.
Qed.

Lemma register_ids_lookup (label : string) (props : list string)
    (acc : nat * gmap (string * string) string)
    (key : string * string) (id : string) :
  snd (fold_left (fun acc prop =>
                    (S (fst acc),
                     <[(label, prop) := "p:" +:+ pretty (fst acc)]> (snd acc)))
                 props acc) !! key = Some id →
  snd acc !! key = Some id
  ∨ (∃ p, In p props ∧ key = (label, p)) ∧ id ≠ "".
Proof.
  revert acc. induction props as [| q props IH]; intros acc; simpl fold_left.
  - auto.
  - intros H. apply IH in H. destruct H as [H | [(p & Hp & ->) Hid]].
    + simpl in H. destruct (decide ((label, q) = key)) as [<- | Hne].
      * rewrite lookup_insert_eq in H. injection H as <-.
        right. split; [exists q; split; [by left | reflexivity] | discriminate].
      * rewrite lookup_insert_ne in H by exact Hne. by left.
    + right. split; [| exact Hid]. exists p. split; [by right | reflexivity].
Qed.

Lemma register_ids_present (label : string) (props : list string)
    (acc : nat * gmap (string * string) string) (key : string * string) :
  is_Some (snd acc !! key) ∨ (∃ p, In p props ∧ key = (label, p)) →
  is_Some (snd (fold_left
                  (fun acc prop =>
                     (S (fst acc),
                      <[(label, prop) := "p:" +:+ pretty (fst acc)]> (snd acc)))
                  props acc) !! key).
Proof.
  revert acc. induction props as [| q props IH]; intros acc; simpl fold_left.
  - intros [H | (p & [] & _)]. exact H.
  - intros H. apply IH. simpl.
    destruct (decide ((label, q) = key)) as [<- | Hne].
    + left. rewrite lookup_insert_eq. by eexists.
    + destruct H as [H | (p & [<- | Hp] & ->)].
      * left. by rewrite lookup_insert_ne.
      * congruence.
      * right. by exists p.
Qed.

Lemma property_ids_lookup (node_files : list (string * list string))
    (label p id : string) :
  v2_property_ids node_files !! (label, p) = Some id →
  (∃ columns, In (label, columns) node_files ∧ In p columns) ∧ id ≠ "".
Proof.
  unfold v2_property_ids.
  assert (H : ∀ (acc : nat * gmap (string * string) string),
             snd (fold_left
                    (fun acc entry =>
                       fold_left
                         (fun acc prop =>
                            (S (fst acc),
                             <[(fst entry, prop) := "p:" +:+ pretty (fst acc)]>
                               (snd acc)))
                         (snd entry) acc)
                    node_files acc) !! (label, p) = Some id →
             snd acc !! (label, p) = Some id
             ∨ (∃ columns, In (label, columns) node_files ∧ In p columns)
               ∧ id ≠ "").
  { induction node_files as [| [l cols] node_files IH]; intros acc;
      simpl fold_left; [auto |].
    intros H. apply IH in H. destruct H as [H | [(columns & Hin & Hp) Hid]].
    - apply register_ids_lookup in H.
      destruct H as [H | [(q & Hq & [= -> ->]) Hid]]; [by left |].
      right. split; [| exact Hid]. exists cols. split; [by left | exact Hq].
    - right. split; [| exact Hid]. exists columns. split; [by right | exact Hp]. }
  intros Hl. apply H in Hl. destruct Hl as [Hl | Hl]; [| exact Hl].
  simpl in Hl. by rewrite lookup_empty in Hl.
Qed.

Lemma property_ids_present (node_files : list (string * list string))
    (label p : string) (columns : list string) :
  In (label, columns) node_files → In p columns →
  is_Some (v2_property_ids node_files !! (label, p)).
Proof.
  unfold v2_property_ids. intros Hin Hp.
  assert (H : ∀ (acc : nat * gmap (string * string) string),
             is_Some (snd acc !! (label, p)) ∨ In (label, columns) node_files →
             is_Some
               (snd (fold_left
                       (fun acc entry =>
                          fold_left
                            (fun acc prop =>
                               (S (fst acc),
                                <[(fst entry, prop) := "p:" +:+ pretty (fst acc)]>
                                  (snd acc)))
                            (snd entry) acc)
                       node_files acc) !! (label, p))).
  { clear Hin. induction node_files as [| [l cols] node_files IH]; intros acc;
      simpl fold_left.
    - intros [H | []]. exact H.
    - intros H. apply IH. destruct H as [H | [[= -> ->] | H]].
      + left. apply register_ids_present. by left.
      + left. apply register_ids_present. right. by exists p.
      + by right. }
  apply H. by right.
Qed.

Lemma property_refs_some (pim : gmap (string * string) string)
    (label p id : string) (properties : list string) :
  In p properties → pim !! (label, p) = Some id → id ≠ "" →
  property_refs pim label properties ≠ [].
Proof.
  intros Hp Hid Hne Hnil.
  assert (H : "#" +:+ id ∈ property_refs pim label properties).
  { unfold property_refs. apply list_elem_of_omap. exists p.
    split; [by apply list_elem_of_In |].
    cbv zeta. rewrite Hid. simpl.
    apply String.eqb_neq in Hne. by rewrite Hne. }
  rewrite Hnil in H. by apply elem_of_nil in H.
Qed.

(** One turn of the loop: nothing is written, and nothing could be, or one
    definition is, with the next id. *)
Lemma schema_item_step (prefix : string) (type_of : string → string)
    (nlm : gmap string string) (pim : gmap (string * string) string)
    (acc : nat * list schema_def) (info : schema_item) :
  si_labels info ≠ [] →
  (v2_schema_item prefix type_of nlm pim acc info = Ok acc
   ∧ ¬ ∃ d, item_written type_of nlm pim info d)
  ∨ ∃ d, v2_schema_item prefix type_of nlm pim acc info
         = Ok (S (fst acc), snd acc ++ [d])
         ∧ sd_id d = prefix +:+ pretty (fst acc)
         ∧ item_written type_of nlm pim info d.
Proof.
  intros Hlabels. unfold v2_schema_item.
  destruct (String.eqb_spec (si_entityType info) "node") as [Hnode | Hother].
  2: { left. split; [reflexivity |]. intros (d & H & _). contradiction. }
  destruct (si_labels info) as [| label labels] eqn:Hl; [congruence |].
  cbn [index0]. cbv zeta.
  destruct (nlm !! label) as [label_id |] eqn:Hid.
  2: { left. split; [reflexivity |].
       intros (d & _ & _ & _ & l & lid & Hhd & Hlid & _).
       rewrite Hl in Hhd. simpl in Hhd. injection Hhd as <-. congruence. }
  cbn [no_identifier].
  destruct (String.eqb_spec label_id "") as [-> | Hne].
  { left. split; [reflexivity |].
    intros (d & _ & _ & _ & l & lid & Hhd & Hlid & Hlne & _).
    rewrite Hl in Hhd. simpl in Hhd. injection Hhd as <-. congruence. }
  destruct (property_refs pim label (si_properties info)) as [| r rs] eqn:Hrefs.
  { left. split; [reflexivity |].
    intros (d & _ & _ & _ & l & lid & Hhd & _ & _ & _ & Hprops & Hpne).
    rewrite Hl in Hhd. simpl in Hhd. injection Hhd as <-. congruence. }
  cbn [is_nil]. right. eexists. split; [reflexivity |].
  split; [reflexivity |].
  split; [exact Hnode |]. split; [reflexivity |]. split; [reflexivity |].
  exists label, label_id. rewrite Hl. cbn [sd_nodeLabel sd_properties default].
  repeat split; try assumption; try discriminate. by rewrite Hrefs.
Qed.

Lemma schema_items_run (prefix : string) (type_of : string → string)
    (nlm : gmap string string) (pim : gmap (string * string) string)
    (items : list schema_item) (acc : nat * list schema_def) :
  (∀ item, In item items → si_labels item ≠ []) →
  ∃ new,
    fold_result (v2_schema_item prefix type_of nlm pim) items acc
    = Ok (fst acc + length new, snd acc ++ new)
    ∧ map sd_id new
      = map (fun k => prefix +:+ pretty k) (seq (fst acc) (length new))
    ∧ (∀ d, In d new →
            ∃ item, In item items ∧ item_written type_of nlm pim item d)
    ∧ (∀ item d0, In item items → item_written type_of nlm pim item d0 →
                  ∃ d, In d new ∧ item_written type_of nlm pim item d).
Proof.
  revert acc. induction items as [| info items IH]; intros acc Hall;
    cbn [fold_result].
  - exists []. simpl. rewrite Nat.add_0_r, app_nil_r.
    split; [by destruct acc |]. split; [reflexivity |].
    split; [intros d [] | intros item d0 []].
  - destruct (schema_item_step prefix type_of nlm pim acc info)
      as [[-> Hnone] | (d & -> & Hd_id & Hd)];
      [apply Hall; by left | |].
    + destruct (IH acc) as (new & Hrun & Hids & Hsound & Hcomplete);
        [intros item Hitem; apply Hall; by right |].
      exists new. split; [exact Hrun |]. split; [exact Hids |]. split.
      * intros d Hd. destruct (Hsound d Hd) as (item & Hitem & Hw).
        exists item. split; [by right | exact Hw].
      * intros item d0 [<- | Hitem] Hw; [exfalso; apply Hnone; by exists d0 |].
        by apply (Hcomplete item d0).
    + destruct (IH (S (fst acc), snd acc ++ [d]))
        as (new & Hrun & Hids & Hsound & Hcomplete);
        [intros item Hitem; apply Hall; by right |].
      exists (d :: new). rewrite Hrun. cbn [fst snd length].
      split;
        [replace (fst acc + S (length new)) with (S (fst acc) + length new)
           by lia; by rewrite <- app_assoc |].
      split; [simpl; by rewrite Hd_id, Hids |]. split.
      * intros d' [<- | Hd'].
        -- exists info. split; [by left | exact Hd].
        -- destruct (Hsound d' Hd') as (item & Hitem & Hw).
           exists item. split; [by right | exact Hw].
      * intros item d0 [<- | Hitem] Hw.
        -- exists d. split; [by left | exact Hd].
        -- destruct (Hcomplete item d0 Hitem Hw) as (d' & Hd' & Hw').
           exists d'. split; [by right | exact Hw'].
Qed.

(** From the element and the maps back to the record and the labels. *)
Lemma item_written_for (type_of : string → string)
    (kind : show_record → string)
    (node_files : list (string * list string))
    (record : show_record) (d : schema_def) :
  item_written type_of (v2_label_ids node_files) (v2_property_ids node_files)
               (schema_item_of kind record) d →
  written_for node_files (type_of (kind record)) record d.
Proof.
  intros (Hnode & Hname & Htype & label & label_id & Hhd & Hlid & _
          & Href & Hprops & Hne).
  simpl in Hnode, Hname, Htype, Hhd, Hprops.
  split; [exact Hnode |]. split; [exact Hname |]. split; [exact Htype |].
  apply label_ids_lookup in Hlid.
  destruct Hlid as [Hlid | ([idx [l columns]] & He & Hl & ->)];
    [by rewrite lookup_empty in Hlid |].
  simpl in Hl. subst l. apply enumerate_lookup in He.
  exists label, idx, columns. repeat split; assumption.
Qed.

Lemma written_item (type_of : string → string)
    (kind : show_record → string)
    (node_files : list (string * list string))
    (record : show_record) (label p : string) (columns : list string) :
  py_lower (sr_entityType record) = "node" →
  hd_error (sr_labelsOrTypes record) = Some label →
  In (label, columns) node_files →
  In p (sr_properties record) →
  In p columns →
  ∃ d0, item_written type_of (v2_label_ids node_files)
          (v2_property_ids node_files) (schema_item_of kind record) d0.
Proof.
  intros Hnode Hhd Hin Hp Hcol.
  destruct (label_ids_present (enumerate node_files) ∅ label)
    as [label_id Hlid].
  { right. apply list_elem_of_In, list_elem_of_lookup in Hin.
    destruct Hin as [idx Hidx].
    exists (idx, (label, columns)). split; [by apply enumerate_lookup | reflexivity]. }
  assert (Hlne : label_id ≠ "").
  { apply label_ids_lookup in Hlid.
    destruct Hlid as [Hlid | (e & _ & _ & ->)];
      [by rewrite lookup_empty in Hlid | discriminate]. }
  destruct (property_ids_present node_files label p columns Hin Hcol)
    as [id Hid].
  destruct (property_ids_lookup node_files label p id Hid) as [_ Hidne].
  exists {| sd_id := "";
            sd_name := sr_name record;
            sd_type := type_of (kind record);
            sd_nodeLabel := "#" +:+ label_id;
            sd_properties :=
              property_refs (v2_property_ids node_files) label
                            (sr_properties record) |}.
  split; [exact Hnode |]. split; [reflexivity |]. split; [reflexivity |].
  exists label, label_id. simpl.
  repeat split; try assumption.
  by apply (property_refs_some _ label p id).
Qed.

Lemma collected_with_labels (kind : show_record → string)
    (records : list show_record) (item : schema_item) :
  In item (fold_left (append_schema_item kind) records []) →
  si_labels item ≠ [].
Proof.
  intros H. apply append_schema_items_spec in H.
  destruct H as [[] | (record & _ & Hl & _ & ->)]. exact Hl.
Qed.

(** X17: writing the indexes of the document of format 2.4.0 never fails on
    what [get_indexes] collected, since every collected index has a label.
    The indexes written are numbered [i:1], [i:2], ... without a gap; each
    was written for a record of a node index whose first label is an
    exported label, and refers to that label and to at least one of its
    properties; and every such record that names a column of its label has
    an index written for it.  An index of type [RANGE] is written with the
    type [default]. *)
Theorem indexes_of_document (records : list show_record)
    (node_files : list (string * list string)) :
  ∃ defs,
    v2_indexes (get_indexes records) node_files = Ok defs
    ∧ map sd_id defs
      = map (fun k => "i:" +:+ pretty k) (seq 1 (length defs))
    ∧ (∀ d, In d defs →
            ∃ record, In record records
                      ∧ written_for node_files (index_type (sr_type record))
                                    record d)
    ∧ (∀ record label columns p,
         In record records →
         py_lower (sr_entityType record) = "node" →
         hd_error (sr_labelsOrTypes record) = Some label →
         In (label, columns) node_files →
         In p (sr_properties record) →
         In p columns →
         ∃ d, In d defs
              ∧ written_for node_files (index_type (sr_type record)) record d).
Proof.
  unfold v2_indexes, get_indexes.
  destruct (schema_items_run "i:" index_type (v2_label_ids node_files)
              (v2_property_ids node_files)
              (fold_left (append_schema_item sr_type) records []) (1, []))
    as (defs & -> & Hids & Hsound & Hcomplete);
    [apply collected_with_labels |].
  exists defs. split; [reflexivity |]. split; [exact Hids |]. split.
  - intros d Hd. destruct (Hsound d Hd) as (item & Hitem & Hw).
    apply append_schema_items_spec in Hitem.
    destruct Hitem as [[] | (record & Hrec & _ & _ & ->)].
    exists record. split; [exact Hrec |].
    by apply (item_written_for index_type sr_type).
  - intros record label columns p Hrec Hnode Hhd Hin Hp Hcol.
    destruct (written_item index_type sr_type node_files record label p columns)
      as [d0 Hd0]; try assumption.
    destruct (Hcomplete (schema_item_of sr_type record) d0) as (d & Hd & Hw);
      [| exact Hd0 |].
    + apply append_schema_items_spec. right. exists record.
      split; [exact Hrec |].
      split; [intros E; rewrite E in Hhd; discriminate |].
      split; [intros E; rewrite E in Hp; destruct Hp | reflexivity].
    + exists d. split; [exact Hd |].
      by apply (item_written_for index_type sr_type).
Qed.

Lemma constraint_kind_values (constraint_type : string) :
  In (constraint_kind constraint_type) ["uniqueness"; "existence"; "key"].
Proof.
  unfold constraint_kind.
  destruct (_ || _); [by left |].
  destruct (_ || _); [right; by left |].
  destruct (_ || _); [right; right; by left | by left].
Qed.

(** X18: writing the constraints of the document of format 2.4.0 never
    fails on what [get_constraints_detailed] collected.  The constraints
    written are numbered [c:0], [c:1], ... without a gap; each was written
    for a record of a node constraint whose first label is an exported
    label, refers to that label and to at least one of its properties, and
    is of type uniqueness, existence or key; and every such record that
    names a column of its label has a constraint written for it. *)
Theorem constraints_of_document (records : list show_record)
    (node_files : list (string * list string)) :
  ∃ defs,
    v2_constraints (get_constraints_detailed records) node_files = Ok defs
    ∧ map sd_id defs
      = map (fun k => "c:" +:+ pretty k) (seq 0 (length defs))
    ∧ (∀ d, In d defs →
            In (sd_type d) ["uniqueness"; "existence"; "key"]
            ∧ ∃ record, In record records
                        ∧ written_for node_files
                            (constraint_kind (sr_type record)) record d)
    ∧ (∀ record label columns p,
         In record records →
         py_lower (sr_entityType record) = "node" →
         hd_error (sr_labelsOrTypes record) = Some label →
         In (label, columns) node_files →
         In p (sr_properties record) →
         In p columns →
         ∃ d, In d defs
              ∧ written_for node_files (constraint_kind (sr_type record))
                            record d).
Proof.
  unfold v2_constraints, get_constraints_detailed.
  set (kind := fun record => constraint_kind (sr_type record)).
  destruct (schema_items_run "c:" (fun type => type)
              (v2_label_ids node_files) (v2_property_ids node_files)
              (fold_left (append_schema_item kind) records []) (0, []))
    as (defs & -> & Hids & Hsound & Hcomplete);
    [apply collected_with_labels |].
  exists defs. split; [reflexivity |]. split; [exact Hids |]. split.
  - intros d Hd. destruct (Hsound d Hd) as (item & Hitem & Hw).
    apply append_schema_items_spec in Hitem.
    destruct Hitem as [[] | (record & Hrec & _ & _ & ->)].
    apply (item_written_for (fun type => type) kind) in Hw.
    split.
    + destruct Hw as (_ & _ & -> & _). apply constraint_kind_values.
    + exists record. by split.
  - intros record label columns p Hrec Hnode Hhd Hin Hp Hcol.
    destruct (written_item (fun type => type) kind node_files record label p
                columns) as [d0 Hd0]; try assumption.
    destruct (Hcomplete (schema_item_of kind record) d0) as (d & Hd & Hw);
      [| exact Hd0 |].
    + apply append_schema_items_spec. right. exists record.
      split; [exact Hrec |].
      split; [intros E; rewrite E in Hhd; discriminate |].
      split; [intros E; rewrite E in Hp; destruct Hp | reflexivity].
    + exists d. split; [exact Hd |].
      by apply (item_written_for (fun type => type) kind).
Qed.

(** ** The references of the indexes and constraints *)

Lemma register_ids_at (label : string) (props : list string)
    (acc : nat * gmap (string * string) string)
    (key : string * string) (id : string) :
  snd (fold_left (fun acc prop =>
                    (S (fst acc),
                     <[(label, prop) := "p:" +:+ pretty (fst acc)]> (snd acc)))
                 props acc) !! key = Some id →
  snd acc !! key = Some id
  ∨ ∃ k p, props !! k = Some p ∧ key = (label, p)
           ∧ id = "p:" +:+ pretty (fst acc + k).
Proof.
  revert acc. induction props as [| q props IH]; intros acc; simpl fold_left.
  - auto.
  - intros H. apply IH in H. simpl in H.
    destruct H as [H | (k & p & Hk & -> & ->)].
    + destruct (decide ((label, q) = key)) as [<- | Hne].
      * rewrite lookup_insert_eq in H. injection H as <-.
        right. exists 0, q. by rewrite Nat.add_0_r.
      * rewrite lookup_insert_ne in H by exact Hne. by left.
    + right. exists (S k), p. split; [exact Hk |]. split; [reflexivity |].
      by rewrite Nat.add_succ_r.
Qed.

Lemma register_ids_counter (label : string) (props : list string)
    (acc : nat * gmap (string * string) string) :
  fst (fold_left (fun acc prop =>
                    (S (fst acc),
                     <[(label, prop) := "p:" +:+ pretty (fst acc)]> (snd acc)))
                 props acc)
  = fst acc + length props.
Proof.
  revert acc. induction props as [| q props IH]; intros acc; simpl fold_left.
  - by rewrite Nat.add_0_r.
  - rewrite IH. simpl. lia.
Qed.

Lemma property_resolves_app (nodeLabels more : list node_label_def)
    (label p id : string) :
  property_resolves nodeLabels label p id →
  property_resolves (nodeLabels ++ more) label p id.
Proof.
  intros (nl & pd & Hnl & H). exists nl, pd.
  split; [apply in_or_app; by left | exact H].
Qed.

(** The loop over the labels, followed on the document and on
    [property_id_map] at once. *)
Lemma v2_nodes_references (self : exporter)
    (entries : list (nat * (string * list string))) (g : gen_v2)
    (acc : nat * gmap (string * string) string) :
  fst acc = g2_property_counter g →
  (∀ label p id, snd acc !! (label, p) = Some id →
                 property_resolves (im_nodeLabels (g2_model g)) label p id) →
  ∀ label p id,
    snd (fold_left
           (fun acc entry =>
              fold_left (fun acc prop =>
                           (S (fst acc),
                            <[(fst entry, prop) := "p:" +:+ pretty (fst acc)]>
                              (snd acc)))
                        (snd entry) acc)
           (map snd entries) acc) !! (label, p) = Some id →
    property_resolves
      (im_nodeLabels (g2_model (fold_left (v2_node self) entries g)))
      label p id.
Proof.
  revert g acc. induction entries as [| [idx [l cols]] entries IH];
    intros g acc Hc Hinv label p id; simpl fold_left.
  - apply Hinv.
  - apply IH.
    + rewrite register_ids_counter. cbn [v2_node g2_property_counter]. lia.
    + clear label p id. intros label p id H.
      cbn [v2_node g2_model im_nodeLabels].
      apply register_ids_at in H.
      destruct H as [H | (k & q & Hk & [= -> ->] & ->)].
      * apply property_resolves_app. by apply Hinv.
      * eexists _, (property_of (read_sample self (l +:+ ".csv"))
                      ("p:" +:+ pretty (g2_property_counter g + k)) q).
        split; [apply in_or_app; right; by left |].
        split; [reflexivity |]. cbn [nl_properties].
        split; [| rewrite Hc; by split].
        apply list_elem_of_In. apply elem_of_lookup_imap.
        by exists k, q.
Qed.

Lemma v2_nodes_label_refs (self : exporter)
    (entries : list (nat * (string * list string))) (g : gen_v2) :
  g2_node_label_map (fold_left (v2_node self) entries g)
  = fold_left (fun m entry =>
                 <[fst (snd entry) := "nl:n" +:+ pretty (fst entry)]> m)
              entries (g2_node_label_map g)
  ∧ ∀ e, In e entries →
         ∃ nl, In nl (im_nodeLabels
                        (g2_model (fold_left (v2_node self) entries g)))
               ∧ nl_id nl = "nl:n" +:+ pretty (fst e)
               ∧ nl_token nl = fst (snd e).
Proof.
  revert g. induction entries as [| [idx [l cols]] entries IH]; intros g;
    simpl fold_left.
  - split; [reflexivity | intros e []].
  - destruct (IH (v2_node self g (idx, (l, cols)))) as [Hmap Hnl].
    split; [exact Hmap |].
    intros e [<- | He]; [| by apply Hnl].
    assert (Hkeep : ∀ entries g nl,
               In nl (im_nodeLabels (g2_model g)) →
               In nl (im_nodeLabels
                        (g2_model (fold_left (v2_node self) entries g)))).
    { clear. induction entries as [| [i [l c]] entries IH]; intros g nl H;
        simpl fold_left; [exact H |].
      apply IH. cbn [v2_node g2_model im_nodeLabels].
      apply in_or_app. by left. }
    eexists. split.
    + apply Hkeep. cbn [v2_node g2_model im_nodeLabels].
      apply in_or_app. right. by left.
    + by split.
Qed.

Lemma same_token {A B} (f : A → B) (l : list A) (a b : A) :
  NoDup (map f l) → In a l → In b l → f a = f b → a = b.
Proof.
  induction l as [| x l IH]; simpl; intros Hnd Ha Hb Heq; [destruct Ha |].
  apply NoDup_cons in Hnd. destruct Hnd as [Hx Hnd].
  destruct Ha as [-> | Ha], Hb as [-> | Hb].
  - reflexivity.
  - exfalso. apply Hx. rewrite Heq. apply list_elem_of_In, in_map, Hb.
  - exfalso. apply Hx. rewrite <- Heq. apply list_elem_of_In, in_map, Ha.
  - by apply IH.
Qed.

(** What is written for an element refers to the document. *)
Lemma item_written_resolves (self : exporter) (type_of : string → string)
    (node_files : list (string * list string))
    (rel_files : list (string * rel_info))
    (info : schema_item) (d : schema_def) :
  NoDup (map fst node_files) →
  item_written type_of (v2_label_ids node_files) (v2_property_ids node_files)
               info d →
  ∃ nl,
    In nl (im_nodeLabels (_generate_model_v2_4 self node_files rel_files))
    ∧ hd_error (si_labels info) = Some (nl_token nl)
    ∧ sd_nodeLabel d = "#" +:+ nl_id nl
    ∧ ∀ ref, In ref (sd_properties d) →
             ∃ pd, In pd (nl_properties nl)
                   ∧ ref = "#" +:+ pd_id pd
                   ∧ In (pd_token pd) (si_properties info).
Proof.
  intros Hnd (_ & _ & _ & label & label_id & Hhd & Hlid & _ & Href & Hprops & _).
  pose proof (v2_node_labels self node_files rel_files) as Htokens.
  unfold _generate_model_v2_4 in *. cbv zeta in *.
  set (start := {| g2_node_label_map := ∅; g2_property_counter := 1;
                   g2_rel_id_counter := 0;
                   g2_model := {| im_version := "2.4.0-beta.0";
                                  im_nodeLabels := [];
                                  im_relationshipTypes := [];
                                  im_tableSchemas := [] |} |}) in *.
  rewrite v2_relationships_labels in *.
  destruct (v2_nodes_label_refs self (enumerate node_files) start)
    as [_ Hnls].
  apply label_ids_lookup in Hlid.
  destruct Hlid as [Hlid | (e & He & Hl & ->)];
    [by rewrite lookup_empty in Hlid |].
  destruct (Hnls e He) as (nl & Hnl & Hnl_id & Hnl_token).
  exists nl. split; [exact Hnl |].
  split; [by rewrite Hnl_token, Hl |].
  split; [by rewrite Hnl_id |].
  intros ref Hin. rewrite Hprops in Hin.
  apply list_elem_of_In, list_elem_of_omap in Hin.
  destruct Hin as (p & Hp & Hsome). cbv zeta in Hsome.
  destruct (v2_property_ids node_files !! (label, p)) as [id |] eqn:Hid;
    [| discriminate].
  simpl in Hsome. destruct (String.eqb id ""); [discriminate |].
  injection Hsome as <-.
  assert (Hres : property_resolves
                   (im_nodeLabels
                      (g2_model (fold_left (v2_node self)
                                           (enumerate node_files) start)))
                   label p id).
  { apply (v2_nodes_references self (enumerate node_files) start (1, ∅)).
    - reflexivity.
    - intros l q i H. simpl in H. by rewrite lookup_empty in H.
    - rewrite enumerate_entries. exact Hid. }
  destruct Hres as (nl' & pd & Hnl' & Htok' & Hpd & Hpd_id & Hpd_token).
  assert (nl' = nl) as ->.
  { apply (same_token nl_token
             (im_nodeLabels (g2_model (fold_left (v2_node self)
                                         (enumerate node_files) start))));
      try assumption.
    - by rewrite Htokens.
    - by rewrite Htok', Hnl_token, Hl. }
  exists pd. split; [exact Hpd |]. split; [by rewrite Hpd_id |].
  rewrite Hpd_token. by apply list_elem_of_In.
Qed.

Lemma schema_items_written (prefix : string) (type_of : string → string)
    (nlm : gmap string string) (pim : gmap (string * string) string)
    (kind : show_record → string) (records : list show_record)
    (start : nat) (acc : nat * list schema_def) (d : schema_def) :
  fold_result (v2_schema_item prefix type_of nlm pim)
              (fold_left (append_schema_item kind) records []) (start, [])
  = Ok acc →
  In d (snd acc) →
  ∃ record, In record records
            ∧ item_written type_of nlm pim (schema_item_of kind record) d.
Proof.
  intros Hrun Hd.
  destruct (schema_items_run prefix type_of nlm pim
              (fold_left (append_schema_item kind) records []) (start, []))
    as (new & Hnew & _ & Hsound & _); [apply collected_with_labels |].
  rewrite Hnew in Hrun. injection Hrun as <-. simpl in Hd.
  destruct (Hsound d Hd) as (item & Hitem & Hw).
  apply append_schema_items_spec in Hitem.
  destruct Hitem as [[] | (record & Hrec & _ & _ & ->)].
  by exists record.
Qed.

(** X19: no index and no constraint of the document of format 2.4.0 has a
    dangling reference.  The labels being the keys of a dict, hence all
    different, an index or constraint that is written refers to the node
    label whose token is the first label of its record, and each of its
    property references is the id of a property of that very node label,
    whose token is one of the properties of the record. *)
Theorem schema_references_resolve (self : exporter)
    (records : list show_record)
    (node_files : list (string * list string))
    (rel_files : list (string * rel_info))
    (defs : list schema_def) (d : schema_def) :
  NoDup (map fst node_files) →
  v2_indexes (get_indexes records) node_files = Ok defs
  ∨ v2_constraints (get_constraints_detailed records) node_files = Ok defs →
  In d defs →
  ∃ record nl,
    In record records
    ∧ sd_name d = sr_name record
    ∧ In nl (im_nodeLabels (_generate_model_v2_4 self node_files rel_files))
    ∧ hd_error (sr_labelsOrTypes record) = Some (nl_token nl)
    ∧ sd_nodeLabel d = "#" +:+ nl_id nl
    ∧ ∀ ref, In ref (sd_properties d) →
             ∃ pd, In pd (nl_properties nl)
                   ∧ ref = "#" +:+ pd_id pd
                   ∧ In (pd_token pd) (sr_properties record).
Proof.
  intros Hnd Hrun Hd.
  assert (Hw : ∃ type_of kind record,
             In record records
             ∧ item_written type_of (v2_label_ids node_files)
                 (v2_property_ids node_files) (schema_item_of kind record) d).
  { destruct Hrun as [Hrun | Hrun].
    - unfold v2_indexes, get_indexes in Hrun.
      destruct (fold_result _ _ _) as [acc | e] eqn:Hfold; [| discriminate].
      injection Hrun as <-.
      destruct (schema_items_written _ _ _ _ _ _ _ _ d Hfold Hd)
        as (record & Hrec & Hw).
      by exists index_type, sr_type, record.
    - unfold v2_constraints, get_constraints_detailed in Hrun.
      destruct (fold_result _ _ _) as [acc | e] eqn:Hfold; [| discriminate].
      injection Hrun as <-.
      destruct (schema_items_written _ _ _ _ _ _ _ _ d Hfold Hd)
        as (record & Hrec & Hw).
      by exists (fun type => type),
                (fun record => constraint_kind (sr_type record)), record. }
  destruct Hw as (type_of & kind & record & Hrec & Hw).
  destruct (item_written_resolves self type_of node_files rel_files _ d Hnd Hw)
    as (nl & Hnl & Hhd & Href & Hprops).
  exists record, nl. split; [exact Hrec |].
  split; [by destruct Hw as (_ & Hname & _) |].
  split; [exact Hnl |]. split; [exact Hhd |]. split; [exact Href |].
  exact Hprops.
Qed.

Lemma schema_references_resolve_witness :
  ∃ nl, In nl (im_nodeLabels
                 (_generate_model_v2_4 (social_exporter "2.4.0")
                    person_files []))
        ∧ nl_token nl = "Person"
        ∧ nl_id nl = "nl:n0".
Proof.
  destruct (schema_references_resolve (social_exporter "2.4.0") [name_index]
              person_files []
              [{| sd_id := "i:1"; sd_name := "person_name";
                  sd_type := "default"; sd_nodeLabel := "#nl:n0";
                  sd_properties := ["#p:2"] |}]
              {| sd_id := "i:1"; sd_name := "person_name";
                 sd_type := "default"; sd_nodeLabel := "#nl:n0";
                 sd_properties := ["#p:2"] |})
    as (record & nl & Hrec & _ & Hnl & Hhd & Href & _).
  - simpl. apply NoDup_singleton.
  - left. vm_compute. reflexivity.
  - by left.
  - exists nl. split; [exact Hnl |].
    destruct Hrec as [<- | []]. simpl in Hhd, Href.
    split; [by injection Hhd | by injection Href].
Defined.
